(** * Porter runtime: step execution and output binding

    A shallow embedding of [pkg/runtime/runtime.go] (package [runtime] of
    Porter) and the properties of its step loop, its output binder and its
    unbound output resolver.

    The Go code is stateful: it drives a filesystem, a runtime manifest, the
    mixins and two log streams.  The embedding threads a [World] through a
    small state monad and keeps Go's explicit [err != nil] tests, so every
    definition can be read next to the method it embeds. *)

From Stdlib Require Import String Ascii List Bool.
From stdpp Require Import gmap strings list fin_maps sorting.

Local Open Scope string_scope.

(** ** Errors

    Go's [error] interface.  [nil] is [None] of [option error]. *)

#[local] Unset Elimination Schemes.
Inductive error : Type :=
| errorString (msg : string)
    (* an error made by a collaborator or by the filesystem *)
| withMessage (cause : error) (msg : string)
    (* github.com/pkg/errors: Wrap and Wrapf *)
| multiError (errs : list error).
    (* github.com/hashicorp/go-multierror: *multierror.Error *)
#[local] Set Elimination Schemes.

(** [errors.Wrap(err, msg)] and [errors.Wrapf(err, format, ...)] for a
    non-nil [err]; the runtime only wraps inside [if err != nil]. *)
Definition errors_Wrap (err : error) (msg : string) : error := withMessage err msg.
Definition errors_Wrapf (err : error) (msg : string) : error := withMessage err msg.

(** The text of an error, as printed by [fmt.Fprintln(r.Err, err)]. *)
Fixpoint error_Error (e : error) : string :=
  match e with
  | errorString msg => msg
  | withMessage cause msg => msg +:+ ": " +:+ error_Error cause
  | multiError errs =>
      "errors occurred:" +:+
      (fix all (l : list error) : string :=
         match l with
         | [] => ""
         | e' :: l' => " * " +:+ error_Error e' +:+ ";" +:+ all l'
         end) errs
  end.

(** *** go-multierror

    A [*multierror.Error] is a pointer: [None] is the nil pointer and
    [Some errs] points to a struct whose [Errors] field is [errs].
    [Append] called with a nil pointer allocates a new struct, and gives back
    a pointer to it; Go passes the pointer by value, so the caller's variable
    still holds nil unless the caller assigns the result to it. *)
Definition multierror_Append (err : option (list error)) (e : error) : option (list error) :=
  match err with
  | None => Some [e]
  | Some errs => Some (errs ++ [e])%list
  end.

(** [ErrorOrNil] of [*multierror.Error]: nil for a nil pointer and for an
    empty list. *)
Definition multierror_ErrorOrNil (err : option (list error)) : option error :=
  match err with
  | None => None
  | Some [] => None
  | Some errs => Some (multiError errs)
  end.

(** ** Paths *)

(** [filepath.Join(dir, name)] puts a separator between a non-empty [dir]
    and [name] and returns [Clean] of the result.  The paths of the
    filesystem below are clean paths, and the runtime joins one of its two
    directories with the name of a directory entry or of a declared output.
    [filepath_Join] is Join on that domain, a clean directory and a plain
    name, where [Clean] leaves the joined string as it is (lemma
    [filepath_Join_Clean]); [filepath_Clean] is Go's [Clean], and the
    properties that depend on declared names are stated for [plain] names. *)
Definition filepath_Join (dir name : string) : string := dir +:+ "/" +:+ name.

Fixpoint strip_prefix (pre s : string) : option string :=
  match pre with
  | EmptyString => Some s
  | String a pre' =>
      match s with
      | String b s' => if Ascii.eqb a b then strip_prefix pre' s' else None
      | EmptyString => None
      end
  end.

Fixpoint has_separator (s : string) : bool :=
  match s with
  | EmptyString => false
  | String c s' => Ascii.eqb c "/" || has_separator s'
  end.

(** A plain name: one element of a path, neither empty nor a dot name. *)
Definition is_plain (name : string) : bool :=
  negb (has_separator name) && negb (String.eqb name "") &&
  negb (String.eqb name ".") && negb (String.eqb name "..").

Definition plain (name : string) : Prop := is_plain name = true.

(** [filepath.Clean] of Go on a Unix path: separators that repeat and [.]
    elements are dropped, a [..] element removes the element before it, is
    dropped at the root and is kept at the start of a path that is not
    rooted; the empty result is [.]. *)
Fixpoint elements (p : string) : list string :=
  match p with
  | EmptyString => [EmptyString]
  | String c p' =>
      if Ascii.eqb c "/" then EmptyString :: elements p'
      else match elements p' with
           | e :: es => String c e :: es
           | [] => [String c EmptyString]
           end
  end.

(** One element of the scan of [Clean]; [out] holds the elements kept so
    far, the latest first. *)
Definition Clean_step (rooted : bool) (out : list string) (e : string) : list string :=
  if String.eqb e "" || String.eqb e "." then out
  else if String.eqb e ".." then
    match out with
    | top :: out' => if String.eqb top ".." then e :: out else out'
    | [] => if rooted then [] else [e]
    end
  else e :: out.

Fixpoint join_elements (es : list string) : string :=
  match es with
  | [] => ""
  | [e] => e
  | e :: es' => e +:+ "/" +:+ join_elements es'
  end.

Definition is_rooted (p : string) : bool :=
  match p with
  | String c _ => Ascii.eqb c "/"
  | EmptyString => false
  end.

Definition filepath_Clean (p : string) : string :=
  let rooted := is_rooted p in
  let out := rev (fold_left (Clean_step rooted) (elements p) []) in
  if rooted then "/" +:+ join_elements out
  else match out with
       | [] => "."
       | _ => join_elements out
       end.

(** A directory that [Clean] leaves as it is and that is neither the root
    nor the current directory. *)
Definition clean_dir (dir : string) : Prop :=
  filepath_Clean dir = dir ∧ dir ≠ "/" ∧ dir ≠ ".".

(** [base_in dir p] is the file name of [p] when [p] lies directly in [dir]. *)
Definition base_in (dir p : string) : option string :=
  match strip_prefix dir p with
  | Some (String "/" name) =>
      if has_separator name || String.eqb name "" then None else Some name
  | _ => None
  end.

(** ** The filesystem ([r.FileSystem], an afero filesystem)

    A flat map from paths to nodes, and the faults of the medium: [denied op p]
    says that operation [op] on path [p] fails (permissions, I/O errors). *)

Inductive Node : Type :=
| File (contents : string)
| Directory.

Inductive FsOp : Type :=
| OpStat | OpReadDir | OpReadFile | OpWriteFile | OpRemove | OpMkdirAll.

Record FileSystem : Type := mkFileSystem {
  nodes : gmap string Node;
  denied : FsOp → string → bool
}.

(** [os.FileInfo], as far as the runtime looks at it. *)
Record FileInfo : Type := mkFileInfo {
  FileInfo_Name : string;
  FileInfo_IsDir : bool
}.

Definition is_dir (n : Node) : bool :=
  match n with Directory => true | File _ => false end.

Definition entry_of (dir : string) (pn : string * Node) : option FileInfo :=
  match base_in dir pn.1 with
  | Some name => Some (mkFileInfo name (is_dir pn.2))
  | None => None
  end.

(** [ReadDir] gives the entries sorted by file name. *)
Definition by_name (a b : FileInfo) : Prop :=
  String.le (FileInfo_Name a) (FileInfo_Name b).

#[global] Instance by_name_dec : RelDecision by_name.
Proof. intros a b. unfold by_name. apply _. Defined.

(** The entries of [dir], not recursive, sorted by name. *)
Definition fs_entries (dir : string) (fsys : FileSystem) : list FileInfo :=
  merge_sort by_name (omap (entry_of dir) (map_to_list (nodes fsys))).

Definition fs_Stat (p : string) (fsys : FileSystem) : error + FileInfo :=
  if denied fsys OpStat p
  then inl (errorString ("stat " +:+ p +:+ ": permission denied"))
  else match nodes fsys !! p with
       | Some n => inr (mkFileInfo p (is_dir n))
       | None => inl (errorString ("stat " +:+ p +:+ ": no such file or directory"))
       end.

Definition fs_ReadDir (dir : string) (fsys : FileSystem) : error + list FileInfo :=
  if denied fsys OpReadDir dir
  then inl (errorString ("open " +:+ dir +:+ ": permission denied"))
  else match nodes fsys !! dir with
       | Some Directory => inr (fs_entries dir fsys)
       | Some (File _) => inl (errorString ("readdir " +:+ dir +:+ ": not a directory"))
       | None => inl (errorString ("open " +:+ dir +:+ ": no such file or directory"))
       end.

Definition fs_ReadFile (p : string) (fsys : FileSystem) : error + string :=
  if denied fsys OpReadFile p
  then inl (errorString ("open " +:+ p +:+ ": permission denied"))
  else match nodes fsys !! p with
       | Some (File contents) => inr contents
       | Some Directory => inl (errorString ("read " +:+ p +:+ ": is a directory"))
       | None => inl (errorString ("open " +:+ p +:+ ": no such file or directory"))
       end.

Definition fs_WriteFile (p contents : string) (fsys : FileSystem)
  : option error * FileSystem :=
  if denied fsys OpWriteFile p
  then (Some (errorString ("open " +:+ p +:+ ": permission denied")), fsys)
  else match nodes fsys !! p with
       | Some Directory =>
           (Some (errorString ("open " +:+ p +:+ ": is a directory")), fsys)
       | _ => (None, mkFileSystem (<[p := File contents]> (nodes fsys)) (denied fsys))
       end.

Definition fs_Remove (p : string) (fsys : FileSystem) : option error * FileSystem :=
  if denied fsys OpRemove p
  then (Some (errorString ("remove " +:+ p +:+ ": permission denied")), fsys)
  else match nodes fsys !! p with
       | Some _ => (None, mkFileSystem (delete p (nodes fsys)) (denied fsys))
       | None =>
           (Some (errorString ("remove " +:+ p +:+ ": no such file or directory")), fsys)
       end.

Definition fs_MkdirAll (p : string) (fsys : FileSystem) : option error * FileSystem :=
  if denied fsys OpMkdirAll p
  then (Some (errorString ("mkdir " +:+ p +:+ ": permission denied")), fsys)
  else match nodes fsys !! p with
       | Some (File _) =>
           (Some (errorString ("mkdir " +:+ p +:+ ": not a directory")), fsys)
       | _ => (None, mkFileSystem (<[p := Directory]> (nodes fsys)) (denied fsys))
       end.

(** Modelled from the spec: [context.CopyFile] (package [context], not part
    of this file) copies the file at [src] to [dest] verbatim, and fails
    when the source cannot be read or the destination cannot be written. *)
Definition fs_CopyFile (src dest : string) (fsys : FileSystem) : option error * FileSystem :=
  match fs_Stat src fsys with
  | inl e => (Some e, fsys)
  | inr _ =>
      match fs_ReadFile src fsys with
      | inl e => (Some e, fsys)
      | inr data => fs_WriteFile dest data fsys
      end
  end.

(** ** The data of the manifest *)

(** [manifest.OutputDefinition]: a declared bundle-level output. *)
Record OutputDefinition : Type := mkOutputDefinition {
  Name : string;
  Path : string;
  ApplyTo : list string;
  Sensitive : bool
}.

(** [manifest.Step], through the accessors the runtime calls; [Data] stands
    for the rest of the step, which only the mixin reads. *)
Record Step : Type := mkStep {
  GetMixinName : string;
  GetDescription : string;
  Data : string
}.

(** [RuntimeManifest], through what the runtime reads of it.  [Steps] is
    what [GetSteps()] returns for the current action, a [[]*manifest.Step]
    where [None] is a nil pointer; [outputs] is the step-output bookkeeping
    behind [GetOutputs()]; [sensitiveValues] is behind
    [GetSensitiveValues()]. *)
Record RuntimeManifest : Type := mkRuntimeManifest {
  Action : string;
  Outputs : gmap string OutputDefinition;
  Steps : list (option Step);
  outputs : gmap string string;
  sensitiveValues : list string
}.

(** Modelled from the spec: [GetSteps] of the manifest collaborator (its code
    is not in runtime.go) gives the ordered steps of the current action. *)
Definition GetSteps (m : RuntimeManifest) : list (option Step) := Steps m.

(** Modelled from the spec: [GetOutputs] gives the step outputs that
    [ApplyStepOutputs] has recorded so far. *)
Definition GetOutputs (m : RuntimeManifest) : gmap string string := outputs m.

(** Modelled from the spec: [GetSensitiveValues] gives the sensitive-value
    list of the manifest. *)
Definition GetSensitiveValues (m : RuntimeManifest) : list string := sensitiveValues m.

(** [ActionInput]: the envelope sent to a mixin. *)
Record ActionInput : Type := mkActionInput {
  action : string;
  ActionInput_Steps : list Step
}.

(** [pkgmgmt.CommandOptions]. *)
Record CommandOptions : Type := mkCommandOptions {
  Command : string;
  Input : string;
  Runtime : bool
}.

(** [bundle.Bundle] of cnab-go: the runtime only hands it to
    [ResolveImages]. *)
Inductive Bundle : Type := mkBundle (raw : string).

(** ** What runtime.go imports

    The constants and methods of the other packages ([config], [context],
    [manifest], [pkgmgmt], [yaml], the runtime manifest) and of the libraries
    that the runtime calls.  They are parameters of the development. *)
Record Imports : Type := mkImports {
  (* config and context constants *)
  EnvInstallationName : string;
  EnvBundleName : string;
  MixinOutputsDir : string;
  BundleOutputsDir : string;
  (* RuntimeManifest methods *)
  Validate : RuntimeManifest → option error;
  Prepare : RuntimeManifest → FileSystem → option error * RuntimeManifest * FileSystem;
  ResolveImages : Bundle → gmap string string → RuntimeManifest
                  → option error * RuntimeManifest;
  ResolveStep : Step → RuntimeManifest → FileSystem → option error * Step * RuntimeManifest;
  ApplyStepOutputs : gmap string string → RuntimeManifest → option error * RuntimeManifest;
  (* pkgmgmt.PackageManager: runs the mixin with r.Context; the mixin may
     write anywhere on the filesystem and print to r.Out and r.Err.  The
     result holds the error, the filesystem it left and the lines it printed
     to r.Out and to r.Err, latest first *)
  mixins_Run : string → CommandOptions → FileSystem
               → option error * FileSystem * list string * list string;
  (* yaml.Marshal gives bytes and an error *)
  yaml_Marshal : ActionInput → string * option error;
  (* loader.LoadData and json.Unmarshal into a relocation map *)
  LoadData : string → error + Bundle;
  json_Unmarshal : string → error + gmap string string;
  (* Go leaves the order of a range over a map open *)
  range_outputs : gmap string string → list (string * string);
  range_Outputs : gmap string OutputDefinition → list (string * OutputDefinition)
}.

(** ** The world of a run *)

(** Calls that leave the runtime, in the order of the source.  The trace of
    a world lists them, latest first. *)
Inductive Event : Type :=
| EvValidate
| EvPrepare
| EvResolveImages (rtb : Bundle) (reloMap : gmap string string)
| EvResolveStep (step : Step)
| EvSetSensitiveValues (values : list string)
| EvMixinRun (mixin : string) (cmd : CommandOptions)
| EvApplyStepOutputs (outs : gmap string string)
| EvStat (p : string)
| EvReadDir (dir : string)
| EvReadFile (p : string)
| EvWriteFile (p contents : string)
| EvRemove (p : string)
| EvMkdirAll (p : string)
| EvCopyFile (src dest : string).

Record World : Type := mkWorld {
  w_fs : FileSystem;             (* r.FileSystem *)
  w_rm : RuntimeManifest;        (* r.RuntimeManifest *)
  w_environ : string → string;   (* r.Getenv *)
  w_sensitive : list string;     (* the values masked by r.Context *)
  w_Out : list string;           (* r.Out, latest line first *)
  w_Err : list string;           (* r.Err, latest line first *)
  w_trace : list Event
}.

Definition set_fs (fsys : FileSystem) (w : World) : World :=
  mkWorld fsys (w_rm w) (w_environ w) (w_sensitive w) (w_Out w) (w_Err w) (w_trace w).
Definition set_rm (m : RuntimeManifest) (w : World) : World :=
  mkWorld (w_fs w) m (w_environ w) (w_sensitive w) (w_Out w) (w_Err w) (w_trace w).
Definition set_sensitive (vs : list string) (w : World) : World :=
  mkWorld (w_fs w) (w_rm w) (w_environ w) vs (w_Out w) (w_Err w) (w_trace w).
Definition print_Out (line : string) (w : World) : World :=
  mkWorld (w_fs w) (w_rm w) (w_environ w) (w_sensitive w) (line :: w_Out w) (w_Err w)
          (w_trace w).
Definition print_Err (line : string) (w : World) : World :=
  mkWorld (w_fs w) (w_rm w) (w_environ w) (w_sensitive w) (w_Out w) (line :: w_Err w)
          (w_trace w).
Definition record (ev : Event) (w : World) : World :=
  mkWorld (w_fs w) (w_rm w) (w_environ w) (w_sensitive w) (w_Out w) (w_Err w)
          (ev :: w_trace w).
(** What a mixin printed goes on top of the two streams. *)
Definition mixin_prints (out err : list string) (w : World) : World :=
  mkWorld (w_fs w) (w_rm w) (w_environ w) (w_sensitive w) (out ++ w_Out w)%list
          (err ++ w_Err w)%list (w_trace w).

(** ** The state monad of the runtime *)

Definition M (A : Type) : Type := World → A * World.

Definition ret {A} (a : A) : M A := λ w, (a, w).
Definition bind {A B} (m : M A) (k : A → M B) : M B :=
  λ w, let (a, w') := m w in k a w'.

Declare Scope runtime_scope.
Delimit Scope runtime_scope with runtime.
Notation "x <- c1 ;; c2" := (bind c1 (λ x, c2))
  (at level 100, c1 at next level, right associativity) : runtime_scope.
Notation "c1 ;;; c2" := (bind c1 (λ _, c2))
  (at level 100, right associativity) : runtime_scope.
Local Open Scope runtime_scope.

Definition get_rm : M RuntimeManifest := λ w, (w_rm w, w).
Definition Fprintln_Out (line : string) : M unit := λ w, (tt, print_Out line w).
Definition Fprintln_Err (line : string) : M unit := λ w, (tt, print_Err line w).
Definition Getenv (key : string) : M string := λ w, (w_environ w key, w).

(** A filesystem call: the event is recorded, then the operation runs. *)
Definition on_fs {A} (ev : Event) (op : FileSystem → A * FileSystem) : M A :=
  λ w, let (a, fsys) := op (w_fs w) in (a, set_fs fsys (record ev w)).

Definition FileSystem_Stat (p : string) : M (error + FileInfo) :=
  on_fs (EvStat p) (λ fsys, (fs_Stat p fsys, fsys)).
Definition FileSystem_ReadDir (dir : string) : M (error + list FileInfo) :=
  on_fs (EvReadDir dir) (λ fsys, (fs_ReadDir dir fsys, fsys)).
Definition FileSystem_ReadFile (p : string) : M (error + string) :=
  on_fs (EvReadFile p) (λ fsys, (fs_ReadFile p fsys, fsys)).
Definition FileSystem_WriteFile (p contents : string) : M (option error) :=
  on_fs (EvWriteFile p contents) (fs_WriteFile p contents).
Definition FileSystem_Remove (p : string) : M (option error) :=
  on_fs (EvRemove p) (fs_Remove p).
Definition FileSystem_MkdirAll (p : string) : M (option error) :=
  on_fs (EvMkdirAll p) (fs_MkdirAll p).
Definition CopyFile (src dest : string) : M (option error) :=
  on_fs (EvCopyFile src dest) (fs_CopyFile src dest).

(** [r.Context.SetSensitiveValues]. *)
Definition SetSensitiveValues (vs : list string) : M unit :=
  λ w, (tt, set_sensitive vs (record (EvSetSensitiveValues vs) w)).

(** ** runtime.go *)

(** [shouldApplyOutput]: the loop over [output.ApplyTo]. *)
Fixpoint shouldApplyOutput_range (act : string) (applyTos : list string) : bool :=
  match applyTos with
  | [] => false
  | applyTo :: rest =>
      if String.eqb act applyTo then true else shouldApplyOutput_range act rest
  end.

(** [func (r *PorterRuntime) shouldApplyOutput(output) bool]; [m] is
    [r.RuntimeManifest] at the call. *)
Definition shouldApplyOutput (m : RuntimeManifest) (output : OutputDefinition) : bool :=
  if Nat.eqb (List.length (ApplyTo output)) 0 then true
  else shouldApplyOutput_range (Action m) (ApplyTo output).

Section Runtime.

Variable I : Imports.

(** Calls to the collaborators, each recorded in the trace. *)
Definition RuntimeManifest_Validate : M (option error) :=
  λ w, (Validate I (w_rm w), record EvValidate w).

Definition RuntimeManifest_Prepare : M (option error) :=
  λ w, let '(err, m, fsys) := Prepare I (w_rm w) (w_fs w) in
       (err, set_fs fsys (set_rm m (record EvPrepare w))).

Definition RuntimeManifest_ResolveImages (rtb : Bundle) (reloMap : gmap string string)
  : M (option error) :=
  λ w, let '(err, m) := ResolveImages I rtb reloMap (w_rm w) in
       (err, set_rm m (record (EvResolveImages rtb reloMap) w)).

(** [ResolveStep] rewrites the step it is given in place; the rewritten step
    comes back with the error. *)
Definition RuntimeManifest_ResolveStep (step : Step) : M (option error * Step) :=
  λ w, let '(err, step', m) := ResolveStep I step (w_rm w) (w_fs w) in
       ((err, step'), set_rm m (record (EvResolveStep step) w)).

Definition RuntimeManifest_ApplyStepOutputs (outs : gmap string string) : M (option error) :=
  λ w, let '(err, m) := ApplyStepOutputs I outs (w_rm w) in
       (err, set_rm m (record (EvApplyStepOutputs outs) w)).

(** [r.mixins.Run(r.Context, mixin, cmd)]: the mixin works on the
    filesystem and the two streams of the context. *)
Definition PackageManager_Run (mixin : string) (cmd : CommandOptions) : M (option error) :=
  λ w, let '(err, fsys, out, errs) := mixins_Run I mixin cmd (w_fs w) in
       (err, mixin_prints out errs (set_fs fsys (record (EvMixinRun mixin cmd) w))).

(** [func (r *PorterRuntime) createOutputsDir() error] *)
Definition createOutputsDir : M (option error) :=
  err <- FileSystem_MkdirAll (BundleOutputsDir I) ;;
  match err with
  | Some e => ret (Some (errors_Wrap e "unable to ensure CNAB outputs directory exists"))
  | None => ret None
  end.

(** The loop of [applyStepOutputsToBundle] over the pairs of [outputs]. *)
Fixpoint applyStepOutputsToBundle_range (kvs : list (string * string)) : M (option error) :=
  match kvs with
  | [] => ret None
  | (outputKey, outputValue) :: rest =>
      m <- get_rm ;;
      match Outputs m !! outputKey with
      | None => applyStepOutputsToBundle_range rest
      | Some bundleOutput =>
          if shouldApplyOutput m bundleOutput then
            let outpath := filepath_Join (BundleOutputsDir I) (Name bundleOutput) in
            err <- FileSystem_WriteFile outpath outputValue ;;
            match err with
            | Some e =>
                ret (Some (errors_Wrapf e ("unable to write output file " +:+ outpath)))
            | None => applyStepOutputsToBundle_range rest
            end
          else applyStepOutputsToBundle_range rest
      end
  end.

(** [func (r *PorterRuntime) applyStepOutputsToBundle(outputs map[string]string) error] *)
Definition applyStepOutputsToBundle (outs : gmap string string) : M (option error) :=
  err <- createOutputsDir ;;
  match err with
  | Some e => ret (Some e)
  | None => applyStepOutputsToBundle_range (range_outputs I outs)
  end.

(** The loop of [applyUnboundBundleOutputs].  [bigErr] is the local
    [var bigErr *multierror.Error], [outs] the map from [GetOutputs()].
    A missing key of a Go map reads as the empty string.  When a copy fails
    the source assigns the result of [multierror.Append] to [err] and
    continues; [bigErr] is not assigned. *)
Fixpoint applyUnboundBundleOutputs_range (bigErr : option (list error))
    (outs : gmap string string) (defs : list (string * OutputDefinition))
  : M (option (list error)) :=
  match defs with
  | [] => ret bigErr
  | (_, outputDef) :: rest =>
      if decide (default "" (outs !! Name outputDef) ≠ "") then
        applyUnboundBundleOutputs_range bigErr outs rest
      else if decide (Path outputDef = "") then
        applyUnboundBundleOutputs_range bigErr outs rest
      else
        m <- get_rm ;;
        if shouldApplyOutput m outputDef then
          let outpath := filepath_Join (BundleOutputsDir I) (Name outputDef) in
          err <- CopyFile (Path outputDef) outpath ;;
          match err with
          | Some e =>
              let err := multierror_Append bigErr
                           (errors_Wrapf e ("unable to copy output file from " +:+
                                            Path outputDef +:+ " to " +:+ outpath)) in
              applyUnboundBundleOutputs_range bigErr outs rest
          | None => applyUnboundBundleOutputs_range bigErr outs rest
          end
        else applyUnboundBundleOutputs_range bigErr outs rest
  end.

(** [func (r *PorterRuntime) applyUnboundBundleOutputs() error] *)
Definition applyUnboundBundleOutputs : M (option error) :=
  err <- createOutputsDir ;;
  match err with
  | Some e => ret (Some e)
  | None =>
      m <- get_rm ;;
      (if Nat.ltb 0 (size (Outputs m))
       then Fprintln_Out "Collecting bundle outputs..." else ret tt) ;;;
      let bigErr : option (list error) := None in
      m <- get_rm ;;
      let outs := GetOutputs m in
      bigErr <- applyUnboundBundleOutputs_range bigErr outs (range_Outputs I (Outputs m)) ;;
      ret (multierror_ErrorOrNil bigErr)
  end.

(** The loop of [readMixinOutputs] over the entries of the directory.  The
    first component of the result is the returned map, [None] for Go's nil
    map. *)
Fixpoint readMixinOutputs_range (outfiles : list FileInfo) (outs : gmap string string)
  : M (option (gmap string string) * option error) :=
  match outfiles with
  | [] => ret (Some outs, None)
  | outfile :: rest =>
      if FileInfo_IsDir outfile then readMixinOutputs_range rest outs
      else
        let outpath := filepath_Join (MixinOutputsDir I) (FileInfo_Name outfile) in
        r <- FileSystem_ReadFile outpath ;;
        match r with
        | inl e =>
            ret (None, Some (errors_Wrapf e ("could not read output file " +:+ outpath)))
        | inr contents =>
            let outs := <[FileInfo_Name outfile := contents]> outs in
            err <- FileSystem_Remove outpath ;;
            match err with
            | Some e => ret (None, Some e)
            | None => readMixinOutputs_range rest outs
            end
        end
  end.

(** [func (r *PorterRuntime) readMixinOutputs() (map[string]string, error)] *)
Definition readMixinOutputs : M (option (gmap string string) * option error) :=
  let outs : gmap string string := ∅ in
  r <- FileSystem_ReadDir (MixinOutputsDir I) ;;
  match r with
  | inl e => ret (None, Some (errors_Wrapf e ("could not list " +:+ MixinOutputsDir I)))
  | inr outfiles => readMixinOutputs_range outfiles outs
  end.

(** [func (r *PorterRuntime) executeStep(step *manifest.Step) error].  A nil
    map ranges like an empty one, hence [default ∅]. *)
Definition executeStep (step : option Step) : M (option error) :=
  match step with
  | None => ret None
  | Some step =>
      r <- RuntimeManifest_ResolveStep step ;;
      let '(err, step) := r in
      match err with
      | Some e => ret (Some (errors_Wrap e "unable to resolve step"))
      | None =>
          let description := GetDescription step in
          (if Nat.ltb 0 (String.length description)
           then Fprintln_Out description else ret tt) ;;;
          m <- get_rm ;;
          SetSensitiveValues (GetSensitiveValues m) ;;;
          m <- get_rm ;;
          let input := mkActionInput (Action m) [step] in
          let inputBytes := (yaml_Marshal I input).1 in
          let cmd := mkCommandOptions (Action m) inputBytes true in
          err <- PackageManager_Run (GetMixinName step) cmd ;;
          match err with
          | Some e => ret (Some (errors_Wrap e "mixin execution failed"))
          | None =>
              r <- readMixinOutputs ;;
              let '(outs, err) := r in
              match err with
              | Some e => ret (Some (errors_Wrap e "could not read step outputs"))
              | None =>
                  let outs := default ∅ outs in
                  err <- RuntimeManifest_ApplyStepOutputs outs ;;
                  match err with
                  | Some e => ret (Some e)
                  | None => applyStepOutputsToBundle outs
                  end
              end
          end
      end
  end.

(** [func (r *PorterRuntime) getImageMappingFiles()]: the bundle and the
    relocation map, or the error. *)
Definition getImageMappingFiles : M (error + Bundle * gmap string string) :=
  r <- FileSystem_ReadFile "/cnab/bundle.json" ;;
  match r with
  | inl e => ret (inl (errors_Wrap e "couldn't read runtime bundle.json"))
  | inr bunBytes =>
      match LoadData I bunBytes with
      | inl e => ret (inl (errors_Wrap e "couldn't load runtime bundle.json"))
      | inr rtb =>
          let reloMap : gmap string string := ∅ in
          st <- FileSystem_Stat "/cnab/app/relocation-mapping.json" ;;
          match st with
          | inr _ =>
              r <- FileSystem_ReadFile "/cnab/app/relocation-mapping.json" ;;
              match r with
              | inl e => ret (inl (errors_Wrap e "couldn't read relocation file"))
              | inr reloBytes =>
                  match json_Unmarshal I reloBytes with
                  | inl e => ret (inl (errors_Wrap e "couldn't load relocation file"))
                  | inr reloMap => ret (inr (rtb, reloMap))
                  end
              end
          | inl _ => ret (inr (rtb, reloMap))
          end
      end
  end.

(** The step loop of [Execute]: [executionErr] is the result of the last
    step run, and the loop breaks at the first error. *)
Fixpoint Execute_range (steps : list (option Step)) : M (option error) :=
  match steps with
  | [] => ret None
  | step :: rest =>
      executionErr <- executeStep step ;;
      match executionErr with
      | Some _ => ret executionErr
      | None => Execute_range rest
      end
  end.

(** [func (r *PorterRuntime) Execute(rm *RuntimeManifest) error] *)
Definition Execute (rm : RuntimeManifest) : M (option error) :=
  (λ w, (tt, set_rm rm w)) ;;;
  installationName <- Getenv (EnvInstallationName I) ;;
  bundleName <- Getenv (EnvBundleName I) ;;
  m <- get_rm ;;
  Fprintln_Out ("executing " +:+ Action m +:+ " action from " +:+ bundleName +:+
                " (installation: " +:+ installationName +:+ ")") ;;;
  err <- RuntimeManifest_Validate ;;
  match err with
  | Some e => ret (Some e)
  | None =>
  err <- RuntimeManifest_Prepare ;;
  match err with
  | Some e => ret (Some e)
  | None =>
  r <- getImageMappingFiles ;;
  match r with
  | inl e => ret (Some e)
  | inr (rtb, reloMap) =>
  err <- RuntimeManifest_ResolveImages rtb reloMap ;;
  match err with
  | Some e => ret (Some (errors_Wrap e "unable to resolve bundle images"))
  | None =>
  err <- FileSystem_MkdirAll (MixinOutputsDir I) ;;
  match err with
  | Some e =>
      ret (Some (errors_Wrapf e ("could not create outputs directory " +:+
                                 MixinOutputsDir I)))
  | None =>
  m <- get_rm ;;
  executionErr <- Execute_range (GetSteps m) ;;
  err <- applyUnboundBundleOutputs ;;
  match err with
  | Some e => Fprintln_Err (error_Error e)
  | None => ret tt
  end ;;;
  match executionErr with
  | None => Fprintln_Out "execution completed successfully!"
  | Some _ => ret tt
  end ;;;
  ret executionErr
  end end end end end.

End Runtime.

(** ** The vocabulary of the properties *)

(** The scope rule in words: no [applyTo] list, or one that names the
    current action. *)
Definition in_scope (m : RuntimeManifest) (output : OutputDefinition) : Prop :=
  ApplyTo output = [] ∨ Action m ∈ ApplyTo output.

(** The pairs of a range without those of one name. *)
Definition without (name : string) (kvs : list (string * string))
  : list (string * string) :=
  filter (λ kv, kv.1 ≠ name) kvs.

(** What the resolver looks for in a declared output: no value in the step
    bookkeeping (a missing key reads as the empty string), a path, and the
    current action in scope. *)
Definition unbound (outs : gmap string string) (output : OutputDefinition) : Prop :=
  default "" (outs !! Name output) = "".

Definition resolvable (m : RuntimeManifest) (output : OutputDefinition) : Prop :=
  unbound (GetOutputs m) output ∧ Path output ≠ "" ∧ in_scope m output.

(** A path that [WriteFile] can write: no fault on it and no directory in
    its place. *)
Definition writable (p : string) (fsys : FileSystem) : Prop :=
  denied fsys OpWriteFile p = false ∧ nodes fsys !! p ≠ Some Directory.

(** The declared outputs of a manifest all have plain names. *)
Definition plain_outputs (m : RuntimeManifest) : Prop :=
  ∀ k d, Outputs m !! k = Some d → plain (Name d).

(** An operation on a file of the mixin outputs directory fails. *)
Definition read_fails (p : string) (fsys : FileSystem) : Prop :=
  ∃ e, fs_ReadFile p fsys = inl e.
Definition remove_fails (p : string) (fsys : FileSystem) : Prop :=
  ∃ e, (fs_Remove p fsys).1 = Some e.

(** The events of [readMixinOutputs]. *)
Definition is_read_event (ev : Event) : Prop :=
  match ev with
  | EvReadDir _ | EvReadFile _ | EvRemove _ => True
  | _ => False
  end.

(** The calls of the resolver, and the calls that only a step makes:
    resolution, masking, mixin invocation, output read, output bookkeeping. *)
Definition is_resolver_event (ev : Event) : Prop :=
  match ev with
  | EvMkdirAll _ | EvCopyFile _ _ => True
  | _ => False
  end.

Definition is_step_event (ev : Event) : Prop :=
  match ev with
  | EvResolveStep _ | EvSetSensitiveValues _ | EvMixinRun _ _ | EvApplyStepOutputs _
  | EvReadDir _ | EvReadFile _ | EvRemove _ => True
  | _ => False
  end.

(** What [Execute] does with the result of the resolver: a non-nil error is
    printed to [r.Err]. *)
Definition log_resolver (res : option error * World) : World :=
  match res.1 with
  | Some e => print_Err (error_Error e) res.2
  | None => res.2
  end.

(** ** The phases of [executeStep] and [Execute]

    The same code cut at the points the properties speak about.  The lemmas
    [executeStep_phases] and [Execute_phases] show that the cuts compose to
    the methods above. *)
Section Phases.

Variable I : Imports.

(** [executeStep] up to the return of the mixin. *)
Definition executeStep_invoke (step : Step) : M (option error) :=
  r <- RuntimeManifest_ResolveStep I step ;;
  let '(err, step) := r in
  match err with
  | Some e => ret (Some (errors_Wrap e "unable to resolve step"))
  | None =>
      let description := GetDescription step in
      (if Nat.ltb 0 (String.length description)
       then Fprintln_Out description else ret tt) ;;;
      m <- get_rm ;;
      SetSensitiveValues (GetSensitiveValues m) ;;;
      m <- get_rm ;;
      let input := mkActionInput (Action m) [step] in
      let inputBytes := (yaml_Marshal I input).1 in
      let cmd := mkCommandOptions (Action m) inputBytes true in
      err <- PackageManager_Run I (GetMixinName step) cmd ;;
      match err with
      | Some e => ret (Some (errors_Wrap e "mixin execution failed"))
      | None => ret None
      end
  end.

(** [executeStep] from the read of the mixin outputs on. *)
Definition executeStep_collect : M (option error) :=
  r <- readMixinOutputs I ;;
  let '(outs, err) := r in
  match err with
  | Some e => ret (Some (errors_Wrap e "could not read step outputs"))
  | None =>
      let outs := default ∅ outs in
      err <- RuntimeManifest_ApplyStepOutputs I outs ;;
      match err with
      | Some e => ret (Some e)
      | None => applyStepOutputsToBundle I outs
      end
  end.

(** [Execute] up to [Prepare]. *)
Definition Execute_prepare (rm : RuntimeManifest) : M (option error) :=
  (λ w, (tt, set_rm rm w)) ;;;
  installationName <- Getenv (EnvInstallationName I) ;;
  bundleName <- Getenv (EnvBundleName I) ;;
  m <- get_rm ;;
  Fprintln_Out ("executing " +:+ Action m +:+ " action from " +:+ bundleName +:+
                " (installation: " +:+ installationName +:+ ")") ;;;
  err <- RuntimeManifest_Validate I ;;
  match err with
  | Some e => ret (Some e)
  | None => RuntimeManifest_Prepare I
  end.

(** [Execute] from the image mapping files to the creation of the mixin
    outputs directory. *)
Definition Execute_images : M (option error) :=
  r <- getImageMappingFiles I ;;
  match r with
  | inl e => ret (Some e)
  | inr (rtb, reloMap) =>
      err <- RuntimeManifest_ResolveImages I rtb reloMap ;;
      match err with
      | Some e => ret (Some (errors_Wrap e "unable to resolve bundle images"))
      | None =>
          err <- FileSystem_MkdirAll (MixinOutputsDir I) ;;
          match err with
          | Some e =>
              ret (Some (errors_Wrapf e ("could not create outputs directory " +:+
                                         MixinOutputsDir I)))
          | None => ret None
          end
      end
  end.

(** Everything before the step loop. *)
Definition Execute_setup (rm : RuntimeManifest) : M (option error) :=
  err <- Execute_prepare rm ;;
  match err with
  | Some e => ret (Some e)
  | None => Execute_images
  end.

(** Everything after the step loop. *)
Definition Execute_finish (executionErr : option error) : M (option error) :=
  err <- applyUnboundBundleOutputs I ;;
  match err with
  | Some e => Fprintln_Err (error_Error e)
  | None => ret tt
  end ;;;
  match executionErr with
  | None => Fprintln_Out "execution completed successfully!"
  | Some _ => ret tt
  end ;;;
  ret executionErr.

(** The regular files of the mixin outputs directory. *)
Definition channel_files (fsys : FileSystem) : list FileInfo :=
  filter (λ fi, FileInfo_IsDir fi = false) (fs_entries (MixinOutputsDir I) fsys).

(** The imports with another [yaml.Marshal]. *)
Definition with_yaml_Marshal (f : ActionInput → string * option error) : Imports :=
  mkImports (EnvInstallationName I) (EnvBundleName I) (MixinOutputsDir I)
            (BundleOutputsDir I) (Validate I) (Prepare I) (ResolveImages I)
            (ResolveStep I) (ApplyStepOutputs I) (mixins_Run I) f (LoadData I)
            (json_Unmarshal I) (range_outputs I) (range_Outputs I).

(** The first error of the steps run in order from a world: [None] when
    every step returns nil. *)
Inductive first_error : list (option Step) → World → option error → Prop :=
| first_error_nil w : first_error [] w None
| first_error_here step rest w e w' :
    executeStep I step w = (Some e, w') →
    first_error (step :: rest) w (Some e)
| first_error_later step rest w w' r :
    executeStep I step w = (None, w') →
    first_error rest w' r →
    first_error (step :: rest) w r.

End Phases.

(** ** More vocabulary *)

(** The calls of the set-up of [Execute]. *)
Definition is_setup_event (ev : Event) : Prop :=
  match ev with
  | EvValidate | EvPrepare | EvReadFile _ | EvStat _ | EvResolveImages _ _
  | EvMkdirAll _ => True
  | _ => False
  end.

(** The first line that [Execute] prints. *)
Definition banner (I : Imports) (rm : RuntimeManifest) (w : World) : string :=
  "executing " +:+ Action rm +:+ " action from " +:+ w_environ w (EnvBundleName I) +:+
  " (installation: " +:+ w_environ w (EnvInstallationName I) +:+ ")".

(** The [pkgmgmt.CommandOptions] that [executeStep] builds for a resolved
    step. *)
Definition mixin_command (I : Imports) (m : RuntimeManifest) (step : Step)
  : CommandOptions :=
  mkCommandOptions (Action m) (yaml_Marshal I (mkActionInput (Action m) [step])).1 true.

(** No mixin writes to [r.Err]. *)
Definition quiet_mixins (I : Imports) : Prop :=
  ∀ mixin cmd fsys, (mixins_Run I mixin cmd fsys).2 = [].

(** The lines that the mixin of [step] prints to [r.Out] and to [r.Err]
    when the step is run from [w]: none when the step is not resolved, since
    its mixin is then not run. *)
Definition mixin_Out (I : Imports) (step : Step) (w : World) : list string :=
  match ResolveStep I step (w_rm w) (w_fs w) with
  | (None, step', m) =>
      (mixins_Run I (GetMixinName step') (mixin_command I m step') (w_fs w)).1.2
  | _ => []
  end.

Definition mixin_Err (I : Imports) (step : Step) (w : World) : list string :=
  match ResolveStep I step (w_rm w) (w_fs w) with
  | (None, step', m) =>
      (mixins_Run I (GetMixinName step') (mixin_command I m step') (w_fs w)).2
  | _ => []
  end.

(** The steps resolved in a stretch of the trace, earliest first. *)
Definition resolved_steps (evs : list Event) : list Step :=
  rev (omap (λ ev, match ev with EvResolveStep step => Some step | _ => None end) evs).

(** ** A concrete bundle

    The collaborators of a small bundle, used to run the definitions above:
    the mixin [exec] writes its input to the output [dbHost], [touch] writes
    an empty output [kubeconfig], [fail] fails and any other mixin does
    nothing, and none of them prints; the manifest merges the step outputs
    into its bookkeeping. *)
Module Demo.

Definition channel : string := "/cnab/app/porter/outputs".
Definition store : string := "/cnab/app/outputs".

Definition run (mixin : string) (cmd : CommandOptions) (fsys : FileSystem)
  : option error * FileSystem * list string * list string :=
  if String.eqb mixin "exec" then
    (fs_WriteFile (filepath_Join channel "dbHost") (Input cmd) fsys, [], [])
  else if String.eqb mixin "touch" then
    (fs_WriteFile (filepath_Join channel "kubeconfig") "" fsys, [], [])
  else if String.eqb mixin "fail" then
    (Some (errorString "exit status 1"), fsys, [], [])
  else (None, fsys, [], []).

Definition merge (outs : gmap string string) (m : RuntimeManifest)
  : option error * RuntimeManifest :=
  (None, mkRuntimeManifest (Action m) (Outputs m) (Steps m) (outs ∪ outputs m)
                           (sensitiveValues m)).

Definition marshal (input : ActionInput) : string * option error :=
  match ActionInput_Steps input with
  | [step] =>
      if String.eqb (Data step) "?"
      then ("", Some (errorString "yaml: unsupported value"))
      else (Data step, None)
  | _ => ("", Some (errorString "yaml: cannot marshal"))
  end.

Definition imports : Imports :=
  {| EnvInstallationName := "PORTER_INSTALLATION";
     EnvBundleName := "PORTER_BUNDLE";
     MixinOutputsDir := channel;
     BundleOutputsDir := store;
     Validate := λ _, None;
     Prepare := λ m fsys, (None, m, fsys);
     ResolveImages := λ _ _ m, (None, m);
     ResolveStep := λ step m _, (None, step, m);
     ApplyStepOutputs := merge;
     mixins_Run := run;
     yaml_Marshal := marshal;
     LoadData := λ bytes, inr (mkBundle bytes);
     json_Unmarshal := λ _, inr ∅;
     range_outputs := map_to_list;
     range_Outputs := map_to_list |}.

Definition no_faults : FsOp → string → bool := λ _ _, false.

Definition disk (files : list (string * Node)) : FileSystem :=
  mkFileSystem (list_to_map files) no_faults.

Definition world (fsys : FileSystem) : World :=
  mkWorld fsys (mkRuntimeManifest "" ∅ [] ∅ []) (λ _, "") [] [] [] [].

Definition manifest (act : string) (defs : list OutputDefinition)
    (steps : list (option Step)) : RuntimeManifest :=
  mkRuntimeManifest act (list_to_map (map (λ d, (Name d, d)) defs)) steps ∅ [].

(** The scenario of the specification: [dbHost] is produced by a step,
    [dbPassword] is declared for install only and has no path. *)
Definition dbHost : OutputDefinition := mkOutputDefinition "dbHost" "" [] false.
Definition dbPassword : OutputDefinition :=
  mkOutputDefinition "dbPassword" "" ["install"] true.

Definition bundle_json : string * Node := ("/cnab/bundle.json", File "{}").

Definition install_step : Step := mkStep "exec" "Install db" "10.0.0.5".

Definition install_db : RuntimeManifest :=
  manifest "install" [dbHost; dbPassword] [Some install_step].

Definition upgrade_db : RuntimeManifest :=
  manifest "upgrade" [dbHost; dbPassword] [Some install_step].

(** A world in which [Execute] has stored the manifest [m]. *)
Definition world_of (m : RuntimeManifest) (files : list (string * Node)) : World :=
  set_rm m (world (disk files)).

(** Both declared outputs produced by a step. *)
Definition produced : gmap string string :=
  {[ "dbHost" := "10.0.0.5"; "dbPassword" := "s3cret" ]}.

(** A step output that the bundle does not declare. *)
Definition produced_internal : gmap string string :=
  {[ "dbHost" := "10.0.0.5"; "podName" := "db-0" ]}.

(** Outputs bound to files: [kubeconfig] is on the disk, [tfstate] and
    [logs] are not. *)
Definition kubeconfig : OutputDefinition :=
  mkOutputDefinition "kubeconfig" "/root/.kube/config" [] false.
Definition tfstate : OutputDefinition :=
  mkOutputDefinition "tfstate" "/cnab/app/tfstate" [] false.
Definition logs : OutputDefinition :=
  mkOutputDefinition "logs" "/cnab/app/logs" [] false.

Definition kube_file : string * Node := ("/root/.kube/config", File "apiVersion: v1").

(** Two declared outputs whose files are missing, and no step. *)
Definition missing_files : World :=
  world_of (manifest "install" [tfstate; logs] []) [bundle_json].

(** A step writes the empty value for [kubeconfig], which also has a
    path. *)
Definition touch_kubeconfig : RuntimeManifest :=
  manifest "install" [kubeconfig] [Some (mkStep "touch" "Write kubeconfig" "")].

Definition after_touch : World :=
  (Execute_range imports (GetSteps touch_kubeconfig)
                 (world_of touch_kubeconfig [kube_file; (channel, Directory)])).2.

(** [kubeconfig] was not produced and [dbHost] was. *)
Definition bound_dbHost : World :=
  world_of (mkRuntimeManifest "install"
              (list_to_map [("kubeconfig", kubeconfig); ("dbHost", dbHost)]) []
              {[ "dbHost" := "10.0.0.5" ]} [])
           [kube_file; ("/cnab/app/outputs/dbHost", File "10.0.0.5")].

(** A disk on which the output file of [exec] cannot be read. *)
Definition unreadable (op : FsOp) (p : string) : bool :=
  match op with
  | OpReadFile => String.eqb p "/cnab/app/porter/outputs/dbHost"
  | _ => false
  end.

Definition on_bad_disk : World :=
  set_rm install_db
    (world (mkFileSystem (list_to_map [bundle_json; (channel, Directory)]) unreadable)).

(** A step that [yaml.Marshal] rejects. *)
Definition odd_step : Step := mkStep "exec" "Odd step" "?".

(** Three steps, the second of which fails. *)
Definition broken_step : Step := mkStep "fail" "Break" "".

Definition second_fails : RuntimeManifest :=
  manifest "install" [dbHost] [Some install_step; Some broken_step; Some install_step].

Definition start : World := world (disk [bundle_json]).

Definition ready : World := (Execute_setup imports second_fails start).2.
Definition before_failure : World := (Execute_range imports [Some install_step] ready).2.
Definition at_failure : World := (executeStep imports (Some broken_step) before_failure).2.
Definition failure : error :=
  errors_Wrap (errorString "exit status 1") "mixin execution failed".

(** The error of the read on the bad disk. *)
Definition read_error : error :=
  errors_Wrapf (errorString "open /cnab/app/porter/outputs/dbHost: permission denied")
               "could not read output file /cnab/app/porter/outputs/dbHost".

End Demo.

(** ** More inputs *)

Module Cases.

(** A disk without [bundle.json]. *)
Definition no_bundle : World := Demo.world (Demo.disk []).

(** The install bundle before its step, with the mixin outputs directory
    made, and the world in which the mixin of the step has returned. *)
Definition fresh : World := Demo.world_of Demo.install_db [(Demo.channel, Directory)].
Definition mixin_done : World :=
  (executeStep_invoke Demo.imports Demo.install_step fresh).2.

(** Three outputs in the mixin outputs directory, the second of which
    cannot be read. *)
Definition apiKey : FileInfo := mkFileInfo "apiKey" false.
Definition dbHost : FileInfo := mkFileInfo "dbHost" false.
Definition port : FileInfo := mkFileInfo "port" false.

Definition half_read : World :=
  Demo.world
    (mkFileSystem
       (list_to_map [(Demo.channel, Directory);
                     (filepath_Join Demo.channel "apiKey", File "k-123");
                     (filepath_Join Demo.channel "dbHost", File "10.0.0.5");
                     (filepath_Join Demo.channel "port", File "5432")])
       Demo.unreadable).

(** The bundle outputs directory is taken by a regular file, so that it
    cannot be made; a bundle whose only step fails in its mixin, and one
    without a step. *)
Definition store_taken : World :=
  Demo.world (Demo.disk [Demo.bundle_json; (Demo.store, File "")]).

Definition only_broken : RuntimeManifest :=
  Demo.manifest "install" [Demo.dbHost] [Some Demo.broken_step].

Definition no_steps : RuntimeManifest := Demo.manifest "install" [Demo.dbHost] [].

Definition store_error : error :=
  errors_Wrap (errorString "mkdir /cnab/app/outputs: not a directory")
              "unable to ensure CNAB outputs directory exists".

Definition bundle_error : error :=
  errors_Wrap (errorString "open /cnab/bundle.json: no such file or directory")
              "couldn't read runtime bundle.json".

(** A relocation file that is there.  On [locked] every operation on it is
    refused, on [unreadable_relocation] only the read. *)
Definition relocation : string := "/cnab/app/relocation-mapping.json".

Definition locked (op : FsOp) (p : string) : bool := String.eqb p relocation.

Definition unreadable_relocation (op : FsOp) (p : string) : bool :=
  match op with
  | OpReadFile => String.eqb p relocation
  | _ => false
  end.

Definition with_relocation (contents : string) (faults : FsOp → string → bool) : World :=
  Demo.world
    (mkFileSystem (list_to_map [Demo.bundle_json; (relocation, File contents)]) faults).

(** The collaborators of [Demo] with a parser that rejects what is not an
    object. *)
Definition parse (bytes : string) : error + gmap string string :=
  if String.eqb bytes "{}" then inr ∅
  else inl (errorString "invalid character in relocation mapping").

Definition strict : Imports :=
  mkImports (EnvInstallationName Demo.imports) (EnvBundleName Demo.imports)
            (MixinOutputsDir Demo.imports) (BundleOutputsDir Demo.imports)
            (Validate Demo.imports) (Prepare Demo.imports) (ResolveImages Demo.imports)
            (ResolveStep Demo.imports) (ApplyStepOutputs Demo.imports)
            (mixins_Run Demo.imports) (yaml_Marshal Demo.imports) (LoadData Demo.imports)
            parse (range_outputs Demo.imports) (range_Outputs Demo.imports).

(** A certificate that no step produced and a [kubeconfig] that a step
    produced; both are declared with a path. *)
Definition cert : OutputDefinition :=
  mkOutputDefinition "cert" "/root/cert.pem" [] false.

Definition bound_kubeconfig : World :=
  Demo.world_of
    (mkRuntimeManifest "install"
       (list_to_map [("cert", cert); ("kubeconfig", Demo.kubeconfig)]) []
       {[ "kubeconfig" := "from the step" ]} [])
    [Demo.kube_file; ("/root/cert.pem", File "-----BEGIN CERTIFICATE-----");
     ("/cnab/app/outputs/kubeconfig", File "from the step")].

(** The collaborators of [Demo] with a mixin [helm] that prints a line to
    each stream, and a step of that mixin. *)
Definition noisy_run (mixin : string) (cmd : CommandOptions) (fsys : FileSystem)
  : option error * FileSystem * list string * list string :=
  if String.eqb mixin "helm" then
    (None, fsys, ["release deployed"], ["warning: chart is deprecated"])
  else Demo.run mixin cmd fsys.

Definition noisy : Imports :=
  mkImports (EnvInstallationName Demo.imports) (EnvBundleName Demo.imports)
            (MixinOutputsDir Demo.imports) (BundleOutputsDir Demo.imports)
            (Validate Demo.imports) (Prepare Demo.imports) (ResolveImages Demo.imports)
            (ResolveStep Demo.imports) (ApplyStepOutputs Demo.imports)
            noisy_run (yaml_Marshal Demo.imports) (LoadData Demo.imports)
            (json_Unmarshal Demo.imports) (range_outputs Demo.imports)
            (range_Outputs Demo.imports).

Definition helm_step : Step := mkStep "helm" "Deploy chart" "chart: db".

Definition deploy : RuntimeManifest :=
  Demo.manifest "install" [Demo.dbHost] [Some helm_step].

Definition before_deploy : World := Demo.world_of deploy [(Demo.channel, Directory)].

End Cases.

(** * Properties *)

(** ** Paths *)

Lemma strip_prefix_app pre s : strip_prefix pre (pre +:+ s) = Some s.
Proof.
  induction pre as [|a pre IH]; simpl; [done|].
  by rewrite Ascii.eqb_refl.
Qed.

Lemma strip_prefix_Some pre p s : strip_prefix pre p = Some s → p = pre +:+ s.
Proof.
  revert p. induction pre as [|a pre IH]; intros p; simpl.
  - by intros [= ->].
  - destruct p as [|b p]; [done|].
    destruct (Ascii.eqb_spec a b) as [->|]; [|done].
    intros H. by rewrite (IH _ H).
Qed.

Lemma base_in_Some dir p name :
  base_in dir p = Some name → p = filepath_Join dir name.
Proof.
  unfold base_in, filepath_Join.
  destruct (strip_prefix dir p) as [s|] eqn:Hs; [|done].
  destruct s as [|c s]; [done|].
  destruct (Ascii.eqb_spec c "/") as [->|Hc].
  - destruct (has_separator s || String.eqb s ""); [done|].
    intros [= ->]. by apply strip_prefix_Some.
  - intros H. exfalso.
    destruct c as [[] [] [] [] [] [] [] []]; try discriminate H.
    by apply Hc.
Qed.

Lemma filepath_Join_inj dir a b : filepath_Join dir a = filepath_Join dir b → a = b.
Proof.
  unfold filepath_Join. intros H.
  apply (inj (String.append dir)) in H. by injection H.
Qed.

Lemma append_length s t : String.length (s +:+ t) = (String.length s + String.length t)%nat.
Proof. induction s as [|a s IH]; simpl; [done|]. by rewrite IH. Qed.

Lemma filepath_Join_ne_dir dir name : filepath_Join dir name ≠ dir.
Proof.
  unfold filepath_Join. intros H.
  apply (f_equal String.length) in H. rewrite append_length in H. simpl in H. lia.
Qed.

(** On a clean directory and a plain name Go's [Clean] leaves the joined
    path as it is: there [filepath_Join] is [filepath.Join]. *)
Lemma string_app_assoc (a b c : string) : (a +:+ b) +:+ c = a +:+ (b +:+ c).
Proof.
  induction a as [|x a IH]; [done|].
  change (String x ((a +:+ b) +:+ c) = String x (a +:+ (b +:+ c))). by f_equal.
Qed.

Lemma elements_not_nil p : elements p ≠ [].
Proof.
  destruct p as [|c p]; simpl; [done|].
  destruct (Ascii.eqb c "/"); [done|]. by destruct (elements p).
Qed.

Lemma elements_app a b : elements (a +:+ "/" +:+ b) = (elements a ++ elements b)%list.
Proof.
  induction a as [|c a IH]; [done|].
  change (elements (String c (a +:+ "/" +:+ b))
          = (elements (String c a) ++ elements b)%list).
  simpl. destruct (Ascii.eqb c "/"); rewrite IH; [done|].
  pose proof (elements_not_nil a). by destruct (elements a).
Qed.

Lemma elements_plain name : has_separator name = false → elements name = [name].
Proof.
  induction name as [|c name IH]; simpl; [done|].
  destruct (Ascii.eqb c "/"); [done|]. simpl. intros H. by rewrite (IH H).
Qed.

Lemma join_elements_snoc es e :
  es ≠ [] → join_elements (es ++ [e]) = join_elements es +:+ "/" +:+ e.
Proof.
  induction es as [|e0 es IH]; [done|]. intros _.
  destruct es as [|e1 es]; [done|].
  change (join_elements ((e0 :: e1 :: es) ++ [e]))
    with (e0 +:+ "/" +:+ join_elements ((e1 :: es) ++ [e])).
  rewrite IH by done.
  change (join_elements (e0 :: e1 :: es)) with (e0 +:+ "/" +:+ join_elements (e1 :: es)).
  by rewrite !string_app_assoc.
Qed.

Lemma plain_spec name :
  plain name ↔ has_separator name = false ∧ name ≠ "" ∧ name ≠ "." ∧ name ≠ "..".
Proof.
  unfold plain, is_plain. rewrite !andb_true_iff, !negb_true_iff.
  rewrite !String.eqb_neq. tauto.
Qed.

Lemma Clean_step_plain rooted out name : plain name → Clean_step rooted out name = name :: out.
Proof.
  intros (_ & H1 & H2 & H3)%plain_spec. unfold Clean_step.
  apply String.eqb_neq in H1, H2, H3. by rewrite H1, H2, H3.
Qed.

Lemma filepath_Join_Clean dir name :
  clean_dir dir → plain name →
  filepath_Clean (filepath_Join dir name) = filepath_Join dir name.
Proof.
  intros (Hclean & Hroot & Hdot) Hplain.
  pose proof (proj1 (plain_spec name) Hplain) as (Hsep & _).
  assert (Hrooted : is_rooted (filepath_Join dir name) = is_rooted dir).
  { destruct dir as [|c dir]; [|done]. by vm_compute in Hclean. }
  unfold filepath_Clean in *. rewrite Hrooted.
  set (out := rev (fold_left (Clean_step (is_rooted dir)) (elements dir) [])) in *.
  assert (Hout : rev (fold_left (Clean_step (is_rooted dir))
                        (elements (filepath_Join dir name)) [])
                 = (out ++ [name])%list).
  { unfold filepath_Join.
    rewrite elements_app, (elements_plain _ Hsep), fold_left_app. simpl.
    by rewrite (Clean_step_plain _ _ _ Hplain). }
  rewrite Hout. unfold filepath_Join. destruct (is_rooted dir).
  - destruct out as [|e es]; [by rewrite <- Hclean in Hroot|].
    rewrite join_elements_snoc by done. rewrite <- Hclean.
    by rewrite !string_app_assoc.
  - destruct out as [|e es]; [by rewrite <- Hclean in Hdot|].
    rewrite <- Hclean, <- join_elements_snoc by done. by destruct es.
Qed.

(** ** Scope of an output *)

Lemma shouldApplyOutput_range_true act applyTos :
  shouldApplyOutput_range act applyTos = true ↔ act ∈ applyTos.
Proof.
  induction applyTos as [|a l IH]; simpl.
  - split; [done|]. by intros ?%elem_of_nil.
  - destruct (String.eqb_spec act a) as [->|Hne].
    + split; [intros _; left|done].
    + rewrite IH. split; [by right|].
      intros [?|?]%elem_of_cons; [done|done].
Qed.

Lemma shouldApplyOutput_true m output :
  shouldApplyOutput m output = true ↔ in_scope m output.
Proof.
  unfold shouldApplyOutput, in_scope.
  destruct (ApplyTo output) as [|a l] eqn:E.
  - simpl. split; [by left|done].
  - change (Nat.eqb (length (a :: l)) 0) with false. cbv iota.
    rewrite shouldApplyOutput_range_true. split; [by right|].
    by intros [?|?].
Qed.

Lemma shouldApplyOutput_false m output :
  shouldApplyOutput m output = false ↔ ¬ in_scope m output.
Proof.
  rewrite <- shouldApplyOutput_true. by destruct (shouldApplyOutput m output).
Qed.

(** ** The filesystem operations *)

Lemma fs_WriteFile_None p c f f' :
  fs_WriteFile p c f = (None, f') →
  f' = mkFileSystem (<[p := File c]> (nodes f)) (denied f).
Proof.
  unfold fs_WriteFile. destruct (denied f OpWriteFile p); [done|].
  destruct (nodes f !! p) as [[]|]; by intros [= <-].
Qed.

Lemma fs_WriteFile_Some p c f e f' : fs_WriteFile p c f = (Some e, f') → f' = f.
Proof.
  unfold fs_WriteFile. destruct (denied f OpWriteFile p); [by intros [= _ <-]|].
  destruct (nodes f !! p) as [[]|]; by intros [= <-].
Qed.

Lemma fs_Remove_None p f f' :
  fs_Remove p f = (None, f') →
  is_Some (nodes f !! p) ∧ f' = mkFileSystem (delete p (nodes f)) (denied f).
Proof.
  unfold fs_Remove. destruct (denied f OpRemove p); [done|].
  destruct (nodes f !! p) eqn:E; [|done]. intros [= <-]. eauto.
Qed.

Lemma fs_Remove_Some p f e f' : fs_Remove p f = (Some e, f') → f' = f.
Proof.
  unfold fs_Remove. destruct (denied f OpRemove p); [by intros [= _ <-]|].
  destruct (nodes f !! p); by intros [= <-].
Qed.

Lemma fs_MkdirAll_None p f f' :
  fs_MkdirAll p f = (None, f') →
  f' = mkFileSystem (<[p := Directory]> (nodes f)) (denied f).
Proof.
  unfold fs_MkdirAll. destruct (denied f OpMkdirAll p); [done|].
  destruct (nodes f !! p) as [[]|]; by intros [= <-].
Qed.

Lemma fs_MkdirAll_Some p f e f' : fs_MkdirAll p f = (Some e, f') → f' = f.
Proof.
  unfold fs_MkdirAll. destruct (denied f OpMkdirAll p); [by intros [= _ <-]|].
  destruct (nodes f !! p) as [[]|]; by intros [= <-].
Qed.

Lemma fs_ReadFile_inr p f contents :
  fs_ReadFile p f = inr contents → nodes f !! p = Some (File contents).
Proof.
  unfold fs_ReadFile. destruct (denied f OpReadFile p); [done|].
  destruct (nodes f !! p) as [[]|]; [|done..]. by intros [= ->].
Qed.

Lemma fs_CopyFile_None src dest f f' :
  fs_CopyFile src dest f = (None, f') →
  ∃ data, fs_ReadFile src f = inr data ∧
          f' = mkFileSystem (<[dest := File data]> (nodes f)) (denied f).
Proof.
  unfold fs_CopyFile. destruct (fs_Stat src f); [done|].
  destruct (fs_ReadFile src f) as [|data]; [done|].
  intros H%fs_WriteFile_None. eauto.
Qed.

Lemma fs_CopyFile_Some src dest f e f' : fs_CopyFile src dest f = (Some e, f') → f' = f.
Proof.
  unfold fs_CopyFile. destruct (fs_Stat src f); [by intros [= _ <-]|].
  destruct (fs_ReadFile src f) as [|data]; [by intros [= _ <-]|].
  apply fs_WriteFile_Some.
Qed.

(** A copy from a path that does not exist fails. *)
Lemma fs_CopyFile_missing src dest f :
  nodes f !! src = None → ∃ e, fs_CopyFile src dest f = (Some e, f).
Proof.
  intros H. unfold fs_CopyFile, fs_Stat. rewrite H.
  destruct (denied f OpStat src); eauto.
Qed.

(** ** The output binder *)

Section Binder.

Variable I : Imports.

Lemma applyStepOutputsToBundle_range_cons outputKey outputValue rest w :
  applyStepOutputsToBundle_range I ((outputKey, outputValue) :: rest) w =
  match Outputs (w_rm w) !! outputKey with
  | None => applyStepOutputsToBundle_range I rest w
  | Some bundleOutput =>
      if shouldApplyOutput (w_rm w) bundleOutput then
        let outpath := filepath_Join (BundleOutputsDir I) (Name bundleOutput) in
        let w1 := record (EvWriteFile outpath outputValue) w in
        match fs_WriteFile outpath outputValue (w_fs w) with
        | (Some e, fsys) =>
            (Some (errors_Wrapf e ("unable to write output file " +:+ outpath)),
             set_fs fsys w1)
        | (None, fsys) => applyStepOutputsToBundle_range I rest (set_fs fsys w1)
        end
      else applyStepOutputsToBundle_range I rest w
  end.
Proof.
  simpl. unfold bind, get_rm.
  destruct (Outputs (w_rm w) !! outputKey) as [d|]; [|done].
  destruct (shouldApplyOutput (w_rm w) d); [|done].
  unfold FileSystem_WriteFile, on_fs. cbv zeta.
  by destruct (fs_WriteFile _ _ _) as [[e|] fsys].
Qed.

(** What one run of the loop does: the manifest and the logs are left
    alone, every event is the write of an in-scope declared pair, a run
    without error has written every such pair, and a path without a write
    event keeps its node. *)
Lemma applyStepOutputsToBundle_range_inv kvs w r w' :
  applyStepOutputsToBundle_range I kvs w = (r, w') →
  w_rm w' = w_rm w ∧ w_Out w' = w_Out w ∧ w_Err w' = w_Err w ∧
  ∃ evs, w_trace w' = (evs ++ w_trace w)%list ∧
    (∀ ev, ev ∈ evs → ∃ k v d,
        (k, v) ∈ kvs ∧ Outputs (w_rm w) !! k = Some d ∧
        shouldApplyOutput (w_rm w) d = true ∧
        ev = EvWriteFile (filepath_Join (BundleOutputsDir I) (Name d)) v) ∧
    (r = None → ∀ k v d,
        (k, v) ∈ kvs → Outputs (w_rm w) !! k = Some d →
        shouldApplyOutput (w_rm w) d = true →
        EvWriteFile (filepath_Join (BundleOutputsDir I) (Name d)) v ∈ evs) ∧
    (∀ p, (∀ v, EvWriteFile p v ∉ evs) →
          nodes (w_fs w') !! p = nodes (w_fs w) !! p).
Proof.
  revert w. induction kvs as [|[k0 v0] rest IH]; intros w.
  - intros [= <- <-]. repeat split; try done.
    exists []. repeat split; try done.
    + by intros ev ?%elem_of_nil.
    + by intros _ k v d ?%elem_of_nil.
  - rewrite applyStepOutputsToBundle_range_cons.
    destruct (Outputs (w_rm w) !! k0) as [d0|] eqn:Hd0.
    2:{ intros H. destruct (IH _ H) as (Hrm & Ho & He & evs & Ht & Hin & Hall & Hfr).
        repeat split; try done. exists evs. repeat split; try done.
        - intros ev Hev. destruct (Hin ev Hev) as (k & v & d & ? & ?).
          exists k, v, d. split; [by right|done].
        - intros -> k v d [[= -> ->]|Hkv]%elem_of_cons Hd Hs; [congruence|].
          by eapply Hall. }
    destruct (shouldApplyOutput (w_rm w) d0) eqn:Hs0.
    2:{ intros H. destruct (IH _ H) as (Hrm & Ho & He & evs & Ht & Hin & Hall & Hfr).
        repeat split; try done. exists evs. repeat split; try done.
        - intros ev Hev. destruct (Hin ev Hev) as (k & v & d & ? & ?).
          exists k, v, d. split; [by right|done].
        - intros -> k v d [[= -> ->]|Hkv]%elem_of_cons Hd Hs; [congruence|].
          by eapply Hall. }
    cbv zeta.
    destruct (fs_WriteFile _ _ _) as [[e|] fsys] eqn:Hw.
    + intros [= <- <-]. repeat split; try done.
      exists [EvWriteFile (filepath_Join (BundleOutputsDir I) (Name d0)) v0].
      repeat split; try done.
      * intros ev ->%list_elem_of_singleton. exists k0, v0, d0.
        split; [by left|done].
      * intros p _. by rewrite (fs_WriteFile_Some _ _ _ _ _ Hw).
    + intros H. destruct (IH _ H) as (Hrm & Ho & He & evs & Ht & Hin & Hall & Hfr).
      simpl in *. repeat split; try done.
      exists (evs ++ [EvWriteFile (filepath_Join (BundleOutputsDir I) (Name d0)) v0])%list.
      repeat split.
      * by rewrite Ht, <- app_assoc.
      * intros ev [Hev| ->%list_elem_of_singleton]%elem_of_app.
        -- destruct (Hin ev Hev) as (k & v & d & ? & ?).
           exists k, v, d. split; [by right|done].
        -- exists k0, v0, d0. split; [by left|done].
      * intros -> k v d [[= -> ->]|Hkv]%elem_of_cons Hd Hs; apply elem_of_app.
        -- right. apply list_elem_of_singleton. congruence.
        -- left. by eapply Hall.
      * intros p Hp. rewrite Hfr.
        -- rewrite (fs_WriteFile_None _ _ _ _ Hw). simpl.
           apply lookup_insert_ne. intros <-. apply (Hp v0).
           apply elem_of_app. right. by apply list_elem_of_singleton.
        -- intros v Hv. apply (Hp v). apply elem_of_app. by left.
Qed.

Lemma createOutputsDir_eq w :
  createOutputsDir I w =
  let w1 := record (EvMkdirAll (BundleOutputsDir I)) w in
  match fs_MkdirAll (BundleOutputsDir I) (w_fs w) with
  | (Some e, fsys) =>
      (Some (errors_Wrap e "unable to ensure CNAB outputs directory exists"),
       set_fs fsys w1)
  | (None, fsys) => (None, set_fs fsys w1)
  end.
Proof.
  unfold createOutputsDir, bind, FileSystem_MkdirAll, on_fs. cbv zeta.
  by destruct (fs_MkdirAll _ _) as [[e|] fsys].
Qed.

(** With the definitions keyed by their names and every key ranged over
    once, a run without error leaves each in-scope pair in its file. *)
Lemma applyStepOutputsToBundle_range_content kvs w w' :
  (∀ k d, Outputs (w_rm w) !! k = Some d → Name d = k) →
  NoDup kvs.*1 →
  applyStepOutputsToBundle_range I kvs w = (None, w') →
  ∀ k v d, (k, v) ∈ kvs → Outputs (w_rm w) !! k = Some d →
           shouldApplyOutput (w_rm w) d = true →
           nodes (w_fs w') !! filepath_Join (BundleOutputsDir I) k = Some (File v).
Proof.
  intros Hkeyed. revert w Hkeyed.
  induction kvs as [|[k0 v0] rest IH]; intros w Hkeyed Hnd Hrun k v d Hin Hd Hs.
  { by apply elem_of_nil in Hin. }
  apply NoDup_cons in Hnd as [Hk0 Hnd].
  rewrite applyStepOutputsToBundle_range_cons in Hrun.
  apply elem_of_cons in Hin as [[= -> ->]|Hin].
  - rewrite Hd, Hs in Hrun. cbv zeta in Hrun.
    destruct (fs_WriteFile _ _ _) as [[e|] fsys] eqn:Hw; [done|].
    destruct (applyStepOutputsToBundle_range_inv _ _ _ _ Hrun)
      as (_ & _ & _ & evs & _ & Hev & _ & Hfr).
    rewrite (Hkeyed _ _ Hd) in *.
    rewrite Hfr.
    + rewrite (fs_WriteFile_None _ _ _ _ Hw). simpl. apply lookup_insert_eq.
    + intros v Hv. destruct (Hev _ Hv) as (k' & v' & d' & Hin' & Hd' & _ & Heq).
      simpl in Hd'. injection Heq as Hp _. rewrite (Hkeyed _ _ Hd') in Hp.
      apply filepath_Join_inj in Hp as ->.
      apply Hk0. apply list_elem_of_fmap. by exists (k', v').
  - destruct (Outputs (w_rm w) !! k0) as [d0|] eqn:Hd0; [|by eapply IH].
    destruct (shouldApplyOutput (w_rm w) d0); [|by eapply IH].
    cbv zeta in Hrun.
    destruct (fs_WriteFile _ _ _) as [[e|] fsys] eqn:Hw; [done|].
    eapply IH in Hrun; [exact Hrun|done..].
Qed.

(** Range over a map: every pair once. *)
Lemma range_elem_of {A} (kvs : list (string * A)) (m : gmap string A) k v :
  kvs ≡ₚ map_to_list m → (k, v) ∈ kvs ↔ m !! k = Some v.
Proof. intros ->. apply elem_of_map_to_list. Qed.

Lemma range_NoDup {A} (kvs : list (string * A)) (m : gmap string A) :
  kvs ≡ₚ map_to_list m → NoDup kvs.*1.
Proof. intros ->. apply NoDup_fst_map_to_list. Qed.

(** A write to a writable path succeeds, and leaves every writable path
    writable. *)
Lemma fs_WriteFile_writable p c f :
  writable p f →
  fs_WriteFile p c f = (None, mkFileSystem (<[p := File c]> (nodes f)) (denied f)).
Proof.
  intros [Hd Hn]. unfold fs_WriteFile. rewrite Hd.
  by destruct (nodes f !! p) as [[]|].
Qed.

Lemma writable_insert_File p q c f :
  writable p f → writable p (mkFileSystem (<[q := File c]> (nodes f)) (denied f)).
Proof.
  intros [Hd Hn]. split; [done|]. simpl.
  destruct (decide (q = p)) as [->|Hne].
  - by rewrite lookup_insert_eq.
  - by rewrite lookup_insert_ne.
Qed.

(** The loop returns nil when the file of every in-scope declared pair is
    writable: the only error of the loop is a failed write. *)
Lemma applyStepOutputsToBundle_range_total kvs w :
  (∀ k v d, (k, v) ∈ kvs → Outputs (w_rm w) !! k = Some d →
            shouldApplyOutput (w_rm w) d = true →
            writable (filepath_Join (BundleOutputsDir I) (Name d)) (w_fs w)) →
  (applyStepOutputsToBundle_range I kvs w).1 = None.
Proof.
  revert w. induction kvs as [|[k0 v0] rest IH]; intros w Hw; [done|].
  rewrite applyStepOutputsToBundle_range_cons.
  assert (Hrest : ∀ k v d, (k, v) ∈ rest → Outputs (w_rm w) !! k = Some d →
                           shouldApplyOutput (w_rm w) d = true →
                           writable (filepath_Join (BundleOutputsDir I) (Name d)) (w_fs w)).
  { intros k v d Hin. apply (Hw k v d). by right. }
  destruct (Outputs (w_rm w) !! k0) as [d0|] eqn:Hd0; [|by apply IH].
  destruct (shouldApplyOutput (w_rm w) d0) eqn:Hs0; [|by apply IH].
  cbv zeta. rewrite (fs_WriteFile_writable _ v0 _ (Hw k0 v0 d0 ltac:(by left) Hd0 Hs0)).
  apply IH. intros k v d Hin Hd Hs. simpl. apply writable_insert_File. by eapply Hrest.
Qed.

(** C4: a produced pair that matches a declared output is written to
    [<output-dir>/<name>] if and only if the definition has no [applyTo] list
    or the list names the current action.  For a bundle whose definitions are
    keyed by their names: a write of the pair happens only in scope; a run
    of the binder without error writes exactly the pairs in scope, and their
    files then hold the values; out of scope the file is not touched.  The
    binder does run without error when the output directory can be made and
    the file of every in-scope pair is writable: a pair that is out of scope
    or not declared is never a reason to fail. *)
Theorem applyStepOutputsToBundle_scope outs w r w' :
  range_outputs I outs ≡ₚ map_to_list outs →
  (∀ k d, Outputs (w_rm w) !! k = Some d → Name d = k) →
  applyStepOutputsToBundle I outs w = (r, w') →
  ∃ evs, w_trace w' = (evs ++ w_trace w)%list ∧
    (∀ name value def,
      outs !! name = Some value → Outputs (w_rm w) !! name = Some def →
      let outpath := filepath_Join (BundleOutputsDir I) name in
      (EvWriteFile outpath value ∈ evs → in_scope (w_rm w) def) ∧
      (r = None → in_scope (w_rm w) def →
         EvWriteFile outpath value ∈ evs ∧
         nodes (w_fs w') !! outpath = Some (File value)) ∧
      (¬ in_scope (w_rm w) def →
         (EvWriteFile outpath value ∉ evs) ∧
         nodes (w_fs w') !! outpath = nodes (w_fs w) !! outpath)) ∧
    ((fs_MkdirAll (BundleOutputsDir I) (w_fs w)).1 = None →
     (∀ name value def,
        outs !! name = Some value → Outputs (w_rm w) !! name = Some def →
        in_scope (w_rm w) def →
        writable (filepath_Join (BundleOutputsDir I) name) (w_fs w)) →
     r = None).
Proof.
  intros Hrange Hkeyed. unfold applyStepOutputsToBundle, bind.
  rewrite createOutputsDir_eq. cbv zeta.
  destruct (fs_MkdirAll _ _) as [[e|] fsys] eqn:Hmk.
  - intros [= <- <-]. exists [EvMkdirAll (BundleOutputsDir I)]. split; [done|].
    split; [|done].
    intros name value def Hout Hdef. split; [|split].
    + by intros ?%list_elem_of_singleton.
    + done.
    + intros _. split.
      * by intros ?%list_elem_of_singleton.
      * by rewrite (fs_MkdirAll_Some _ _ _ _ Hmk).
  - intros Hrun.
    set (w1 := set_fs fsys (record (EvMkdirAll (BundleOutputsDir I)) w)) in *.
    assert (Hkeyed1 : ∀ k d, Outputs (w_rm w1) !! k = Some d → Name d = k) by done.
    pose proof (applyStepOutputsToBundle_range_inv _ _ _ _ Hrun)
      as (_ & _ & _ & evs & Ht & Hev & Hall & Hfr).
    exists (evs ++ [EvMkdirAll (BundleOutputsDir I)])%list. split.
    { by rewrite Ht, <- app_assoc. }
    split.
    2:{ intros _ Hw.
        pose proof (applyStepOutputsToBundle_range_total (range_outputs I outs) w1) as Hnil.
        rewrite Hrun in Hnil. apply Hnil. intros k v d Hin Hd Hs.
        rewrite (Hkeyed1 _ _ Hd). unfold w1. simpl.
        destruct (Hw k v d) as [Hden Hnode].
        - by eapply range_elem_of.
        - done.
        - by apply shouldApplyOutput_true.
        - rewrite (fs_MkdirAll_None _ _ _ Hmk). split; [done|]. simpl.
          rewrite lookup_insert_ne; [done|]. intros Heq. symmetry in Heq.
          by apply filepath_Join_ne_dir in Heq. }
    intros name value def Hout Hdef.
    set (outpath := filepath_Join (BundleOutputsDir I) name).
    assert (Hin : (name, value) ∈ range_outputs I outs) by by eapply range_elem_of.
    assert (Hnd : NoDup (range_outputs I outs).*1) by by eapply range_NoDup.
    assert (Hmine : ∀ v, EvWriteFile outpath v ∈ evs → in_scope (w_rm w) def).
    { intros v Hv. destruct (Hev _ Hv) as (k' & v' & d' & Hin' & Hd' & Hs' & Heq).
      injection Heq as Hp _. rewrite (Hkeyed1 _ _ Hd') in Hp.
      apply filepath_Join_inj in Hp as <-.
      simpl in Hd'. rewrite Hdef in Hd'. injection Hd' as <-.
      by apply shouldApplyOutput_true. }
    assert (Hwrite : EvWriteFile outpath value
                       ∈ (evs ++ [EvMkdirAll (BundleOutputsDir I)])%list →
                     EvWriteFile outpath value ∈ evs).
    { by intros [?|?%list_elem_of_singleton]%elem_of_app. }
    split; [|split].
    + intros Hv. by eapply Hmine, Hwrite.
    + intros -> Hsc%shouldApplyOutput_true. split.
      * apply elem_of_app. left. unfold outpath.
        rewrite <- (Hkeyed _ _ Hdef). by eapply (Hall eq_refl name value def).
      * by eapply (applyStepOutputsToBundle_range_content _ _ _ Hkeyed1 Hnd Hrun).
    + intros Hns. split.
      * intros Hv. by eapply Hns, Hmine, Hwrite.
      * rewrite Hfr.
        -- unfold w1. simpl. rewrite (fs_MkdirAll_None _ _ _ Hmk). simpl.
           apply lookup_insert_ne. intros Heq. symmetry in Heq.
           by apply filepath_Join_ne_dir in Heq.
        -- intros v Hv. by eapply Hns, Hmine.
Qed.

Lemma applyStepOutputsToBundle_range_without name kvs w :
  Outputs (w_rm w) !! name = None →
  applyStepOutputsToBundle_range I kvs w =
  applyStepOutputsToBundle_range I (without name kvs) w.
Proof.
  revert w. induction kvs as [|[k0 v0] rest IH]; intros w Hnone; [done|].
  unfold without. rewrite filter_cons. fold (without name rest).
  destruct (decide ((k0, v0).1 ≠ name)) as [Hne|Heq%dec_stable]; cbn [fst] in *.
  - rewrite !applyStepOutputsToBundle_range_cons.
    destruct (Outputs (w_rm w) !! k0) as [d0|]; [|by apply IH].
    destruct (shouldApplyOutput (w_rm w) d0); [|by apply IH].
    cbv zeta. destruct (fs_WriteFile _ _ _) as [[e|] fsys]; [done|].
    by apply IH.
  - subst k0. rewrite applyStepOutputsToBundle_range_cons, Hnone. by apply IH.
Qed.

(** C8: a produced pair whose name matches no declared output is skipped
    silently.  The binder runs as if the pair were not in the range, so the
    pair raises no error; and in a bundle whose definitions are keyed by
    their names nothing is written to [<output-dir>/<name>]. *)
Theorem applyStepOutputsToBundle_undeclared outs w name value :
  outs !! name = Some value →
  Outputs (w_rm w) !! name = None →
  applyStepOutputsToBundle I outs w =
    bind (createOutputsDir I)
         (λ err, match err with
                 | Some e => ret (Some e)
                 | None => applyStepOutputsToBundle_range I
                             (without name (range_outputs I outs))
                 end) w
  ∧ ∀ r w', applyStepOutputsToBundle I outs w = (r, w') →
      (∀ k d, Outputs (w_rm w) !! k = Some d → Name d = k) →
      ∃ evs, w_trace w' = (evs ++ w_trace w)%list ∧
        (∀ v, EvWriteFile (filepath_Join (BundleOutputsDir I) name) v ∉ evs) ∧
        nodes (w_fs w') !! filepath_Join (BundleOutputsDir I) name
        = nodes (w_fs w) !! filepath_Join (BundleOutputsDir I) name.
Proof.
  intros Hout Hnone. split.
  - unfold applyStepOutputsToBundle, bind. rewrite createOutputsDir_eq. cbv zeta.
    destruct (fs_MkdirAll _ _) as [[e|] fsys]; [done|].
    by apply applyStepOutputsToBundle_range_without.
  - intros r w'. unfold applyStepOutputsToBundle, bind.
    rewrite createOutputsDir_eq. cbv zeta.
    destruct (fs_MkdirAll _ _) as [[e|] fsys] eqn:Hmk.
    + intros [= <- <-] _. exists [EvMkdirAll (BundleOutputsDir I)].
      split; [done|]. split.
      * by intros v ?%list_elem_of_singleton.
      * by rewrite (fs_MkdirAll_Some _ _ _ _ Hmk).
    + intros Hrun Hkeyed.
      pose proof (applyStepOutputsToBundle_range_inv _ _ _ _ Hrun)
        as (_ & _ & _ & evs & Ht & Hev & _ & Hfr).
      assert (Hno : ∀ v, EvWriteFile (filepath_Join (BundleOutputsDir I) name) v ∉ evs).
      { intros v Hv. destruct (Hev _ Hv) as (k' & v' & d' & _ & Hd' & _ & Heq).
        injection Heq as Hp _. simpl in Hd'. rewrite (Hkeyed _ _ Hd') in Hp.
        apply filepath_Join_inj in Hp as <-. congruence. }
      exists (evs ++ [EvMkdirAll (BundleOutputsDir I)])%list. split; [|split].
      * by rewrite Ht, <- app_assoc.
      * intros v [?|?%list_elem_of_singleton]%elem_of_app; [by eapply Hno|done].
      * rewrite (Hfr _ Hno). simpl. rewrite (fs_MkdirAll_None _ _ _ Hmk). simpl.
        apply lookup_insert_ne. intros Heq. symmetry in Heq.
        by apply filepath_Join_ne_dir in Heq.
Qed.

End Binder.

(** ** The unbound output resolver *)

Section Resolver.

Variable I : Imports.

Lemma applyUnboundBundleOutputs_range_cons bigErr outs k outputDef rest w :
  applyUnboundBundleOutputs_range I bigErr outs ((k, outputDef) :: rest) w =
  if decide (default "" (outs !! Name outputDef) ≠ "") then
    applyUnboundBundleOutputs_range I bigErr outs rest w
  else if decide (Path outputDef = "") then
    applyUnboundBundleOutputs_range I bigErr outs rest w
  else if shouldApplyOutput (w_rm w) outputDef then
    let outpath := filepath_Join (BundleOutputsDir I) (Name outputDef) in
    applyUnboundBundleOutputs_range I bigErr outs rest
      (set_fs (fs_CopyFile (Path outputDef) outpath (w_fs w)).2
              (record (EvCopyFile (Path outputDef) outpath) w))
  else applyUnboundBundleOutputs_range I bigErr outs rest w.
Proof.
  simpl. destruct (decide _); [done|]. destruct (decide _); [done|].
  unfold bind, get_rm. destruct (shouldApplyOutput (w_rm w) outputDef); [|done].
  unfold CopyFile, on_fs. cbv zeta.
  by destruct (fs_CopyFile _ _ _) as [[e|] fsys].
Qed.

(** The loop gives back the [bigErr] it started with: no iteration assigns
    it. *)
Lemma applyUnboundBundleOutputs_range_bigErr bigErr outs defs w :
  (applyUnboundBundleOutputs_range I bigErr outs defs w).1 = bigErr.
Proof.
  revert w. induction defs as [|[k d] rest IH]; intros w; [done|].
  rewrite applyUnboundBundleOutputs_range_cons.
  repeat case_match; apply IH.
Qed.

(** The calls of the loop: one [CopyFile] for each ranged definition that is
    unbound, has a path and is in scope, and nothing else. *)
Lemma applyUnboundBundleOutputs_range_inv bigErr outs defs w r w' :
  applyUnboundBundleOutputs_range I bigErr outs defs w = (r, w') →
  w_rm w' = w_rm w ∧ w_Out w' = w_Out w ∧ w_Err w' = w_Err w ∧
  ∃ evs, w_trace w' = (evs ++ w_trace w)%list ∧
    (∀ ev, ev ∈ evs ↔ ∃ k d,
        (k, d) ∈ defs ∧ unbound outs d ∧ Path d ≠ "" ∧
        shouldApplyOutput (w_rm w) d = true ∧
        ev = EvCopyFile (Path d) (filepath_Join (BundleOutputsDir I) (Name d))) ∧
    (∀ p, (∀ src, EvCopyFile src p ∉ evs) →
          nodes (w_fs w') !! p = nodes (w_fs w) !! p).
Proof.
  revert w. induction defs as [|[k0 d0] rest IH]; intros w.
  { intros [= <- <-]. repeat split; try done. exists []. repeat split; try done.
    - by intros ?%elem_of_nil.
    - by intros (k & d & ?%elem_of_nil & _). }
  rewrite applyUnboundBundleOutputs_range_cons.
  assert (Hskip : (¬ unbound outs d0 ∨ Path d0 = "" ∨ shouldApplyOutput (w_rm w) d0 = false) →
    applyUnboundBundleOutputs_range I bigErr outs rest w = (r, w') →
    w_rm w' = w_rm w ∧ w_Out w' = w_Out w ∧ w_Err w' = w_Err w ∧
    ∃ evs, w_trace w' = (evs ++ w_trace w)%list ∧
      (∀ ev, ev ∈ evs ↔ ∃ k d,
          (k, d) ∈ (k0, d0) :: rest ∧ unbound outs d ∧ Path d ≠ "" ∧
          shouldApplyOutput (w_rm w) d = true ∧
          ev = EvCopyFile (Path d) (filepath_Join (BundleOutputsDir I) (Name d))) ∧
      (∀ p, (∀ src, EvCopyFile src p ∉ evs) →
            nodes (w_fs w') !! p = nodes (w_fs w) !! p)).
  { intros Hno H. destruct (IH _ H) as (Hrm & Ho & He & evs & Ht & Hev & Hfr).
    repeat split; try done. exists evs. repeat split; try done.
    - intros (k & d & Hin & ?)%Hev. exists k, d. split; [by right|done].
    - intros (k & d & [[= -> ->]|Hin]%elem_of_cons & Hu & Hp & Hs & ->).
      + destruct Hno as [?|[?|?]]; [done|done|congruence].
      + apply Hev. by exists k, d. }
  destruct (decide _) as [Hbound|Hunb%dec_stable]; [apply Hskip; by left|].
  destruct (decide _) as [Hnopath|Hpath]; [apply Hskip; by right; left|].
  destruct (shouldApplyOutput (w_rm w) d0) eqn:Hs0; [|apply Hskip; by right; right].
  cbv zeta. set (outpath := filepath_Join (BundleOutputsDir I) (Name d0)).
  intros H. destruct (IH _ H) as (Hrm & Ho & He & evs & Ht & Hev & Hfr).
  simpl in *. repeat split; try done.
  exists (evs ++ [EvCopyFile (Path d0) outpath])%list. repeat split.
  - by rewrite Ht, <- app_assoc.
  - intros [(k & d & Hin & ?)%Hev| ->%list_elem_of_singleton]%elem_of_app.
    + exists k, d. split; [by right|done].
    + exists k0, d0. split; [by left|done].
  - intros (k & d & [[= -> ->]|Hin]%elem_of_cons & Hu & Hp & Hs & ->);
      apply elem_of_app.
    + right. by apply list_elem_of_singleton.
    + left. apply Hev. by exists k, d.
  - intros p Hp. rewrite Hfr.
    + destruct (fs_CopyFile (Path d0) outpath (w_fs w)) as [[e|] fsys] eqn:Hc.
      * by rewrite (fs_CopyFile_Some _ _ _ _ _ Hc).
      * destruct (fs_CopyFile_None _ _ _ _ Hc) as (data & _ & ->). simpl.
        apply lookup_insert_ne. intros <-. apply (Hp (Path d0)).
        apply elem_of_app. right. by apply list_elem_of_singleton.
    + intros src Hsrc. apply (Hp src). apply elem_of_app. by left.
Qed.

(** The resolver reports the failure of [createOutputsDir] and nothing
    else: whatever the copies did, the loop ends with the nil [bigErr]. *)
Lemma applyUnboundBundleOutputs_result w :
  (applyUnboundBundleOutputs I w).1 =
  match fs_MkdirAll (BundleOutputsDir I) (w_fs w) with
  | (Some e, _) => Some (errors_Wrap e "unable to ensure CNAB outputs directory exists")
  | (None, _) => None
  end.
Proof.
  unfold applyUnboundBundleOutputs, bind. rewrite createOutputsDir_eq. cbv zeta.
  destruct (fs_MkdirAll _ _) as [[e|] fsys]; [done|].
  unfold get_rm. simpl.
  match goal with |- context [if ?b then _ else _] => destruct b end; simpl;
  match goal with
  | |- context [applyUnboundBundleOutputs_range I ?b ?o ?d ?w0] =>
      pose proof (applyUnboundBundleOutputs_range_bigErr b o d w0) as Hb;
      destruct (applyUnboundBundleOutputs_range I b o d w0) as [b' w']
  end; simpl in *; by subst.
Qed.

End Resolver.

(** ** The phases compose to the methods *)

Section PhaseLemmas.

Variable I : Imports.

Lemma executeStep_phases step w :
  executeStep I (Some step) w =
  match executeStep_invoke I step w with
  | (Some e, w1) => (Some e, w1)
  | (None, w1) => executeStep_collect I w1
  end.
Proof.
  unfold executeStep, executeStep_invoke, executeStep_collect, bind.
  destruct (RuntimeManifest_ResolveStep I step w) as [[[e|] step'] w1]; [done|].
  destruct (if Nat.ltb 0 _ then _ else _) as [[] w2].
  destruct (get_rm w2) as [m w3].
  destruct (SetSensitiveValues _ w3) as [[] w4].
  destruct (get_rm w4) as [m' w5].
  by destruct (PackageManager_Run I _ _ w5) as [[e|] w6].
Qed.

Lemma Execute_phases rm w :
  Execute I rm w =
  match Execute_setup I rm w with
  | (Some e, w1) => (Some e, w1)
  | (None, w1) =>
      let (executionErr, w2) := Execute_range I (GetSteps (w_rm w1)) w1 in
      Execute_finish I executionErr w2
  end.
Proof.
  unfold Execute, Execute_setup, Execute_prepare, Execute_images, Execute_finish, bind.
  cbn beta iota. unfold Getenv, get_rm, Fprintln_Out at 1 3. cbn beta iota.
  destruct (RuntimeManifest_Validate I _) as [[e|] w1]; [done|].
  destruct (RuntimeManifest_Prepare I w1) as [[e|] w2]; [done|].
  destruct (getImageMappingFiles I w2) as [[e|[rtb reloMap]] w3]; [done|].
  destruct (RuntimeManifest_ResolveImages I rtb reloMap w3) as [[e|] w4]; [done|].
  destruct (FileSystem_MkdirAll (MixinOutputsDir I) w4) as [[e|] w5]; [done|].
  unfold ret. cbn beta iota.
  destruct (Execute_range I _ w5) as [executionErr w6].
  destruct (applyUnboundBundleOutputs I w6) as [err w7].
  done.
Qed.

End PhaseLemmas.

(** ** What the resolver copies *)

Section ResolverCopies.

Variable I : Imports.

Lemma applyUnboundBundleOutputs_eq w :
  applyUnboundBundleOutputs I w =
  let w1 := record (EvMkdirAll (BundleOutputsDir I)) w in
  match fs_MkdirAll (BundleOutputsDir I) (w_fs w) with
  | (Some e, fsys) =>
      (Some (errors_Wrap e "unable to ensure CNAB outputs directory exists"),
       set_fs fsys w1)
  | (None, fsys) =>
      let w2 := set_fs fsys w1 in
      let w3 := if Nat.ltb 0 (size (Outputs (w_rm w)))
                then print_Out "Collecting bundle outputs..." w2 else w2 in
      let (bigErr, w4) :=
        applyUnboundBundleOutputs_range I None (GetOutputs (w_rm w))
          (range_Outputs I (Outputs (w_rm w))) w3 in
      (multierror_ErrorOrNil bigErr, w4)
  end.
Proof.
  unfold applyUnboundBundleOutputs, bind. rewrite createOutputsDir_eq. cbv zeta.
  destruct (fs_MkdirAll _ _) as [[e|] fsys]; [done|].
  unfold get_rm. simpl.
  by destruct (Nat.ltb 0 (size (Outputs (w_rm w)))).
Qed.

Lemma fs_ReadFile_ext p f f' :
  denied f' = denied f → nodes f' !! p = nodes f !! p →
  fs_ReadFile p f' = fs_ReadFile p f.
Proof. intros Hd Hn. unfold fs_ReadFile. by rewrite Hd, Hn. Qed.

Lemma fs_CopyFile_ok src dest f data :
  denied f OpStat src = false →
  fs_ReadFile src f = inr data →
  denied f OpWriteFile dest = false →
  nodes f !! dest ≠ Some Directory →
  fs_CopyFile src dest f
  = (None, mkFileSystem (<[dest := File data]> (nodes f)) (denied f)).
Proof.
  intros Hstat Hread Hw Hdir. unfold fs_CopyFile, fs_Stat.
  rewrite Hstat, (fs_ReadFile_inr _ _ _ Hread), Hread. unfold fs_WriteFile. rewrite Hw.
  by destruct (nodes f !! dest) as [[]|].
Qed.

Lemma fs_CopyFile_denied src dest f : denied (fs_CopyFile src dest f).2 = denied f.
Proof.
  destruct (fs_CopyFile src dest f) as [[e|] f'] eqn:Hc; simpl.
  - by rewrite (fs_CopyFile_Some _ _ _ _ _ Hc).
  - by destruct (fs_CopyFile_None _ _ _ _ Hc) as (data & _ & ->).
Qed.

Lemma fs_CopyFile_other src dest f p :
  p ≠ dest → nodes (fs_CopyFile src dest f).2 !! p = nodes f !! p.
Proof.
  intros Hne. destruct (fs_CopyFile src dest f) as [[e|] f'] eqn:Hc; simpl.
  - by rewrite (fs_CopyFile_Some _ _ _ _ _ Hc).
  - destruct (fs_CopyFile_None _ _ _ _ Hc) as (data & _ & ->). simpl.
    by apply lookup_insert_ne.
Qed.

(** The bytes of a copy: over definitions with distinct names, a
    definition that the loop copies, whose source can be read and lies
    outside the output directory and whose file can be written, ends with
    the bytes of its source in its file. *)
Lemma applyUnboundBundleOutputs_range_content bigErr outs defs w r w' :
  NoDup ((λ kd : string * OutputDefinition, Name kd.2) <$> defs) →
  applyUnboundBundleOutputs_range I bigErr outs defs w = (r, w') →
  ∀ k d data,
    (k, d) ∈ defs → unbound outs d → Path d ≠ "" →
    shouldApplyOutput (w_rm w) d = true →
    (∀ name, Path d ≠ filepath_Join (BundleOutputsDir I) name) →
    denied (w_fs w) OpStat (Path d) = false →
    fs_ReadFile (Path d) (w_fs w) = inr data →
    denied (w_fs w) OpWriteFile (filepath_Join (BundleOutputsDir I) (Name d)) = false →
    nodes (w_fs w) !! filepath_Join (BundleOutputsDir I) (Name d) ≠ Some Directory →
    nodes (w_fs w') !! filepath_Join (BundleOutputsDir I) (Name d) = Some (File data).
Proof.
  revert w. induction defs as [|[k0 d0] rest IH]; intros w Hnd Hrun k d data Hin.
  { by apply elem_of_nil in Hin. }
  rewrite fmap_cons in Hnd. apply NoDup_cons in Hnd as [Hn0 Hnd]. simpl in Hn0.
  intros Hu Hp Hs Hsrc Hstat Hread Hw Hdir.
  rewrite applyUnboundBundleOutputs_range_cons in Hrun.
  apply elem_of_cons in Hin as [[= -> ->]|Hin].
  - destruct (decide _) as [Hbound|_] in Hrun; [done|].
    destruct (decide _) as [Hnopath|_] in Hrun; [done|].
    rewrite Hs in Hrun. cbv zeta in Hrun.
    rewrite (fs_CopyFile_ok _ _ _ _ Hstat Hread Hw Hdir) in Hrun. simpl in Hrun.
    destruct (applyUnboundBundleOutputs_range_inv _ _ _ _ _ _ _ Hrun)
      as (_ & _ & _ & evs & _ & Hev & Hfr).
    rewrite Hfr; [simpl; apply lookup_insert_eq|].
    intros src (k' & d' & Hin' & _ & _ & _ & Heq)%Hev.
    injection Heq as _ Hname. apply filepath_Join_inj in Hname.
    apply Hn0. rewrite Hname. apply list_elem_of_fmap. by exists (k', d').
  - assert (Hne : Name d0 ≠ Name d).
    { intros Heq. apply Hn0. rewrite Heq. apply list_elem_of_fmap. by exists (k, d). }
    destruct (decide _) as [?|_] in Hrun; [by eapply IH|].
    destruct (decide _) as [?|_] in Hrun; [by eapply IH|].
    destruct (shouldApplyOutput (w_rm w) d0); [|by eapply IH].
    cbv zeta in Hrun. eapply IH in Hrun; [exact Hrun|done..| | | |]; simpl.
    + by rewrite fs_CopyFile_denied.
    + rewrite <- Hread. apply fs_ReadFile_ext; [apply fs_CopyFile_denied|].
      apply fs_CopyFile_other, Hsrc.
    + by rewrite fs_CopyFile_denied.
    + rewrite fs_CopyFile_other; [done|].
      intros Heq%filepath_Join_inj. by apply Hne.
Qed.

(** X13: what the resolver copies.  In a pass of the resolver that returns
    no error, over a bundle whose definitions are keyed by their names,
    which are plain, and with a clean output directory, the file of a
    declared output is the path that [filepath.Join] gives for it.  The
    output is copied from its path to that file when it has a path, is in
    scope, and the step bookkeeping holds no value or the empty value for
    it, and the file then holds the bytes of the source (for a readable
    source outside the output directory and a writable file); for every
    other declared output (a non-empty value from a step, no path, or out of
    scope) no copy to its file is made and the stored file is left as it
    was. *)
Theorem applyUnboundBundleOutputs_copies w w' :
  range_Outputs I (Outputs (w_rm w)) ≡ₚ map_to_list (Outputs (w_rm w)) →
  (∀ k d, Outputs (w_rm w) !! k = Some d → Name d = k) →
  plain_outputs (w_rm w) →
  clean_dir (BundleOutputsDir I) →
  applyUnboundBundleOutputs I w = (None, w') →
  ∃ evs, w_trace w' = (evs ++ w_trace w)%list ∧
    ∀ k d, Outputs (w_rm w) !! k = Some d →
      let outpath := filepath_Join (BundleOutputsDir I) (Name d) in
      filepath_Clean outpath = outpath ∧
      (resolvable (w_rm w) d →
         EvCopyFile (Path d) outpath ∈ evs ∧
         ∀ data,
           denied (w_fs w) OpStat (Path d) = false →
           fs_ReadFile (Path d) (w_fs w) = inr data →
           (∀ name, Path d ≠ filepath_Join (BundleOutputsDir I) name) →
           denied (w_fs w) OpWriteFile outpath = false →
           nodes (w_fs w) !! outpath ≠ Some Directory →
           nodes (w_fs w') !! outpath = Some (File data)) ∧
      (¬ resolvable (w_rm w) d →
         (∀ src, EvCopyFile src outpath ∉ evs) ∧
         nodes (w_fs w') !! outpath = nodes (w_fs w) !! outpath).
Proof.
  intros Hrange Hkeyed Hplain Hclean. rewrite applyUnboundBundleOutputs_eq. cbv zeta.
  destruct (fs_MkdirAll _ _) as [[e|] fsys] eqn:Hmk; [done|].
  set (w3 := if Nat.ltb 0 _ then _ else _).
  assert (Hw3 : w_rm w3 = w_rm w ∧ w_fs w3 = fsys ∧
                w_trace w3 = EvMkdirAll (BundleOutputsDir I) :: w_trace w).
  { unfold w3. by destruct (Nat.ltb 0 _). }
  destruct Hw3 as (Hrm3 & Hfs3 & Htr3).
  destruct (applyUnboundBundleOutputs_range I _ _ _ w3) as [bigErr w4] eqn:Hrun.
  intros [= _ <-].
  destruct (applyUnboundBundleOutputs_range_inv _ _ _ _ _ _ _ Hrun)
    as (_ & _ & _ & evs & Ht & Hev & Hfr).
  rewrite Hrm3 in Hev.
  exists (evs ++ [EvMkdirAll (BundleOutputsDir I)])%list. split.
  { by rewrite Ht, Htr3, <- app_assoc. }
  intros k d Hd. set (outpath := filepath_Join (BundleOutputsDir I) (Name d)).
  assert (Hmine : ∀ src, EvCopyFile src outpath ∈ evs → resolvable (w_rm w) d).
  { intros src (k' & d' & Hin' & Hu & Hp & Hs & Heq)%Hev.
    injection Heq as _ Hn. apply filepath_Join_inj in Hn.
    apply (range_elem_of _ _ _ _ Hrange) in Hin'.
    assert (k' = k) as -> by by rewrite <- (Hkeyed _ _ Hin'), <- (Hkeyed _ _ Hd).
    assert (d' = d) as -> by congruence.
    split; [done|]. split; [done|]. by apply shouldApplyOutput_true. }
  assert (Hout : nodes fsys !! outpath = nodes (w_fs w) !! outpath).
  { rewrite (fs_MkdirAll_None _ _ _ Hmk). simpl.
    apply lookup_insert_ne. intros Heq. symmetry in Heq.
    by apply filepath_Join_ne_dir in Heq. }
  split; [apply filepath_Join_Clean; [done|by eapply Hplain]|].
  split.
  - intros (Hu & Hp & Hs%shouldApplyOutput_true). split.
    + apply elem_of_app. left. apply Hev. exists k, d.
      split; [by eapply range_elem_of|done].
    + intros data Hstat Hread Hsrc Hw Hdir.
      assert (Hnd : NoDup ((λ kd : string * OutputDefinition, Name kd.2)
                             <$> range_Outputs I (Outputs (w_rm w)))).
      { rewrite (Forall_fmap_ext_1 _ fst).
        - by eapply range_NoDup.
        - apply Forall_forall. intros [k' d'] Hin'%(range_elem_of _ _ _ _ Hrange).
          simpl. by apply Hkeyed. }
      assert (Hdirne : Path d ≠ BundleOutputsDir I).
      { intros Heq. apply fs_ReadFile_inr in Hread. rewrite Heq in Hread.
        unfold fs_MkdirAll in Hmk. rewrite Hread in Hmk.
        by destruct (denied (w_fs w) OpMkdirAll (BundleOutputsDir I)). }
      eapply (applyUnboundBundleOutputs_range_content _ _ _ _ _ _ Hnd Hrun k d data).
      * by eapply range_elem_of.
      * done.
      * done.
      * by rewrite Hrm3.
      * done.
      * rewrite Hfs3. by rewrite (fs_MkdirAll_None _ _ _ Hmk).
      * rewrite <- Hread. apply fs_ReadFile_ext; rewrite Hfs3.
        -- by rewrite (fs_MkdirAll_None _ _ _ Hmk).
        -- rewrite (fs_MkdirAll_None _ _ _ Hmk). simpl. by apply lookup_insert_ne.
      * rewrite Hfs3. by rewrite (fs_MkdirAll_None _ _ _ Hmk).
      * rewrite Hfs3. fold outpath. by rewrite Hout.
  - intros Hno. split.
    + intros src [Hin|?%list_elem_of_singleton]%elem_of_app; [|done].
      by eapply Hno, Hmine.
    + rewrite Hfr.
      * by rewrite Hfs3.
      * intros src Hin. by eapply Hno, Hmine.
Qed.

End ResolverCopies.

(** ** Reading the mixin outputs *)

Section Channel.

Variable I : Imports.

Lemma readMixinOutputs_range_cons outfile rest outs w :
  readMixinOutputs_range I (outfile :: rest) outs w =
  if FileInfo_IsDir outfile then readMixinOutputs_range I rest outs w
  else
    let outpath := filepath_Join (MixinOutputsDir I) (FileInfo_Name outfile) in
    let w1 := record (EvReadFile outpath) w in
    match fs_ReadFile outpath (w_fs w) with
    | inl e =>
        ((None, Some (errors_Wrapf e ("could not read output file " +:+ outpath))), w1)
    | inr contents =>
        let w2 := record (EvRemove outpath) w1 in
        match fs_Remove outpath (w_fs w) with
        | (Some e, fsys) => ((None, Some e), set_fs fsys w2)
        | (None, fsys) =>
            readMixinOutputs_range I rest (<[FileInfo_Name outfile := contents]> outs)
                                   (set_fs fsys w2)
        end
    end.
Proof.
  simpl. destruct (FileInfo_IsDir outfile); [done|].
  unfold bind, FileSystem_ReadFile, FileSystem_Remove, on_fs. cbv zeta.
  destruct (fs_ReadFile _ _) as [e|contents]; [by destruct w|].
  simpl. by destruct (fs_Remove _ _) as [[e|] fsys].
Qed.

(** Whatever the outcome, the loop only reads and removes: the manifest, the
    logs and the faults are left alone, and no node appears. *)
Lemma readMixinOutputs_range_frame outfiles outs w res w' :
  readMixinOutputs_range I outfiles outs w = (res, w') →
  w_rm w' = w_rm w ∧ w_Out w' = w_Out w ∧ w_Err w' = w_Err w ∧
  w_sensitive w' = w_sensitive w ∧
  denied (w_fs w') = denied (w_fs w) ∧
  (∀ p, nodes (w_fs w') !! p = None ∨ nodes (w_fs w') !! p = nodes (w_fs w) !! p) ∧
  (∃ evs, w_trace w' = (evs ++ w_trace w)%list ∧ ∀ ev, ev ∈ evs → is_read_event ev) ∧
  ((∃ outs', res = (Some outs', None)) ∨ (∃ e, res = (None, Some e))).
Proof.
  revert outs w. induction outfiles as [|fi rest IH]; intros outs w.
  { intros [= <- <-]. repeat split; try done; eauto.
    exists []. split; [done|]. by intros ev ?%elem_of_nil. }
  rewrite readMixinOutputs_range_cons.
  destruct (FileInfo_IsDir fi); [apply IH|]. cbv zeta.
  set (p0 := filepath_Join (MixinOutputsDir I) (FileInfo_Name fi)).
  destruct (fs_ReadFile p0 (w_fs w)) as [e|contents].
  { intros [= <- <-]. repeat split; try done; eauto.
    exists [EvReadFile p0]. split; [done|]. by intros ev ->%list_elem_of_singleton. }
  destruct (fs_Remove p0 (w_fs w)) as [[e|] fsys] eqn:Hrm.
  { intros [= <- <-]. rewrite (fs_Remove_Some _ _ _ _ Hrm).
    repeat split; try done; eauto.
    exists [EvRemove p0; EvReadFile p0]. split; [done|].
    intros ev Hev. apply elem_of_cons in Hev as [->| ->%list_elem_of_singleton]; done. }
  intros H. destruct (IH _ _ H) as (Hm & Ho & He & Hs & Hd & Hn & (evs & Ht & Hev) & Hres).
  destruct (fs_Remove_None _ _ _ Hrm) as [_ ->]. simpl in *.
  repeat split; try done.
  - intros p. destruct (Hn p) as [?|Hp]; [by left|].
    rewrite Hp. destruct (decide (p0 = p)) as [->|Hne].
    + left. apply lookup_delete_eq.
    + right. by apply lookup_delete_ne.
  - exists (evs ++ [EvRemove p0; EvReadFile p0])%list. split.
    + by rewrite Ht, <- app_assoc.
    + intros ev [?|Hin]%elem_of_app; [by apply Hev|].
      apply elem_of_cons in Hin as [->| ->%list_elem_of_singleton]; done.
Qed.

(** One file that cannot be read or removed fails the whole read. *)
Lemma readMixinOutputs_range_fails outfiles outs w fi :
  fi ∈ outfiles → FileInfo_IsDir fi = false →
  read_fails (filepath_Join (MixinOutputsDir I) (FileInfo_Name fi)) (w_fs w) ∨
  remove_fails (filepath_Join (MixinOutputsDir I) (FileInfo_Name fi)) (w_fs w) →
  ∃ e, (readMixinOutputs_range I outfiles outs w).1 = (None, Some e).
Proof.
  intros Hin Hfile. revert outs w.
  induction outfiles as [|fi0 rest IH]; intros outs w Hfail.
  { by apply elem_of_nil in Hin. }
  rewrite readMixinOutputs_range_cons.
  destruct (FileInfo_IsDir fi0) eqn:Hd0.
  { apply elem_of_cons in Hin as [->|Hin]; [congruence|]. by apply IH. }
  cbv zeta. set (p0 := filepath_Join (MixinOutputsDir I) (FileInfo_Name fi0)).
  destruct (fs_ReadFile p0 (w_fs w)) as [e|contents] eqn:Hread; [by eexists|].
  destruct (fs_Remove p0 (w_fs w)) as [[e|] fsys] eqn:Hrm; [by eexists|].
  destruct (fs_Remove_None _ _ _ Hrm) as [_ ->].
  apply elem_of_cons in Hin as [->|Hin].
  - exfalso. destruct Hfail as [[e He]|[e He]].
    + fold p0 in He. congruence.
    + fold p0 in He. by rewrite Hrm in He.
  - apply IH; [done|]. simpl.
    set (p := filepath_Join (MixinOutputsDir I) (FileInfo_Name fi)) in *.
    destruct Hfail as [[e He]|[e He]]; [left|right].
    + unfold read_fails, fs_ReadFile in *. simpl.
      destruct (denied (w_fs w) OpReadFile p); [by eexists|].
      destruct (decide (p0 = p)) as [->|Hne].
      * rewrite lookup_delete_eq. by eexists.
      * rewrite lookup_delete_ne by done.
        destruct (nodes (w_fs w) !! p) as [[]|]; [done|by eexists..].
    + unfold remove_fails, fs_Remove in *. simpl.
      destruct (denied (w_fs w) OpRemove p); [by eexists|].
      destruct (decide (p0 = p)) as [->|Hne].
      * rewrite lookup_delete_eq. by eexists.
      * rewrite lookup_delete_ne by done.
        destruct (nodes (w_fs w) !! p); [done|by eexists].
Qed.

Lemma elem_of_fs_entries dir f fi :
  fi ∈ fs_entries dir f ↔
  ∃ p n, nodes f !! p = Some n ∧ base_in dir p = Some (FileInfo_Name fi) ∧
         FileInfo_IsDir fi = is_dir n.
Proof.
  unfold fs_entries. rewrite merge_sort_Permutation, list_elem_of_omap. split.
  - intros ([p n] & Hin%elem_of_map_to_list & He). unfold entry_of in He. simpl in He.
    destruct (base_in dir p) as [name|] eqn:Hb; [|done]. injection He as <-.
    by exists p, n.
  - intros (p & n & Hn & Hb & Hd). exists (p, n). split.
    + by apply elem_of_map_to_list.
    + unfold entry_of. simpl. rewrite Hb. destruct fi. simpl in *. by subst.
Qed.

Lemma fs_entries_lookup dir f fi :
  fi ∈ fs_entries dir f →
  ∃ n, nodes f !! filepath_Join dir (FileInfo_Name fi) = Some n ∧
       FileInfo_IsDir fi = is_dir n.
Proof.
  intros (p & n & Hn & Hb%base_in_Some & Hd)%elem_of_fs_entries. subst p. eauto.
Qed.

Lemma NoDup_entry_names dir (l : list (string * Node)) :
  NoDup l.*1 → NoDup (FileInfo_Name <$> omap (entry_of dir) l).
Proof.
  induction l as [|[p n] l IH]; [constructor|].
  intros [Hp Hnd]%NoDup_cons. simpl.
  unfold entry_of at 1. simpl.
  destruct (base_in dir p) as [name|] eqn:Hb; [|by apply IH].
  simpl. apply NoDup_cons. split; [|by apply IH].
  intros (fi & Hname & ([p' n'] & Hin & He)%list_elem_of_omap)%list_elem_of_fmap.
  unfold entry_of in He. simpl in He.
  destruct (base_in dir p') as [name'|] eqn:Hb'; [|done].
  injection He as <-. simpl in Hname. subst name'.
  apply base_in_Some in Hb, Hb'. subst p p'.
  apply Hp. apply list_elem_of_fmap. by eexists (_, n').
Qed.

Lemma NoDup_fs_entries dir f : NoDup (FileInfo_Name <$> fs_entries dir f).
Proof.
  unfold fs_entries. rewrite merge_sort_Permutation.
  apply NoDup_entry_names, NoDup_fst_map_to_list.
Qed.

Lemma fs_entries_sorted dir f : Sorted by_name (fs_entries dir f).
Proof.
  apply Sorted_merge_sort. intros a b. unfold by_name. apply (total String.le).
Qed.

(** A read without error: every regular file of the list is in the map with
    the contents it had, and is gone; every other path keeps its node. *)
Lemma readMixinOutputs_range_ok outfiles outs w outs' w' :
  NoDup (FileInfo_Name <$> outfiles) →
  readMixinOutputs_range I outfiles outs w = ((Some outs', None), w') →
  (∀ fi, fi ∈ outfiles → FileInfo_IsDir fi = false →
     nodes (w_fs w') !! filepath_Join (MixinOutputsDir I) (FileInfo_Name fi) = None ∧
     ∃ contents,
       nodes (w_fs w) !! filepath_Join (MixinOutputsDir I) (FileInfo_Name fi)
         = Some (File contents) ∧
       outs' !! FileInfo_Name fi = Some contents) ∧
  (∀ p, (∀ fi, fi ∈ outfiles → FileInfo_IsDir fi = false →
              p ≠ filepath_Join (MixinOutputsDir I) (FileInfo_Name fi)) →
        nodes (w_fs w') !! p = nodes (w_fs w) !! p) ∧
  (∀ name, (∀ fi, fi ∈ outfiles → FileInfo_IsDir fi = false → name ≠ FileInfo_Name fi) →
           outs' !! name = outs !! name).
Proof.
  revert outs w. induction outfiles as [|fi0 rest IH]; intros outs w Hnd.
  { intros [= <- <-]. split; [|done]. by intros fi ?%elem_of_nil. }
  rewrite fmap_cons in Hnd. apply NoDup_cons in Hnd as [Hn0 Hnd].
  rewrite readMixinOutputs_range_cons.
  destruct (FileInfo_IsDir fi0) eqn:Hd0.
  { intros H. destruct (IH _ _ Hnd H) as (H1 & H2 & H3). split; [|split].
    - intros fi [->|Hin]%elem_of_cons Hf; [congruence|]. by apply H1.
    - intros p Hp. apply H2. intros fi Hin. apply Hp. by right.
    - intros name Hp. apply H3. intros fi Hin. apply Hp. by right. }
  cbv zeta. set (p0 := filepath_Join (MixinOutputsDir I) (FileInfo_Name fi0)).
  destruct (fs_ReadFile p0 (w_fs w)) as [e|c0] eqn:Hread; [done|].
  destruct (fs_Remove p0 (w_fs w)) as [[e|] fsys] eqn:Hrm; [done|].
  destruct (fs_Remove_None _ _ _ Hrm) as [_ ->].
  apply fs_ReadFile_inr in Hread.
  intros H. destruct (IH _ _ Hnd H) as (H1 & H2 & H3).
  destruct (readMixinOutputs_range_frame _ _ _ _ _ H) as (_ & _ & _ & _ & _ & Hmono & _).
  simpl in *. split; [|split].
  - intros fi [->|Hin]%elem_of_cons Hf.
    + fold p0. split.
      * destruct (Hmono p0) as [?|Hp]; [done|]. by rewrite Hp, lookup_delete_eq.
      * exists c0. split; [done|]. rewrite H3.
        -- apply lookup_insert_eq.
        -- intros fi Hin _ Heq. apply Hn0. rewrite Heq.
           apply list_elem_of_fmap. by exists fi.
    + destruct (H1 fi Hin Hf) as (Hgone & c & Hc & Ho). split; [done|].
      exists c. split; [|done].
      destruct (decide (p0 = filepath_Join (MixinOutputsDir I) (FileInfo_Name fi)))
        as [Heq|Hne].
      * rewrite <- Heq, lookup_delete_eq in Hc. done.
      * by rewrite lookup_delete_ne in Hc.
  - intros p Hp. rewrite H2.
    + apply lookup_delete_ne. intros Heq. eapply (Hp fi0); [by left|done|done].
    + intros fi Hin. apply Hp. by right.
  - intros name Hp. rewrite H3.
    + apply lookup_insert_ne. intros Heq. eapply (Hp fi0); [by left|done|done].
    + intros fi Hin. apply Hp. by right.
Qed.

Lemma readMixinOutputs_eq w :
  readMixinOutputs I w =
  let w1 := record (EvReadDir (MixinOutputsDir I)) w in
  match fs_ReadDir (MixinOutputsDir I) (w_fs w) with
  | inl e => ((None, Some (errors_Wrapf e ("could not list " +:+ MixinOutputsDir I))), w1)
  | inr outfiles => readMixinOutputs_range I outfiles ∅ w1
  end.
Proof.
  unfold readMixinOutputs, bind, FileSystem_ReadDir, on_fs. cbv zeta.
  destruct (fs_ReadDir _ _) as [e|outfiles]; by destruct w.
Qed.

Lemma fs_ReadDir_inr dir f outfiles :
  fs_ReadDir dir f = inr outfiles → outfiles = fs_entries dir f.
Proof.
  unfold fs_ReadDir. destruct (denied f OpReadDir dir); [done|].
  destruct (nodes f !! dir) as [[]|]; [done| |done]. by intros [= <-].
Qed.

Lemma channel_files_nil f :
  (∀ fi, fi ∈ fs_entries (MixinOutputsDir I) f → FileInfo_IsDir fi = true) →
  channel_files I f = [].
Proof.
  intros H. unfold channel_files.
  destruct (filter _ _) as [|fi l] eqn:E; [done|].
  assert (Hin : fi ∈ filter (λ fi, FileInfo_IsDir fi = false)
                            (fs_entries (MixinOutputsDir I) f)).
  { rewrite E. by left. }
  apply list_elem_of_filter in Hin as [Hf Hin]. rewrite (H _ Hin) in Hf. done.
Qed.

Lemma channel_files_elem f fi :
  channel_files I f = [] → fi ∈ fs_entries (MixinOutputsDir I) f →
  FileInfo_IsDir fi = true.
Proof.
  intros Hnil Hin. destruct (FileInfo_IsDir fi) eqn:Hd; [done|]. exfalso.
  eapply (filter_nil_not_elem_of _ _ fi Hnil); done.
Qed.

(** The frame and the shape of the result of a whole read. *)
Lemma readMixinOutputs_frame w res w' :
  readMixinOutputs I w = (res, w') →
  w_rm w' = w_rm w ∧ w_Out w' = w_Out w ∧ w_Err w' = w_Err w ∧
  w_sensitive w' = w_sensitive w ∧
  denied (w_fs w') = denied (w_fs w) ∧
  (∀ p, nodes (w_fs w') !! p = None ∨ nodes (w_fs w') !! p = nodes (w_fs w) !! p) ∧
  (∃ evs, w_trace w' = (evs ++ w_trace w)%list ∧ ∀ ev, ev ∈ evs → is_read_event ev) ∧
  ((∃ outs', res = (Some outs', None)) ∨ (∃ e, res = (None, Some e))).
Proof.
  rewrite readMixinOutputs_eq. cbv zeta.
  destruct (fs_ReadDir _ _) as [e|outfiles].
  - intros [= <- <-]. repeat split; try done; eauto.
    exists [EvReadDir (MixinOutputsDir I)]. split; [done|].
    by intros ev ->%list_elem_of_singleton.
  - intros H.
    destruct (readMixinOutputs_range_frame _ _ _ _ _ H)
      as (? & ? & ? & ? & ? & ? & (evs & Ht & Hev) & ?).
    repeat split; try done.
    exists (evs ++ [EvReadDir (MixinOutputsDir I)])%list. split.
    + by rewrite Ht, <- app_assoc.
    + intros ev [?| ->%list_elem_of_singleton]%elem_of_app; [by apply Hev|done].
Qed.

(** What a read without error leaves behind. *)
Lemma readMixinOutputs_ok w outs w' :
  readMixinOutputs I w = ((Some outs, None), w') →
  channel_files I (w_fs w') = [] ∧
  (∀ fi, fi ∈ channel_files I (w_fs w) →
     ∃ contents,
       nodes (w_fs w) !! filepath_Join (MixinOutputsDir I) (FileInfo_Name fi)
         = Some (File contents) ∧
       outs !! FileInfo_Name fi = Some contents ∧
       nodes (w_fs w') !! filepath_Join (MixinOutputsDir I) (FileInfo_Name fi) = None) ∧
  (∀ p, (∀ name, p ≠ filepath_Join (MixinOutputsDir I) name) ∨
        nodes (w_fs w) !! p = Some Directory →
        nodes (w_fs w') !! p = nodes (w_fs w) !! p).
Proof.
  intros Hrun.
  pose proof (readMixinOutputs_frame _ _ _ Hrun) as (_ & _ & _ & _ & _ & Hmono & _).
  rewrite readMixinOutputs_eq in Hrun. cbv zeta in Hrun.
  destruct (fs_ReadDir _ _) as [e|outfiles] eqn:Hdir; [done|].
  apply fs_ReadDir_inr in Hdir. subst outfiles.
  destruct (readMixinOutputs_range_ok _ _ _ _ _ (NoDup_fs_entries _ _) Hrun)
    as (H1 & H2 & _).
  simpl in *. split; [|split].
  - apply channel_files_nil. intros fi (p & n & Hn & Hb & Hd)%elem_of_fs_entries.
    destruct (FileInfo_IsDir fi) eqn:Hfi; [done|]. exfalso.
    pose proof (base_in_Some _ _ _ Hb) as ->.
    destruct (Hmono (filepath_Join (MixinOutputsDir I) (FileInfo_Name fi))) as [Hp|Hp];
      [congruence|].
    assert (Hin : fi ∈ fs_entries (MixinOutputsDir I) (w_fs w)).
    { apply elem_of_fs_entries. eexists _, n. rewrite <- Hp. by rewrite Hfi. }
    destruct (H1 fi Hin Hfi) as [Hgone _]. congruence.
  - intros fi [Hf Hin]%list_elem_of_filter.
    destruct (H1 fi Hin Hf) as (Hgone & c & Hc & Ho). by exists c.
  - intros p Hp. apply H2. intros fi Hin Hf Heq.
    destruct Hp as [Hp|Hp]; [by eapply Hp|].
    destruct (H1 fi Hin Hf) as (_ & c & Hc & _). congruence.
Qed.

End Channel.

(** ** One step *)

Section Step.

Variable I : Imports.

(** The binder does not put regular files into the mixin outputs directory,
    provided the files of the output directory are not entries of it. *)
Lemma applyStepOutputsToBundle_channel outs w r w' :
  (∀ name, base_in (MixinOutputsDir I) (filepath_Join (BundleOutputsDir I) name) = None) →
  channel_files I (w_fs w) = [] →
  applyStepOutputsToBundle I outs w = (r, w') →
  channel_files I (w_fs w') = [].
Proof.
  intros Hapart Hclear. unfold applyStepOutputsToBundle, bind.
  rewrite createOutputsDir_eq. cbv zeta.
  destruct (fs_MkdirAll _ _) as [[e|] fsys] eqn:Hmk.
  { intros [= <- <-]. simpl. by rewrite (fs_MkdirAll_Some _ _ _ _ Hmk). }
  intros Hrun.
  destruct (applyStepOutputsToBundle_range_inv _ _ _ _ _ Hrun)
    as (_ & _ & _ & evs & _ & Hev & _ & Hfr).
  apply channel_files_nil. intros fi (p & n & Hn & Hb & Hd)%elem_of_fs_entries.
  rewrite Hfr in Hn.
  - simpl in Hn. rewrite (fs_MkdirAll_None _ _ _ Hmk) in Hn. simpl in Hn.
    destruct (decide (BundleOutputsDir I = p)) as [<-|Hne].
    + rewrite lookup_insert_eq in Hn. injection Hn as <-. by rewrite Hd.
    + rewrite lookup_insert_ne in Hn by done.
      apply (channel_files_elem I (w_fs w)); [done|].
      apply elem_of_fs_entries. by exists p, n.
  - intros v (k' & v' & d' & _ & _ & _ & Heq)%Hev. injection Heq as -> _.
    by rewrite Hapart in Hb.
Qed.

(** C9: after a step that completes without error the mixin outputs
    directory holds no regular file.  The outputs were read in the world
    [w1] in which the mixin returned; every regular file that was an entry
    of the directory then is in the map with its contents and is gone after
    the read; directories and paths that are not entries of the directory
    keep their nodes.  The files of the bundle output directory are assumed
    not to be entries of the mixin outputs directory. *)
Theorem executeStep_clears_channel step w w' :
  (∀ name, base_in (MixinOutputsDir I) (filepath_Join (BundleOutputsDir I) name) = None) →
  executeStep I (Some step) w = (None, w') →
  channel_files I (w_fs w') = [] ∧
  ∃ w1 outs w2,
    executeStep_invoke I step w = (None, w1) ∧
    readMixinOutputs I w1 = ((Some outs, None), w2) ∧
    channel_files I (w_fs w2) = [] ∧
    (∀ fi, fi ∈ channel_files I (w_fs w1) →
       ∃ contents,
         nodes (w_fs w1) !! filepath_Join (MixinOutputsDir I) (FileInfo_Name fi)
           = Some (File contents) ∧
         outs !! FileInfo_Name fi = Some contents ∧
         nodes (w_fs w2) !! filepath_Join (MixinOutputsDir I) (FileInfo_Name fi) = None) ∧
    (∀ p, (∀ name, p ≠ filepath_Join (MixinOutputsDir I) name) ∨
          nodes (w_fs w1) !! p = Some Directory →
          nodes (w_fs w2) !! p = nodes (w_fs w1) !! p).
Proof.
  intros Hapart. rewrite executeStep_phases.
  destruct (executeStep_invoke I step w) as [[e|] w1] eqn:Hinv; [done|].
  unfold executeStep_collect, bind.
  destruct (readMixinOutputs I w1) as [[outs err] w2] eqn:Hread.
  destruct (readMixinOutputs_frame _ _ _ _ Hread)
    as (_ & _ & _ & _ & _ & _ & _ & [[outs' Hres]|[e Hres]]);
    injection Hres as -> ->; [|done].
  destruct (readMixinOutputs_ok _ _ _ _ Hread) as (Hclear & Hall & Hkeep).
  unfold RuntimeManifest_ApplyStepOutputs. simpl.
  destruct (ApplyStepOutputs I outs' (w_rm w2)) as [[e|] m]; [done|].
  intros Hbind. split.
  - by eapply applyStepOutputsToBundle_channel in Hbind.
  - by exists w1, outs', w2.
Qed.

(** C6: one file of the mixin outputs directory that cannot be read or
    removed fails the whole read; a read that fails returns the nil map, and
    the step then ends with the wrapped error in the world the read left:
    the manifest is as it was before the read and the only calls made since
    are reads and removals, so nothing was handed to [ApplyStepOutputs] or to
    the binder. *)
Theorem readMixinOutputs_all_or_nothing step w0 w :
  executeStep_invoke I step w0 = (None, w) →
  (∀ outfiles fi,
     fs_ReadDir (MixinOutputsDir I) (w_fs w) = inr outfiles →
     fi ∈ outfiles → FileInfo_IsDir fi = false →
     read_fails (filepath_Join (MixinOutputsDir I) (FileInfo_Name fi)) (w_fs w) ∨
     remove_fails (filepath_Join (MixinOutputsDir I) (FileInfo_Name fi)) (w_fs w) →
     ∃ e, (readMixinOutputs I w).1 = (None, Some e)) ∧
  (∀ outs e w',
     readMixinOutputs I w = ((outs, Some e), w') →
     outs = None ∧
     executeStep I (Some step) w0
       = (Some (errors_Wrap e "could not read step outputs"), w') ∧
     w_rm w' = w_rm w ∧
     ∃ evs, w_trace w' = (evs ++ w_trace w)%list ∧ ∀ ev, ev ∈ evs → is_read_event ev).
Proof.
  intros Hinv. split.
  - intros outfiles fi Hdir Hin Hf Hfail. rewrite readMixinOutputs_eq, Hdir. cbv zeta.
    by eapply readMixinOutputs_range_fails.
  - intros outs e w' Hread.
    destruct (readMixinOutputs_frame _ _ _ _ Hread)
      as (Hrm & _ & _ & _ & _ & _ & Hev & [[outs' Hres]|[e' Hres]]);
      injection Hres as ->; [done|].
    split; [done|]. split; [|done].
    rewrite executeStep_phases, Hinv. unfold executeStep_collect, bind.
    by rewrite Hread.
Qed.

End Step.

(** ** The marshalling error *)

Section Marshal.

Variable I : Imports.

Lemma applyStepOutputsToBundle_trace outs w r w' :
  applyStepOutputsToBundle I outs w = (r, w') →
  ∃ evs, w_trace w' = (evs ++ w_trace w)%list.
Proof.
  unfold applyStepOutputsToBundle, bind. rewrite createOutputsDir_eq. cbv zeta.
  destruct (fs_MkdirAll _ _) as [[e|] fsys].
  - intros [= <- <-]. by exists [EvMkdirAll (BundleOutputsDir I)].
  - intros (_ & _ & _ & evs & Ht & _)%applyStepOutputsToBundle_range_inv.
    exists (evs ++ [EvMkdirAll (BundleOutputsDir I)])%list.
    by rewrite Ht, <- app_assoc.
Qed.

Lemma executeStep_collect_trace w r w' :
  executeStep_collect I w = (r, w') →
  ∃ evs, w_trace w' = (evs ++ w_trace w)%list.
Proof.
  unfold executeStep_collect, bind.
  destruct (readMixinOutputs I w) as [[outs err] w2] eqn:Hread.
  destruct (readMixinOutputs_frame _ _ _ _ Hread)
    as (_ & _ & _ & _ & _ & _ & (evs & Ht & _) & _).
  destruct err as [e|].
  { intros [= <- <-]. by exists evs. }
  unfold RuntimeManifest_ApplyStepOutputs.
  destruct (ApplyStepOutputs I _ (w_rm w2)) as [[e|] m].
  { intros [= <- <-]. exists (EvApplyStepOutputs (default ∅ outs) :: evs). simpl.
    by rewrite Ht. }
  intros [evs' Ht']%applyStepOutputsToBundle_trace.
  exists (evs' ++ EvApplyStepOutputs (default ∅ outs) :: evs)%list.
  rewrite Ht'. simpl. by rewrite Ht, <- app_assoc.
Qed.

(** C10: the error of [yaml.Marshal] is dropped.  Once the step is resolved
    the mixin is run with the bytes that [yaml.Marshal] gave, whatever error
    came with them; and [executeStep] does the same with any marshaller that
    gives the same bytes, in particular with one that never fails. *)
Theorem executeStep_ignores_marshal_error step w step' m f :
  ResolveStep I step (w_rm w) (w_fs w) = (None, step', m) →
  (∀ input, (f input).1 = (yaml_Marshal I input).1) →
  let input := mkActionInput (Action m) [step'] in
  let cmd := mkCommandOptions (Action m) (yaml_Marshal I input).1 true in
  EvMixinRun (GetMixinName step') cmd ∈ w_trace (executeStep I (Some step) w).2 ∧
  executeStep (with_yaml_Marshal I f) (Some step) w = executeStep I (Some step) w.
Proof.
  intros Hres Hf. split.
  - rewrite executeStep_phases. unfold executeStep_invoke, bind.
    unfold RuntimeManifest_ResolveStep. rewrite Hres.
    destruct (if Nat.ltb 0 _ then _ else _) as [[] w2] eqn:Hprint.
    assert (Hw2 : w_rm w2 = m).
    { destruct (Nat.ltb 0 _); by injection Hprint as <-. }
    unfold get_rm, SetSensitiveValues, PackageManager_Run. simpl. rewrite Hw2.
    destruct (mixins_Run I _ _ _) as [[[[e|] fsys] out] errs]; simpl; [by left|].
    match goal with |- context [executeStep_collect I ?w0] =>
      destruct (executeStep_collect I w0) as [r w'] eqn:Hc end.
    apply executeStep_collect_trace in Hc as [evs Hevs]. simpl. rewrite Hevs. simpl.
    apply elem_of_app. right. by left.
  - unfold executeStep, bind, RuntimeManifest_ResolveStep. simpl.
    destruct (ResolveStep I step (w_rm w) (w_fs w)) as [[[e|] s1] m1]; [done|].
    destruct (if Nat.ltb 0 _ then _ else _) as [[] w2].
    unfold get_rm, SetSensitiveValues. simpl. by rewrite Hf.
Qed.

End Marshal.

(** ** The driver *)

Section Driver.

Variable I : Imports.

Lemma executeStep_invoke_trace step w r w' :
  executeStep_invoke I step w = (r, w') →
  ∃ evs, w_trace w' = (evs ++ w_trace w)%list.
Proof.
  unfold executeStep_invoke, bind, RuntimeManifest_ResolveStep.
  destruct (ResolveStep I step (w_rm w) (w_fs w)) as [[[e|] s1] m1].
  { intros [= <- <-]. by exists [EvResolveStep step]. }
  destruct (if Nat.ltb 0 _ then _ else _) as [[] w2] eqn:Hprint.
  assert (Hw2 : w_trace w2 = EvResolveStep step :: w_trace w).
  { destruct (Nat.ltb 0 _); by injection Hprint as <-. }
  unfold get_rm, SetSensitiveValues, PackageManager_Run. simpl.
  destruct (mixins_Run I _ _ _) as [[[[e|] fsys] out] errs]; intros [= <- <-]; simpl; rewrite Hw2;
    by eexists [_; _; _].
Qed.

Lemma executeStep_trace step w r w' :
  executeStep I step w = (r, w') →
  ∃ evs, w_trace w' = (evs ++ w_trace w)%list.
Proof.
  destruct step as [step|]; [|intros [= <- <-]; by exists []].
  rewrite executeStep_phases.
  destruct (executeStep_invoke I step w) as [[e|] w1] eqn:Hinv;
    apply executeStep_invoke_trace in Hinv as [evs Ht].
  - intros [= <- <-]. by exists evs.
  - intros [evs' Ht']%executeStep_collect_trace.
    exists (evs' ++ evs)%list. by rewrite Ht', Ht, <- app_assoc.
Qed.

Lemma Execute_range_trace steps w r w' :
  Execute_range I steps w = (r, w') →
  ∃ evs, w_trace w' = (evs ++ w_trace w)%list.
Proof.
  revert w. induction steps as [|step rest IH]; intros w; simpl.
  { intros [= <- <-]. by exists []. }
  unfold bind. destruct (executeStep I step w) as [[e|] w1] eqn:Hs;
    apply executeStep_trace in Hs as [evs Ht].
  - intros [= <- <-]. by exists evs.
  - intros [evs' Ht']%IH. exists (evs' ++ evs)%list. by rewrite Ht', Ht, <- app_assoc.
Qed.

(** Steps that all return nil are run to the end, and the loop goes on with
    the rest from the world they leave. *)
Lemma Execute_range_app pre rest w wa :
  Execute_range I pre w = (None, wa) →
  Execute_range I (pre ++ rest) w = Execute_range I rest wa.
Proof.
  revert w. induction pre as [|step pre IH]; intros w; simpl.
  { by intros [= <-]. }
  unfold bind. destruct (executeStep I step w) as [[e|] w1]; [done|]. apply IH.
Qed.

Lemma Execute_range_first_error steps w :
  first_error I steps w (Execute_range I steps w).1.
Proof.
  revert w. induction steps as [|step rest IH]; intros w; simpl.
  { constructor. }
  unfold bind. destruct (executeStep I step w) as [[e|] w1] eqn:Hs; simpl.
  - by econstructor.
  - eapply first_error_later; [done|]. apply IH.
Qed.

(** The calls of the resolver are [MkdirAll] and [CopyFile]. *)
Lemma applyUnboundBundleOutputs_events w r w' :
  applyUnboundBundleOutputs I w = (r, w') →
  w_rm w' = w_rm w ∧ w_Err w' = w_Err w ∧
  ∃ evs, w_trace w' = (evs ++ w_trace w)%list ∧ ∀ ev, ev ∈ evs → is_resolver_event ev.
Proof.
  rewrite applyUnboundBundleOutputs_eq. cbv zeta.
  destruct (fs_MkdirAll _ _) as [[e|] fsys].
  { intros [= <- <-]. repeat split. exists [EvMkdirAll (BundleOutputsDir I)].
    split; [done|]. by intros ev ->%list_elem_of_singleton. }
  set (w3 := if Nat.ltb 0 _ then _ else _).
  assert (Hw3 : w_rm w3 = w_rm w ∧ w_Err w3 = w_Err w ∧
                w_trace w3 = EvMkdirAll (BundleOutputsDir I) :: w_trace w).
  { unfold w3. by destruct (Nat.ltb 0 _). }
  destruct Hw3 as (Hrm3 & Herr3 & Htr3).
  destruct (applyUnboundBundleOutputs_range I _ _ _ w3) as [bigErr w4] eqn:Hrun.
  intros [= _ <-].
  destruct (applyUnboundBundleOutputs_range_inv _ _ _ _ _ _ _ Hrun)
    as (Hrm & _ & Herr & evs & Ht & Hev & _).
  split; [congruence|]. split; [congruence|].
  exists (evs ++ [EvMkdirAll (BundleOutputsDir I)])%list. split.
  - by rewrite Ht, Htr3, <- app_assoc.
  - intros ev [(k & d & _ & _ & _ & _ & ->)%Hev| ->%list_elem_of_singleton]%elem_of_app;
      done.
Qed.

Lemma Execute_finish_eq executionErr w :
  Execute_finish I executionErr w =
  let w3 := log_resolver (applyUnboundBundleOutputs I w) in
  (executionErr,
   match executionErr with
   | None => print_Out "execution completed successfully!" w3
   | Some _ => w3
   end).
Proof.
  unfold Execute_finish, log_resolver, bind.
  destruct (applyUnboundBundleOutputs I w) as [[e|] w2]; by destruct executionErr.
Qed.

Lemma Execute_setup_eq rm w :
  Execute_setup I rm w =
  match Execute_prepare I rm w with
  | (Some e, w0) => (Some e, w0)
  | (None, w0) => Execute_images I w0
  end.
Proof.
  unfold Execute_setup, bind. by destruct (Execute_prepare I rm w) as [[e|] w0].
Qed.

(** C2: when the set-up has succeeded and step [k] is the first step that
    returns an error, the loop ends in the world [wb] that step [k] left,
    whatever steps follow it; [Execute] returns that error from the world of
    one pass of the resolver over [wb], and every call made after [wb] is a
    call of the resolver, none a resolution, a mixin run or an output read.
    When every step returns nil the resolver likewise runs once, from the
    world the last step left. *)
Theorem Execute_stops_at_first_failure rm w w1 :
  Execute_setup I rm w = (None, w1) →
  (∀ pre step post wa e wb,
     GetSteps (w_rm w1) = (pre ++ step :: post)%list →
     Execute_range I pre w1 = (None, wa) →
     executeStep I step wa = (Some e, wb) →
     Execute_range I (pre ++ step :: post)%list w1 = (Some e, wb) ∧
     Execute I rm w = (Some e, log_resolver (applyUnboundBundleOutputs I wb)) ∧
     ∃ evs, w_trace (Execute I rm w).2 = (evs ++ w_trace wb)%list ∧
            ∀ ev, ev ∈ evs → is_resolver_event ev ∧ ¬ is_step_event ev) ∧
  (∀ wb,
     Execute_range I (GetSteps (w_rm w1)) w1 = (None, wb) →
     Execute I rm w =
       (None, print_Out "execution completed successfully!"
                (log_resolver (applyUnboundBundleOutputs I wb)))).
Proof.
  intros Hsetup. split.
  - intros pre step post wa e wb Hsteps Hpre Hstep.
    assert (Hloop : Execute_range I (pre ++ step :: post)%list w1 = (Some e, wb)).
    { rewrite (Execute_range_app _ _ _ _ Hpre). simpl. unfold bind. by rewrite Hstep. }
    assert (Hexec : Execute I rm w
                    = (Some e, log_resolver (applyUnboundBundleOutputs I wb))).
    { rewrite Execute_phases, Hsetup, Hsteps, Hloop. apply Execute_finish_eq. }
    split; [done|]. split; [done|].
    rewrite Hexec. simpl. unfold log_resolver.
    destruct (applyUnboundBundleOutputs I wb) as [r w2] eqn:Hres.
    destruct (applyUnboundBundleOutputs_events _ _ _ Hres) as (_ & _ & evs & Ht & Hev).
    exists evs. split.
    + simpl. by destruct r.
    + intros ev Hin. specialize (Hev ev Hin).
      destruct ev; simpl in *; try done; split; tauto.
  - intros wb Hloop. rewrite Execute_phases, Hsetup, Hloop. apply Execute_finish_eq.
Qed.

(** C3: when the set-up has succeeded, [Execute] returns the first error of
    the steps, or nil when there is none; the result of the resolver only
    shows on [r.Err], where a non-nil error is printed. *)
Theorem Execute_returns_step_error rm w w1 :
  Execute_setup I rm w = (None, w1) →
  let steps := GetSteps (w_rm w1) in
  let ran := Execute_range I steps w1 in
  let resolved := applyUnboundBundleOutputs I ran.2 in
  (Execute I rm w).1 = ran.1 ∧
  first_error I steps w1 (Execute I rm w).1 ∧
  w_Err (Execute I rm w).2 =
    match resolved.1 with
    | Some e => error_Error e :: w_Err ran.2
    | None => w_Err ran.2
    end.
Proof.
  intros Hsetup steps ran resolved.
  assert (Hexec : Execute I rm w = Execute_finish I ran.1 ran.2).
  { rewrite Execute_phases, Hsetup. fold steps. fold ran. by destruct ran. }
  rewrite Hexec, Execute_finish_eq. cbv zeta. simpl. split; [done|]. split.
  - apply Execute_range_first_error.
  - fold resolved. unfold log_resolver.
    destruct resolved as [r w3] eqn:Hres.
    destruct (applyUnboundBundleOutputs_events _ _ _ Hres) as (_ & Herr & _).
    simpl. destruct r, (ran.1); simpl; by rewrite Herr.
Qed.

Lemma Execute_finish_trace executionErr w r w' :
  Execute_finish I executionErr w = (r, w') →
  ∃ evs, w_trace w' = (evs ++ w_trace w)%list.
Proof.
  rewrite Execute_finish_eq. cbv zeta. unfold log_resolver.
  destruct (applyUnboundBundleOutputs I w) as [err w2] eqn:Hres.
  destruct (applyUnboundBundleOutputs_events _ _ _ Hres) as (_ & _ & evs & Ht & _).
  intros [= _ <-]. exists evs. by destruct err, executionErr.
Qed.

Lemma getImageMappingFiles_eq w :
  getImageMappingFiles I w =
  let w1 := record (EvReadFile "/cnab/bundle.json") w in
  match fs_ReadFile "/cnab/bundle.json" (w_fs w) with
  | inl e => (inl (errors_Wrap e "couldn't read runtime bundle.json"), w1)
  | inr bunBytes =>
      match LoadData I bunBytes with
      | inl e => (inl (errors_Wrap e "couldn't load runtime bundle.json"), w1)
      | inr rtb =>
          let w2 := record (EvStat "/cnab/app/relocation-mapping.json") w1 in
          match fs_Stat "/cnab/app/relocation-mapping.json" (w_fs w) with
          | inl _ => (inr (rtb, ∅), w2)
          | inr _ =>
              let w3 := record (EvReadFile "/cnab/app/relocation-mapping.json") w2 in
              match fs_ReadFile "/cnab/app/relocation-mapping.json" (w_fs w) with
              | inl e => (inl (errors_Wrap e "couldn't read relocation file"), w3)
              | inr reloBytes =>
                  match json_Unmarshal I reloBytes with
                  | inl e => (inl (errors_Wrap e "couldn't load relocation file"), w3)
                  | inr reloMap => (inr (rtb, reloMap), w3)
                  end
              end
          end
      end
  end.
Proof.
  unfold getImageMappingFiles, bind, FileSystem_ReadFile, FileSystem_Stat, on_fs.
  cbv zeta. destruct w as [f m env sens out err tr]. simpl.
  destruct (fs_ReadFile "/cnab/bundle.json" f) as [e|bunBytes]; [done|].
  destruct (LoadData I bunBytes) as [e|rtb]; [done|]. simpl.
  destruct (fs_Stat "/cnab/app/relocation-mapping.json" f); [done|]. simpl.
  destruct (fs_ReadFile "/cnab/app/relocation-mapping.json" f) as [e|reloBytes]; [done|].
  by destruct (json_Unmarshal I reloBytes).
Qed.

Lemma Execute_image_error rm w0 w e w1 :
  Execute_prepare I rm w0 = (None, w) →
  getImageMappingFiles I w = (inl e, w1) →
  Execute I rm w0 = (Some e, w1).
Proof.
  intros Hprep Hfiles. rewrite Execute_phases, Execute_setup_eq, Hprep.
  unfold Execute_images, bind. by rewrite Hfiles.
Qed.

Lemma Execute_image_maps rm w0 w rtb reloMap w1 :
  Execute_prepare I rm w0 = (None, w) →
  getImageMappingFiles I w = (inr (rtb, reloMap), w1) →
  EvResolveImages rtb reloMap ∈ w_trace (Execute I rm w0).2.
Proof.
  intros Hprep Hfiles. rewrite Execute_phases, Execute_setup_eq, Hprep.
  unfold Execute_images, bind. rewrite Hfiles.
  unfold RuntimeManifest_ResolveImages.
  destruct (ResolveImages I rtb reloMap (w_rm w1)) as [[e|] m]; simpl; [by left|].
  unfold FileSystem_MkdirAll, on_fs. simpl.
  destruct (fs_MkdirAll _ _) as [[e|] fsys]; simpl; [right; by left|].
  match goal with |- context [Execute_range I ?l ?w2] =>
    destruct (Execute_range I l w2) as [r w3] eqn:Hloop end.
  apply Execute_range_trace in Hloop as [evs Ht].
  destruct (Execute_finish I r w3) as [r' w4] eqn:Hfin.
  apply Execute_finish_trace in Hfin as [evs' Ht'].
  simpl. rewrite Ht', Ht. simpl.
  apply elem_of_app. right. apply elem_of_app. right. right. by left.
Qed.

(** C7, as the code has it: with the bundle metadata read and loaded, a
    relocation file on which [Stat] fails is no error and gives the empty
    relocation map, with which [Execute] resolves the images; a file that is
    not there is one such case, any other failure of [Stat] is another.  The
    metadata that cannot be read or loaded, and a relocation file on which
    [Stat] succeeds and that cannot be read or parsed, give an error.  In
    [Execute] that error is returned at once, from the world it was found
    in, and a map that was loaded is the one the images are resolved with. *)
Theorem getImageMappingFiles_relocation w :
  (∀ bunBytes rtb e,
     fs_ReadFile "/cnab/bundle.json" (w_fs w) = inr bunBytes →
     LoadData I bunBytes = inr rtb →
     fs_Stat "/cnab/app/relocation-mapping.json" (w_fs w) = inl e →
     (getImageMappingFiles I w).1 = inr (rtb, ∅) ∧
     ∀ rm w0, Execute_prepare I rm w0 = (None, w) →
              EvResolveImages rtb ∅ ∈ w_trace (Execute I rm w0).2) ∧
  (nodes (w_fs w) !! "/cnab/app/relocation-mapping.json" = None →
     ∃ e, fs_Stat "/cnab/app/relocation-mapping.json" (w_fs w) = inl e) ∧
  (∀ e,
     fs_ReadFile "/cnab/bundle.json" (w_fs w) = inl e →
     (getImageMappingFiles I w).1
       = inl (errors_Wrap e "couldn't read runtime bundle.json")) ∧
  (∀ bunBytes e,
     fs_ReadFile "/cnab/bundle.json" (w_fs w) = inr bunBytes →
     LoadData I bunBytes = inl e →
     (getImageMappingFiles I w).1
       = inl (errors_Wrap e "couldn't load runtime bundle.json")) ∧
  (∀ bunBytes rtb fi e,
     fs_ReadFile "/cnab/bundle.json" (w_fs w) = inr bunBytes →
     LoadData I bunBytes = inr rtb →
     fs_Stat "/cnab/app/relocation-mapping.json" (w_fs w) = inr fi →
     fs_ReadFile "/cnab/app/relocation-mapping.json" (w_fs w) = inl e →
     (getImageMappingFiles I w).1 = inl (errors_Wrap e "couldn't read relocation file")) ∧
  (∀ bunBytes rtb fi reloBytes e,
     fs_ReadFile "/cnab/bundle.json" (w_fs w) = inr bunBytes →
     LoadData I bunBytes = inr rtb →
     fs_Stat "/cnab/app/relocation-mapping.json" (w_fs w) = inr fi →
     fs_ReadFile "/cnab/app/relocation-mapping.json" (w_fs w) = inr reloBytes →
     json_Unmarshal I reloBytes = inl e →
     (getImageMappingFiles I w).1 = inl (errors_Wrap e "couldn't load relocation file")) ∧
  (∀ rm w0 e w1,
     Execute_prepare I rm w0 = (None, w) →
     getImageMappingFiles I w = (inl e, w1) →
     Execute I rm w0 = (Some e, w1)) ∧
  (∀ rm w0 rtb reloMap w1,
     Execute_prepare I rm w0 = (None, w) →
     getImageMappingFiles I w = (inr (rtb, reloMap), w1) →
     EvResolveImages rtb reloMap ∈ w_trace (Execute I rm w0).2).
Proof.
  split; [|split; [|split; [|split; [|split; [|split; [|split]]]]]].
  - intros bunBytes rtb e Hread Hload Hstat.
    assert (Hfiles : (getImageMappingFiles I w).1 = inr (rtb, ∅))
      by by rewrite getImageMappingFiles_eq, Hread, Hload, Hstat.
    split; [done|]. intros rm w0 Hprep.
    destruct (getImageMappingFiles I w) as [r w1] eqn:Hrun. simpl in Hfiles. subst r.
    by eapply Execute_image_maps.
  - intros Hnone. unfold fs_Stat. rewrite Hnone.
    destruct (denied (w_fs w) OpStat _); eauto.
  - intros e Hread. by rewrite getImageMappingFiles_eq, Hread.
  - intros bunBytes e Hread Hload. by rewrite getImageMappingFiles_eq, Hread, Hload.
  - intros bunBytes rtb fi e Hread Hload Hstat Hrelo.
    by rewrite getImageMappingFiles_eq, Hread, Hload, Hstat, Hrelo.
  - intros bunBytes rtb fi reloBytes e Hread Hload Hstat Hrelo Hparse.
    by rewrite getImageMappingFiles_eq, Hread, Hload, Hstat, Hrelo, Hparse.
  - intros rm w0 e w1. apply Execute_image_error.
  - intros rm w0 rtb reloMap w1. apply Execute_image_maps.
Qed.

End Driver.

(** ** Runs of the concrete bundle *)

Lemma keyed_by_name (defs : list OutputDefinition) k d :
  (list_to_map (map (λ d, (Name d, d)) defs) : gmap string OutputDefinition) !! k = Some d →
  Name d = k.
Proof.
  intros H%elem_of_list_to_map_2. apply list_elem_of_fmap in H as (d' & [= -> ->] & _).
  done.
Qed.

(** C1: two declared outputs with paths that are not on the disk and that
    no step produced.  Both copies are attempted and both fail, neither file
    is in the output directory, and the resolver returns nil: the failures
    are reported nowhere. *)
Theorem applyUnboundBundleOutputs_drops_copy_errors :
  w_trace (applyUnboundBundleOutputs Demo.imports Demo.missing_files).2
    = [EvCopyFile "/cnab/app/tfstate" "/cnab/app/outputs/tfstate";
       EvCopyFile "/cnab/app/logs" "/cnab/app/outputs/logs";
       EvMkdirAll "/cnab/app/outputs"] ∧
  (fs_CopyFile "/cnab/app/tfstate" "/cnab/app/outputs/tfstate"
     (w_fs (applyUnboundBundleOutputs Demo.imports Demo.missing_files).2)).1
    = Some (errorString "stat /cnab/app/tfstate: no such file or directory") ∧
  (fs_CopyFile "/cnab/app/logs" "/cnab/app/outputs/logs"
     (w_fs (applyUnboundBundleOutputs Demo.imports Demo.missing_files).2)).1
    = Some (errorString "stat /cnab/app/logs: no such file or directory") ∧
  nodes (w_fs (applyUnboundBundleOutputs Demo.imports Demo.missing_files).2)
    !! "/cnab/app/outputs/tfstate" = None ∧
  nodes (w_fs (applyUnboundBundleOutputs Demo.imports Demo.missing_files).2)
    !! "/cnab/app/outputs/logs" = None ∧
  (applyUnboundBundleOutputs Demo.imports Demo.missing_files).1 = None.
Proof. repeat split; vm_compute; reflexivity. Qed.

(** The same for every world: the resolver returns nil whenever its output
    directory could be made, whatever the copies did. *)
Lemma applyUnboundBundleOutputs_nil I w :
  (fs_MkdirAll (BundleOutputsDir I) (w_fs w)).1 = None →
  (applyUnboundBundleOutputs I w).1 = None.
Proof.
  intros H. rewrite applyUnboundBundleOutputs_result.
  by destruct (fs_MkdirAll _ _) as [[e|] fsys].
Qed.

(** C5: the resolver overwrites an output that a step has set.  The step
    of this bundle produced [kubeconfig] with the empty value, which the
    bookkeeping holds and the binder stored; the guard of the resolver
    compares the value with the empty string, takes the output for one that
    no step has set, and copies the file of the declared path over the stored
    value. *)
Theorem resolver_overwrites_empty_output :
  GetOutputs (w_rm Demo.after_touch) !! "kubeconfig" = Some "" ∧
  nodes (w_fs Demo.after_touch) !! "/cnab/app/outputs/kubeconfig" = Some (File "") ∧
  w_trace (applyUnboundBundleOutputs Demo.imports Demo.after_touch).2
    = (EvCopyFile "/root/.kube/config" "/cnab/app/outputs/kubeconfig"
       :: EvMkdirAll "/cnab/app/outputs" :: w_trace Demo.after_touch) ∧
  nodes (w_fs (applyUnboundBundleOutputs Demo.imports Demo.after_touch).2)
    !! "/cnab/app/outputs/kubeconfig" = Some (File "apiVersion: v1").
Proof. repeat split; vm_compute; reflexivity. Qed.

(** C3 fails as stated: this bundle has no step, so no step fails, and the
    bundle metadata is missing; [Execute] returns the error of the set-up. *)
Lemma Execute_returns_setup_error :
  GetSteps Cases.no_steps = [] ∧
  first_error Demo.imports (GetSteps Cases.no_steps) Cases.no_bundle None ∧
  (Execute Demo.imports Cases.no_steps Cases.no_bundle).1 = Some Cases.bundle_error.
Proof.
  split; [reflexivity|]. split; [constructor|]. vm_compute. reflexivity.
Qed.

(** C7 fails as stated: the relocation file of this disk is there and every
    operation on it is refused, the read as well as [Stat]; the image files
    are loaded without error, with the empty map, and [Execute] goes on to
    resolve the images and returns nil. *)
Lemma unreadable_relocation_file_is_ignored :
  nodes (w_fs (Cases.with_relocation "{}" Cases.locked)) !! Cases.relocation
    = Some (File "{}") ∧
  fs_ReadFile Cases.relocation (w_fs (Cases.with_relocation "{}" Cases.locked))
    = inl (errorString "open /cnab/app/relocation-mapping.json: permission denied") ∧
  (getImageMappingFiles Demo.imports (Cases.with_relocation "{}" Cases.locked)).1
    = inr (mkBundle "{}", ∅) ∧
  (Execute Demo.imports Cases.no_steps (Cases.with_relocation "{}" Cases.locked)).1
    = None.
Proof. repeat split; vm_compute; reflexivity. Qed.

Lemma applyStepOutputsToBundle_scope_witness :
  (applyStepOutputsToBundle Demo.imports Demo.produced
     (Demo.world_of Demo.install_db [])).1 = None ∧
  nodes (w_fs (applyStepOutputsToBundle Demo.imports Demo.produced
                 (Demo.world_of Demo.install_db [])).2)
    !! "/cnab/app/outputs/dbPassword" = Some (File "s3cret") ∧
  nodes (w_fs (applyStepOutputsToBundle Demo.imports Demo.produced
                 (Demo.world_of Demo.upgrade_db [])).2)
    !! "/cnab/app/outputs/dbPassword" = None.
Proof.
  assert (Hnil : (applyStepOutputsToBundle Demo.imports Demo.produced
                    (Demo.world_of Demo.install_db [])).1 = None).
  { destruct (applyStepOutputsToBundle_scope Demo.imports Demo.produced
                (Demo.world_of Demo.install_db [])
                (applyStepOutputsToBundle Demo.imports Demo.produced
                   (Demo.world_of Demo.install_db [])).1
                (applyStepOutputsToBundle Demo.imports Demo.produced
                   (Demo.world_of Demo.install_db [])).2)
      as (evs & _ & _ & Htotal).
    - reflexivity.
    - apply (keyed_by_name [Demo.dbHost; Demo.dbPassword]).
    - vm_compute. reflexivity.
    - apply Htotal; [vm_compute; reflexivity|].
      intros name value def _ _ _. split; [reflexivity|]. simpl.
      by rewrite lookup_empty. }
  split; [exact Hnil|]. split.
  - destruct (applyStepOutputsToBundle_scope Demo.imports Demo.produced
                (Demo.world_of Demo.install_db [])
                (applyStepOutputsToBundle Demo.imports Demo.produced
                   (Demo.world_of Demo.install_db [])).1
                (applyStepOutputsToBundle Demo.imports Demo.produced
                   (Demo.world_of Demo.install_db [])).2)
      as (evs & _ & H & _).
    + reflexivity.
    + apply (keyed_by_name [Demo.dbHost; Demo.dbPassword]).
    + vm_compute. reflexivity.
    + destruct (H "dbPassword" "s3cret" Demo.dbPassword) as (_ & Hwritten & _).
      * vm_compute. reflexivity.
      * vm_compute. reflexivity.
      * apply Hwritten; [exact Hnil|]. right. left.
  - destruct (applyStepOutputsToBundle_scope Demo.imports Demo.produced
                (Demo.world_of Demo.upgrade_db [])
                (applyStepOutputsToBundle Demo.imports Demo.produced
                   (Demo.world_of Demo.upgrade_db [])).1
                (applyStepOutputsToBundle Demo.imports Demo.produced
                   (Demo.world_of Demo.upgrade_db [])).2)
      as (evs & _ & H & _).
    + reflexivity.
    + apply (keyed_by_name [Demo.dbHost; Demo.dbPassword]).
    + vm_compute. reflexivity.
    + destruct (H "dbPassword" "s3cret" Demo.dbPassword) as (_ & _ & Hskipped).
      * vm_compute. reflexivity.
      * vm_compute. reflexivity.
      * destruct Hskipped as [_ Hfile]; [|exact Hfile].
        intros [Hnil'|Hin]; [discriminate Hnil'|].
        apply list_elem_of_singleton in Hin. discriminate Hin.
Defined.

Lemma applyStepOutputsToBundle_undeclared_witness :
  Outputs Demo.install_db !! "podName" = None ∧
  ∃ evs,
    w_trace (applyStepOutputsToBundle Demo.imports Demo.produced_internal
               (Demo.world_of Demo.install_db [])).2
      = (evs ++ [])%list ∧
    (∀ v, EvWriteFile "/cnab/app/outputs/podName" v ∉ evs) ∧
    nodes (w_fs (applyStepOutputsToBundle Demo.imports Demo.produced_internal
                   (Demo.world_of Demo.install_db [])).2)
      !! "/cnab/app/outputs/podName" = None.
Proof.
  split; [vm_compute; reflexivity|].
  refine (proj2 (applyStepOutputsToBundle_undeclared Demo.imports Demo.produced_internal
                   (Demo.world_of Demo.install_db []) "podName" "db-0" _ _)
                (applyStepOutputsToBundle Demo.imports Demo.produced_internal
                   (Demo.world_of Demo.install_db [])).1
                (applyStepOutputsToBundle Demo.imports Demo.produced_internal
                   (Demo.world_of Demo.install_db [])).2 _ _).
  - vm_compute. reflexivity.
  - vm_compute. reflexivity.
  - vm_compute. reflexivity.
  - apply (keyed_by_name [Demo.dbHost; Demo.dbPassword]).
Defined.

Lemma executeStep_clears_channel_witness :
  channel_files Demo.imports
    (w_fs (executeStep Demo.imports (Some Demo.install_step)
             (Demo.world_of Demo.install_db [(Demo.channel, Directory)])).2) = [].
Proof.
  refine (proj1 (executeStep_clears_channel Demo.imports Demo.install_step
                   (Demo.world_of Demo.install_db [(Demo.channel, Directory)])
                   (executeStep Demo.imports (Some Demo.install_step)
                      (Demo.world_of Demo.install_db [(Demo.channel, Directory)])).2
                   _ _)).
  - intros name. reflexivity.
  - vm_compute. reflexivity.
Defined.

Lemma readMixinOutputs_all_or_nothing_witness :
  executeStep Demo.imports (Some Demo.install_step) Demo.on_bad_disk
    = (Some (errors_Wrap Demo.read_error "could not read step outputs"),
       (readMixinOutputs Demo.imports
          (executeStep_invoke Demo.imports Demo.install_step Demo.on_bad_disk).2).2) ∧
  w_rm (readMixinOutputs Demo.imports
          (executeStep_invoke Demo.imports Demo.install_step Demo.on_bad_disk).2).2
    = w_rm (executeStep_invoke Demo.imports Demo.install_step Demo.on_bad_disk).2.
Proof.
  assert (Hinvoke : executeStep_invoke Demo.imports Demo.install_step Demo.on_bad_disk
                    = (None, (executeStep_invoke Demo.imports Demo.install_step
                                Demo.on_bad_disk).2))
    by (vm_compute; reflexivity).
  assert (Hread : readMixinOutputs Demo.imports
                    (executeStep_invoke Demo.imports Demo.install_step Demo.on_bad_disk).2
                  = ((None, Some Demo.read_error),
                     (readMixinOutputs Demo.imports
                        (executeStep_invoke Demo.imports Demo.install_step
                           Demo.on_bad_disk).2).2))
    by (vm_compute; reflexivity).
  destruct (proj2 (readMixinOutputs_all_or_nothing Demo.imports Demo.install_step
                     Demo.on_bad_disk _ Hinvoke) _ _ _ Hread)
    as (_ & Hstep & Hrm & _).
  split; [exact Hstep|exact Hrm].
Defined.

Lemma executeStep_ignores_marshal_error_witness :
  (Demo.marshal (mkActionInput "install" [Demo.odd_step])).2
    = Some (errorString "yaml: unsupported value") ∧
  EvMixinRun "exec" (mkCommandOptions "install" "" true)
    ∈ w_trace (executeStep Demo.imports (Some Demo.odd_step)
                 (Demo.world_of Demo.install_db [(Demo.channel, Directory)])).2 ∧
  executeStep (with_yaml_Marshal Demo.imports (λ input, ((Demo.marshal input).1, None)))
              (Some Demo.odd_step)
              (Demo.world_of Demo.install_db [(Demo.channel, Directory)])
    = executeStep Demo.imports (Some Demo.odd_step)
                  (Demo.world_of Demo.install_db [(Demo.channel, Directory)]).
Proof.
  split; [reflexivity|].
  apply (executeStep_ignores_marshal_error Demo.imports Demo.odd_step
           (Demo.world_of Demo.install_db [(Demo.channel, Directory)])
           Demo.odd_step Demo.install_db
           (λ input, ((Demo.marshal input).1, None))).
  - reflexivity.
  - intros input. reflexivity.
Defined.

Lemma Execute_stops_at_first_failure_witness :
  Execute_range Demo.imports (GetSteps Demo.second_fails) Demo.ready
    = (Some Demo.failure, Demo.at_failure) ∧
  Execute Demo.imports Demo.second_fails Demo.start
    = (Some Demo.failure,
       log_resolver (applyUnboundBundleOutputs Demo.imports Demo.at_failure)) ∧
  ∃ evs,
    w_trace (Execute Demo.imports Demo.second_fails Demo.start).2
      = (evs ++ w_trace Demo.at_failure)%list ∧
    ∀ ev, ev ∈ evs → is_resolver_event ev ∧ ¬ is_step_event ev.
Proof.
  assert (Hsetup : Execute_setup Demo.imports Demo.second_fails Demo.start
                   = (None, Demo.ready)) by (vm_compute; reflexivity).
  refine (proj1 (Execute_stops_at_first_failure Demo.imports Demo.second_fails
                   Demo.start Demo.ready Hsetup)
                [Some Demo.install_step] (Some Demo.broken_step) [Some Demo.install_step]
                Demo.before_failure Demo.failure Demo.at_failure _ _ _);
    vm_compute; reflexivity.
Defined.

Lemma Execute_returns_step_error_witness :
  (applyUnboundBundleOutputs Demo.imports
     (Execute_range Demo.imports (GetSteps Cases.only_broken)
        (Execute_setup Demo.imports Cases.only_broken Cases.store_taken).2).2).1
    = Some Cases.store_error ∧
  (Execute Demo.imports Cases.only_broken Cases.store_taken).1 = Some Demo.failure ∧
  w_Err (Execute Demo.imports Cases.only_broken Cases.store_taken).2
    = [error_Error Cases.store_error] ∧
  (Execute Demo.imports Cases.no_steps Cases.store_taken).1 = None ∧
  w_Err (Execute Demo.imports Cases.no_steps Cases.store_taken).2
    = [error_Error Cases.store_error].
Proof.
  assert (Hbroken : Execute_setup Demo.imports Cases.only_broken Cases.store_taken
                    = (None, (Execute_setup Demo.imports Cases.only_broken
                                Cases.store_taken).2)) by (vm_compute; reflexivity).
  assert (Hnone : Execute_setup Demo.imports Cases.no_steps Cases.store_taken
                  = (None, (Execute_setup Demo.imports Cases.no_steps
                              Cases.store_taken).2)) by (vm_compute; reflexivity).
  destruct (Execute_returns_step_error Demo.imports Cases.only_broken Cases.store_taken
              _ Hbroken) as (Hret1 & _ & Herr1).
  destruct (Execute_returns_step_error Demo.imports Cases.no_steps Cases.store_taken
              _ Hnone) as (Hret2 & _ & Herr2).
  split; [vm_compute; reflexivity|]. split; [|split; [|split]].
  - rewrite Hret1. vm_compute. reflexivity.
  - rewrite Herr1. vm_compute. reflexivity.
  - rewrite Hret2. vm_compute. reflexivity.
  - rewrite Herr2. vm_compute. reflexivity.
Defined.

Lemma getImageMappingFiles_relocation_witness :
  (getImageMappingFiles Demo.imports Demo.start).1 = inr (mkBundle "{}", ∅) ∧
  (getImageMappingFiles Demo.imports
     (Cases.with_relocation "{}" Cases.unreadable_relocation)).1
    = inl (errors_Wrap
             (errorString "open /cnab/app/relocation-mapping.json: permission denied")
             "couldn't read relocation file") ∧
  (getImageMappingFiles Cases.strict (Cases.with_relocation "[]" Demo.no_faults)).1
    = inl (errors_Wrap (errorString "invalid character in relocation mapping")
                       "couldn't load relocation file").
Proof.
  split; [|split].
  - refine (proj1 (proj1 (getImageMappingFiles_relocation Demo.imports Demo.start)
                         "{}" (mkBundle "{}")
                         (errorString
                            "stat /cnab/app/relocation-mapping.json: no such file or directory")
                         _ _ _));
      vm_compute; reflexivity.
  - refine (proj1 (proj2 (proj2 (proj2 (proj2
              (getImageMappingFiles_relocation Demo.imports
                 (Cases.with_relocation "{}" Cases.unreadable_relocation))))))
              "{}" (mkBundle "{}") (mkFileInfo Cases.relocation false) _ _ _ _ _);
      vm_compute; reflexivity.
  - refine (proj1 (proj2 (proj2 (proj2 (proj2 (proj2
              (getImageMappingFiles_relocation Cases.strict
                 (Cases.with_relocation "[]" Demo.no_faults)))))))
              "{}" (mkBundle "{}") (mkFileInfo Cases.relocation false) "[]" _ _ _ _ _ _);
      vm_compute; reflexivity.
Defined.

(** * More of the runtime *)

(** ** The set-up of [Execute] *)

Section Setup.

Variable I : Imports.

Lemma getImageMappingFiles_frame w r w' :
  getImageMappingFiles I w = (r, w') →
  w_fs w' = w_fs w ∧ w_rm w' = w_rm w ∧ w_Out w' = w_Out w ∧ w_Err w' = w_Err w ∧
  w_sensitive w' = w_sensitive w ∧
  ∃ evs, w_trace w' = (evs ++ w_trace w)%list ∧
         ∀ ev, ev ∈ evs → ∃ p, ev = EvReadFile p ∨ ev = EvStat p.
Proof.
  rewrite getImageMappingFiles_eq. cbv zeta.
  assert (H1 : ∀ ev, ev ∈ [EvReadFile "/cnab/bundle.json"] →
                     ∃ p, ev = EvReadFile p ∨ ev = EvStat p).
  { intros ev ->%list_elem_of_singleton. eauto. }
  assert (H2 : ∀ ev, ev ∈ [EvStat "/cnab/app/relocation-mapping.json";
                            EvReadFile "/cnab/bundle.json"] →
                     ∃ p, ev = EvReadFile p ∨ ev = EvStat p).
  { intros ev [->|Hin]%elem_of_cons; eauto. }
  assert (H3 : ∀ ev, ev ∈ [EvReadFile "/cnab/app/relocation-mapping.json";
                            EvStat "/cnab/app/relocation-mapping.json";
                            EvReadFile "/cnab/bundle.json"] →
                     ∃ p, ev = EvReadFile p ∨ ev = EvStat p).
  { intros ev [->|Hin]%elem_of_cons; eauto. }
  destruct (fs_ReadFile "/cnab/bundle.json" (w_fs w)) as [e|bunBytes].
  { intros [= <- <-]. repeat split. by eexists [_]. }
  destruct (LoadData I bunBytes) as [e|rtb].
  { intros [= <- <-]. repeat split. by eexists [_]. }
  destruct (fs_Stat "/cnab/app/relocation-mapping.json" (w_fs w)).
  { intros [= <- <-]. repeat split. by eexists [_; _]. }
  destruct (fs_ReadFile "/cnab/app/relocation-mapping.json" (w_fs w)) as [e|reloBytes].
  { intros [= <- <-]. repeat split. by eexists [_; _; _]. }
  destruct (json_Unmarshal I reloBytes) as [e|reloMap];
    intros [= <- <-]; repeat split; by eexists [_; _; _].
Qed.

(** X1: a set-up stage that fails ends [Execute] there.  The error is
    returned from the world the set-up left; only the banner was printed,
    nothing went to [r.Err], and every call made is a call of the set-up:
    no step was resolved, no mixin run, no output read, written or copied.
    When it is [Validate] that fails its error is returned as it is and
    [Validate] is the only call made. *)
Theorem Execute_setup_failure rm w e w1 :
  Execute_setup I rm w = (Some e, w1) →
  Execute I rm w = (Some e, w1) ∧
  w_Out w1 = banner I rm w :: w_Out w ∧
  w_Err w1 = w_Err w ∧
  (∃ evs, w_trace w1 = (evs ++ w_trace w)%list ∧ ∀ ev, ev ∈ evs → is_setup_event ev) ∧
  (∀ e0, Validate I rm = Some e0 → e = e0 ∧ w_trace w1 = EvValidate :: w_trace w).
Proof.
  intros Hsetup. split.
  { by rewrite Execute_phases, Hsetup. }
  revert Hsetup. rewrite Execute_setup_eq.
  unfold Execute_prepare, bind, Getenv, get_rm, Fprintln_Out, RuntimeManifest_Validate.
  cbn beta iota. simpl.
  fold (banner I rm w).
  destruct (Validate I rm) as [e0|] eqn:Hval.
  { intros [= <- <-]. simpl. split; [done|]. split; [done|]. split.
    - exists [EvValidate]. split; [done|]. by intros ev ->%list_elem_of_singleton.
    - by intros ? [= <-]. }
  unfold RuntimeManifest_Prepare. simpl.
  destruct (Prepare I rm (w_fs w)) as [[[e1|] m1] f1].
  { intros [= <- <-]. simpl. split; [done|]. split; [done|]. split; [|done].
    exists [EvPrepare; EvValidate]. split; [done|].
    intros ev [->|Hin]%elem_of_cons; [done|].
    by apply list_elem_of_singleton in Hin as ->. }
  unfold Execute_images, bind.
  match goal with |- context [getImageMappingFiles I ?w0] =>
    destruct (getImageMappingFiles I w0) as [r w2] eqn:Hfiles end.
  destruct (getImageMappingFiles_frame _ _ _ Hfiles)
    as (Hfs & Hrm & Hout & Herr & _ & evs & Ht & Hev).
  simpl in *.
  assert (Hev' : ∀ ev, ev ∈ (evs ++ [EvPrepare; EvValidate])%list → is_setup_event ev).
  { intros ev [Hin|Hin]%elem_of_app.
    - by destruct (Hev ev Hin) as [p [-> | ->]].
    - apply elem_of_cons in Hin as [->|Hin]; [done|].
      by apply list_elem_of_singleton in Hin as ->. }
  destruct r as [e2|[rtb reloMap]].
  { intros [= <- <-]. split; [done|]. split; [done|]. split; [|done].
    exists (evs ++ [EvPrepare; EvValidate])%list. split; [|done].
    by rewrite Ht, <- (app_assoc evs). }
  unfold RuntimeManifest_ResolveImages.
  destruct (ResolveImages I rtb reloMap (w_rm w2)) as [[e3|] m3].
  { intros [= <- <-]. simpl. split; [done|]. split; [done|]. split; [|done].
    exists (EvResolveImages rtb reloMap :: evs ++ [EvPrepare; EvValidate])%list. split.
    - simpl. by rewrite Ht, <- (app_assoc evs).
    - intros ev [->|Hin]%elem_of_cons; [done|by apply Hev']. }
  unfold FileSystem_MkdirAll, on_fs. simpl.
  destruct (fs_MkdirAll _ _) as [[e4|] f4]; [|done].
  intros [= <- <-]. simpl. split; [done|]. split; [done|]. split; [|done].
  exists (EvMkdirAll (MixinOutputsDir I) :: EvResolveImages rtb reloMap
            :: evs ++ [EvPrepare; EvValidate])%list. split.
  - simpl. by rewrite Ht, <- (app_assoc evs).
  - intros ev [->|Hin]%elem_of_cons; [done|].
    apply elem_of_cons in Hin as [->|Hin]; [done|by apply Hev'].
Qed.

End Setup.

(** ** The stages of a step *)

Section Stages.

Variable I : Imports.

Lemma description_test (d : string) :
  Nat.ltb 0 (String.length d) = if decide (d = "") then false else true.
Proof. by destruct d. Qed.

Lemma executeStep_invoke_eq step w :
  executeStep_invoke I step w =
  match ResolveStep I step (w_rm w) (w_fs w) with
  | (Some e, _, m) =>
      (Some (errors_Wrap e "unable to resolve step"),
       set_rm m (record (EvResolveStep step) w))
  | (None, step', m) =>
      let w1 := set_rm m (record (EvResolveStep step) w) in
      let w2 := if decide (GetDescription step' = "") then w1
                else print_Out (GetDescription step') w1 in
      let w3 := set_sensitive (GetSensitiveValues m)
                  (record (EvSetSensitiveValues (GetSensitiveValues m)) w2) in
      let cmd := mixin_command I m step' in
      let w4 := record (EvMixinRun (GetMixinName step') cmd) w3 in
      match mixins_Run I (GetMixinName step') cmd (w_fs w) with
      | (Some e, fsys, out, errs) =>
          (Some (errors_Wrap e "mixin execution failed"),
           mixin_prints out errs (set_fs fsys w4))
      | (None, fsys, out, errs) => (None, mixin_prints out errs (set_fs fsys w4))
      end
  end.
Proof.
  unfold executeStep_invoke, bind, RuntimeManifest_ResolveStep.
  destruct (ResolveStep I step (w_rm w) (w_fs w)) as [[[e|] step'] m]; [done|].
  rewrite description_test. cbv zeta.
  unfold get_rm, SetSensitiveValues, PackageManager_Run, mixin_command.
  destruct (decide (GetDescription step' = "")); simpl;
    by destruct (mixins_Run I _ _ _) as [[[[?|] ?] ?] ?].
Qed.

(** X2: the order of a step up to the return of its mixin.  A step that
    cannot be resolved ends there with the wrapped error: nothing is
    printed, the masked values are not refreshed and the mixin is not run.
    A resolved step has its description printed unless it is empty, then the
    masked values are set to the sensitive values of the manifest as the
    resolution left it, and only then the mixin is run, with the action as
    command, the runtime flag set and the envelope of this one step; what
    the mixin prints lands on the two streams after the description, and
    nothing else is printed. *)
Theorem executeStep_resolution step w err step' m :
  ResolveStep I step (w_rm w) (w_fs w) = (err, step', m) →
  (∀ e, err = Some e →
     executeStep I (Some step) w
     = (Some (errors_Wrap e "unable to resolve step"),
        set_rm m (record (EvResolveStep step) w))) ∧
  (err = None →
     w_sensitive (executeStep_invoke I step w).2 = GetSensitiveValues m ∧
     w_trace (executeStep_invoke I step w).2
       = EvMixinRun (GetMixinName step') (mixin_command I m step')
         :: EvSetSensitiveValues (GetSensitiveValues m)
         :: EvResolveStep step :: w_trace w ∧
     w_Out (executeStep_invoke I step w).2
       = (mixin_Out I step w ++ if decide (GetDescription step' = "") then w_Out w
                                else GetDescription step' :: w_Out w)%list ∧
     w_Err (executeStep_invoke I step w).2 = (mixin_Err I step w ++ w_Err w)%list).
Proof.
  intros Hres. split.
  - intros e ->. by rewrite executeStep_phases, executeStep_invoke_eq, Hres.
  - intros ->. unfold mixin_Out, mixin_Err. rewrite executeStep_invoke_eq, Hres. cbv zeta.
    destruct (mixins_Run I _ _ _) as [[[[?|] ?] ?] ?];
      by destruct (decide (GetDescription step' = "")).
Qed.

(** Go's range over the declared outputs visits every definition once. *)
Hypothesis range_Outputs_perm :
  ∀ defs, range_Outputs I defs ≡ₚ map_to_list defs.

(** The resolver touches the output directory and the files of the
    declared names in it, nothing else. *)
Lemma applyUnboundBundleOutputs_fs w r w' :
  plain_outputs (w_rm w) →
  applyUnboundBundleOutputs I w = (r, w') →
  ∀ p, p ≠ BundleOutputsDir I →
       (∀ name, plain name → p ≠ filepath_Join (BundleOutputsDir I) name) →
       nodes (w_fs w') !! p = nodes (w_fs w) !! p.
Proof.
  intros Hplain. rewrite applyUnboundBundleOutputs_eq. cbv zeta.
  destruct (fs_MkdirAll _ _) as [[e|] fsys] eqn:Hmk.
  { intros [= <- <-] p _ _. simpl. by rewrite (fs_MkdirAll_Some _ _ _ _ Hmk). }
  set (w3 := if Nat.ltb 0 _ then _ else _).
  assert (Hfs3 : w_fs w3 = fsys) by (unfold w3; by destruct (Nat.ltb 0 _)).
  destruct (applyUnboundBundleOutputs_range I _ _ _ w3) as [bigErr w4] eqn:Hrun.
  intros [= _ <-] p Hdir Hfile.
  destruct (applyUnboundBundleOutputs_range_inv _ _ _ _ _ _ _ Hrun)
    as (_ & _ & _ & evs & _ & Hev & Hfr).
  rewrite Hfr.
  - rewrite Hfs3, (fs_MkdirAll_None _ _ _ Hmk). simpl. by apply lookup_insert_ne.
  - intros src (k & d & Hin & _ & _ & _ & Heq)%Hev. injection Heq as _ Hp.
    apply (range_elem_of _ _ _ _ (range_Outputs_perm _)) in Hin.
    by eapply (Hfile (Name d)); [eapply Hplain|].
Qed.

Lemma Execute_range_cons step rest w :
  Execute_range I (step :: rest) w =
  match executeStep I step w with
  | (Some e, w') => (Some e, w')
  | (None, w') => Execute_range I rest w'
  end.
Proof.
  change (Execute_range I (step :: rest) w)
    with (bind (executeStep I step)
               (λ executionErr, match executionErr with
                                | Some _ => ret executionErr
                                | None => Execute_range I rest
                                end) w).
  unfold bind. by destruct (executeStep I step w) as [[e|] w'].
Qed.

(** X3: when the mixin of a step fails, [Execute] returns its error wrapped
    and the outputs the mixin may have written are never read.  For a
    manifest whose declared outputs have plain names: apart from the output
    directory and the files of plain names directly in it, the filesystem
    that [Execute] leaves is the one the failed mixin left. *)
Theorem Execute_failed_mixin rm w w1 pre step post wa step' m e fsys out errs :
  Execute_setup I rm w = (None, w1) →
  GetSteps (w_rm w1) = (pre ++ Some step :: post)%list →
  Execute_range I pre w1 = (None, wa) →
  ResolveStep I step (w_rm wa) (w_fs wa) = (None, step', m) →
  plain_outputs m →
  mixins_Run I (GetMixinName step') (mixin_command I m step') (w_fs wa)
    = (Some e, fsys, out, errs) →
  (Execute I rm w).1 = Some (errors_Wrap e "mixin execution failed") ∧
  ∀ p, p ≠ BundleOutputsDir I →
       (∀ name, plain name → p ≠ filepath_Join (BundleOutputsDir I) name) →
       nodes (w_fs (Execute I rm w).2) !! p = nodes fsys !! p.
Proof.
  intros Hsetup Hsteps Hpre Hres Hplain Hrun.
  assert (Hstep : ∃ wb, executeStep I (Some step) wa
                        = (Some (errors_Wrap e "mixin execution failed"), wb) ∧
                        w_fs wb = fsys ∧ w_rm wb = m).
  { rewrite executeStep_phases, executeStep_invoke_eq, Hres. cbv zeta. rewrite Hrun.
    eexists. split; [done|]. split; [done|].
    by destruct (decide (GetDescription step' = "")). }
  destruct Hstep as (wb & Hstep & Hfs & Hrm).
  rewrite Execute_phases, Hsetup, Hsteps, (Execute_range_app _ _ _ _ _ Hpre).
  rewrite Execute_range_cons, Hstep, Execute_finish_eq. cbv zeta. simpl.
  split; [done|]. intros p Hdir Hfile. unfold log_resolver.
  destruct (applyUnboundBundleOutputs I wb) as [r w2] eqn:Hresolve.
  rewrite <- Hrm in Hplain.
  pose proof (applyUnboundBundleOutputs_fs _ _ _ Hplain Hresolve p Hdir Hfile) as Hp.
  rewrite <- Hfs, <- Hp. by destruct r.
Qed.

End Stages.

(** ** Errors and edges of the resolver, the image files and the binder *)

Section Edges.

Variable I : Imports.

(** X4: the resolver fails only when the bundle outputs directory cannot be
    made.  Then it returns that error wrapped, having printed nothing and
    copied nothing.  When the directory is made the resolver returns nil,
    whatever the copies did, and has printed its one line exactly when
    outputs are declared. *)
Theorem applyUnboundBundleOutputs_outcome w :
  (∀ e, (fs_MkdirAll (BundleOutputsDir I) (w_fs w)).1 = Some e →
     applyUnboundBundleOutputs I w
     = (Some (errors_Wrap e "unable to ensure CNAB outputs directory exists"),
        record (EvMkdirAll (BundleOutputsDir I)) w)) ∧
  ((fs_MkdirAll (BundleOutputsDir I) (w_fs w)).1 = None →
     (applyUnboundBundleOutputs I w).1 = None ∧
     w_Out (applyUnboundBundleOutputs I w).2
       = if decide (Outputs (w_rm w) = ∅) then w_Out w
         else "Collecting bundle outputs..." :: w_Out w).
Proof.
  rewrite applyUnboundBundleOutputs_eq. cbv zeta.
  destruct (fs_MkdirAll _ _) as [[e0|] fsys] eqn:Hmk; simpl; split; try done.
  - intros e [= <-]. rewrite (fs_MkdirAll_Some _ _ _ _ Hmk). by destruct w.
  - intros _.
    set (w3 := if Nat.ltb 0 _ then _ else _).
    destruct (applyUnboundBundleOutputs_range I _ _ _ w3) as [bigErr w4] eqn:Hrun.
    pose proof (applyUnboundBundleOutputs_range_bigErr I None
                  (GetOutputs (w_rm w)) (range_Outputs I (Outputs (w_rm w))) w3) as Hb.
    rewrite Hrun in Hb. simpl in Hb. subst bigErr. split; [done|].
    destruct (applyUnboundBundleOutputs_range_inv _ _ _ _ _ _ _ Hrun)
      as (_ & Hout & _). simpl. rewrite Hout. unfold w3.
    destruct (decide (Outputs (w_rm w) = ∅)) as [Hempty|Hne].
    + by rewrite Hempty, map_size_empty.
    + destruct (size (Outputs (w_rm w))) eqn:Hsize; [|done].
      by apply map_size_empty_iff in Hsize.
Qed.

(** X5: [getImageMappingFiles] only reads.  Whatever it returns, the
    filesystem and the manifest are as before, every call it made is a
    [ReadFile] or a [Stat], and a second call gives the same result. *)
Theorem getImageMappingFiles_reads_only w r w' :
  getImageMappingFiles I w = (r, w') →
  w_fs w' = w_fs w ∧ w_rm w' = w_rm w ∧
  (∃ evs, w_trace w' = (evs ++ w_trace w)%list ∧
          ∀ ev, ev ∈ evs → ∃ p, ev = EvReadFile p ∨ ev = EvStat p) ∧
  (getImageMappingFiles I w').1 = r.
Proof.
  intros Hrun.
  destruct (getImageMappingFiles_frame I _ _ _ Hrun) as (Hfs & Hrm & _ & _ & _ & Hev).
  split; [done|]. split; [done|]. split; [done|].
  assert (Hsame : (getImageMappingFiles I w').1 = (getImageMappingFiles I w).1).
  { rewrite !getImageMappingFiles_eq, Hfs. cbv zeta.
    destruct (fs_ReadFile "/cnab/bundle.json" (w_fs w)); [done|].
    destruct (LoadData I _); [done|].
    destruct (fs_Stat "/cnab/app/relocation-mapping.json" (w_fs w)); [done|].
    destruct (fs_ReadFile "/cnab/app/relocation-mapping.json" (w_fs w)); [done|].
    by destruct (json_Unmarshal I _). }
  by rewrite Hsame, Hrun.
Qed.

Lemma applyStepOutputsToBundle_range_app pre rest w w1 :
  applyStepOutputsToBundle_range I pre w = (None, w1) →
  applyStepOutputsToBundle_range I (pre ++ rest) w
  = applyStepOutputsToBundle_range I rest w1.
Proof.
  revert w. induction pre as [|[k v] pre IH]; intros w.
  { by intros [= <-]. }
  rewrite <- app_comm_cons, !applyStepOutputsToBundle_range_cons.
  destruct (Outputs (w_rm w) !! k) as [d|]; [|apply IH].
  destruct (shouldApplyOutput (w_rm w) d); [|apply IH].
  cbv zeta. destruct (fs_WriteFile _ _ _) as [[e|] fsys]; [done|apply IH].
Qed.

(** X6: the errors of the binder are final.  When the bundle outputs
    directory cannot be made the binder returns that error wrapped and
    writes nothing.  When the write of a pair fails, after the pairs ranged
    before it went through, the binder returns the error wrapped with the
    path of the file and stops in the world of that write: the pairs that
    come later in the range are not looked at. *)
Theorem applyStepOutputsToBundle_fatal outs w :
  (∀ e, (fs_MkdirAll (BundleOutputsDir I) (w_fs w)).1 = Some e →
     applyStepOutputsToBundle I outs w
     = (Some (errors_Wrap e "unable to ensure CNAB outputs directory exists"),
        record (EvMkdirAll (BundleOutputsDir I)) w)) ∧
  (∀ pre k v post d w0 w1 e,
     range_outputs I outs = (pre ++ (k, v) :: post)%list →
     createOutputsDir I w = (None, w0) →
     applyStepOutputsToBundle_range I pre w0 = (None, w1) →
     Outputs (w_rm w) !! k = Some d →
     in_scope (w_rm w) d →
     (fs_WriteFile (filepath_Join (BundleOutputsDir I) (Name d)) v (w_fs w1)).1 = Some e →
     applyStepOutputsToBundle I outs w
     = (Some (errors_Wrapf e ("unable to write output file " +:+
                              filepath_Join (BundleOutputsDir I) (Name d))),
        record (EvWriteFile (filepath_Join (BundleOutputsDir I) (Name d)) v) w1)).
Proof.
  split.
  - intros e Hmk. unfold applyStepOutputsToBundle, bind. rewrite createOutputsDir_eq.
    cbv zeta. destruct (fs_MkdirAll _ _) as [[e0|] fsys] eqn:Hmk0; [|done].
    simpl in Hmk. injection Hmk as ->.
    rewrite (fs_MkdirAll_Some _ _ _ _ Hmk0). by destruct w.
  - intros pre k v post d w0 w1 e Hrange Hdir Hpre Hd Hs%shouldApplyOutput_true Hw.
    unfold applyStepOutputsToBundle, bind. rewrite Hdir, Hrange.
    rewrite (applyStepOutputsToBundle_range_app _ _ _ _ Hpre).
    rewrite applyStepOutputsToBundle_range_cons.
    destruct (applyStepOutputsToBundle_range_inv _ _ _ _ _ Hpre) as (Hrm1 & _).
    assert (Hrm0 : w_rm w0 = w_rm w).
    { rewrite createOutputsDir_eq in Hdir. cbv zeta in Hdir.
      destruct (fs_MkdirAll _ _) as [[?|] ?]; [done|]. by injection Hdir as <-. }
    rewrite Hrm1, Hrm0, Hd, Hs. cbv zeta.
    destruct (fs_WriteFile _ _ _) as [[e0|] fsys] eqn:Hw0; [|done].
    simpl in Hw. injection Hw as ->.
    rewrite (fs_WriteFile_Some _ _ _ _ _ Hw0). by destruct w1.
Qed.

End Edges.

(** ** Edges of the read of the mixin outputs *)

Section ReadEdges.

Variable I : Imports.

Lemma readMixinOutputs_range_dirs outfiles outs w :
  (∀ fi, fi ∈ outfiles → FileInfo_IsDir fi = true) →
  readMixinOutputs_range I outfiles outs w = ((Some outs, None), w).
Proof.
  induction outfiles as [|fi rest IH]; intros Hdirs; [done|].
  rewrite readMixinOutputs_range_cons, (Hdirs fi) by by left.
  apply IH. intros fi' Hin. apply Hdirs. by right.
Qed.

(** X7: the edges of [readMixinOutputs].  A directory that cannot be listed
    gives the nil map and the error wrapped with the name of the directory,
    and nothing is read.  A directory that is listed and holds no regular
    file, empty or with subdirectories only, gives the empty map, which is
    not nil, and no error; the listing is the only call made and nothing is
    removed. *)
Theorem readMixinOutputs_edges w :
  (∀ e, fs_ReadDir (MixinOutputsDir I) (w_fs w) = inl e →
     readMixinOutputs I w
     = ((None, Some (errors_Wrapf e ("could not list " +:+ MixinOutputsDir I))),
        record (EvReadDir (MixinOutputsDir I)) w)) ∧
  (∀ outfiles,
     fs_ReadDir (MixinOutputsDir I) (w_fs w) = inr outfiles →
     channel_files I (w_fs w) = [] →
     readMixinOutputs I w = ((Some ∅, None), record (EvReadDir (MixinOutputsDir I)) w)).
Proof.
  split.
  - intros e Hdir. by rewrite readMixinOutputs_eq, Hdir.
  - intros outfiles Hdir Hnone. rewrite readMixinOutputs_eq, Hdir. cbv zeta.
    apply readMixinOutputs_range_dirs. intros fi Hin.
    apply fs_ReadDir_inr in Hdir. subst outfiles.
    by apply (channel_files_elem I (w_fs w)).
Qed.

Lemma readMixinOutputs_range_app pre rest outs w outs1 w1 :
  readMixinOutputs_range I pre outs w = ((Some outs1, None), w1) →
  readMixinOutputs_range I (pre ++ rest) outs w = readMixinOutputs_range I rest outs1 w1.
Proof.
  revert outs w. induction pre as [|fi pre IH]; intros outs w.
  { by intros [= <- <-]. }
  rewrite <- app_comm_cons, !readMixinOutputs_range_cons.
  destruct (FileInfo_IsDir fi); [apply IH|]. cbv zeta.
  destruct (fs_ReadFile _ _) as [e|contents]; [done|].
  destruct (fs_Remove _ _) as [[e|] fsys]; [done|]. apply IH.
Qed.

(** A failure persists while nodes are only removed. *)
Lemma fails_persist p f f' :
  denied f' = denied f →
  (∀ q, nodes f' !! q = None ∨ nodes f' !! q = nodes f !! q) →
  read_fails p f ∨ remove_fails p f → read_fails p f' ∨ remove_fails p f'.
Proof.
  intros Hd Hn [[e He]|[e He]]; [left|right].
  - unfold read_fails, fs_ReadFile in *. rewrite Hd.
    destruct (denied f OpReadFile p); [by eexists|].
    destruct (Hn p) as [Hp|Hp]; rewrite Hp; [by eexists|].
    destruct (nodes f !! p) as [[]|]; [done|by eexists..].
  - unfold remove_fails, fs_Remove in *. rewrite Hd.
    destruct (denied f OpRemove p); [by eexists|].
    destruct (Hn p) as [Hp|Hp]; rewrite Hp; [by eexists|].
    destruct (nodes f !! p); [done|by eexists].
Qed.

(** X8: a failed read loses the outputs read before it.  When the listing
    is [pre ++ fi :: post], the entries of [pre] are read and removed without
    error and the read or the removal of the regular file [fi] fails, then
    [readMixinOutputs] returns the nil map and an error, the regular files of
    [pre] are gone from the directory although their values are dropped, and
    the entries of [post] are as they were. *)
Theorem readMixinOutputs_failure_loses_read_outputs w pre fi post outs1 w1 :
  fs_ReadDir (MixinOutputsDir I) (w_fs w) = inr (pre ++ fi :: post)%list →
  FileInfo_IsDir fi = false →
  readMixinOutputs_range I pre ∅ (record (EvReadDir (MixinOutputsDir I)) w)
    = ((Some outs1, None), w1) →
  read_fails (filepath_Join (MixinOutputsDir I) (FileInfo_Name fi)) (w_fs w) ∨
  remove_fails (filepath_Join (MixinOutputsDir I) (FileInfo_Name fi)) (w_fs w) →
  (∃ e, (readMixinOutputs I w).1 = (None, Some e)) ∧
  (∀ f, f ∈ pre → FileInfo_IsDir f = false →
     (∃ contents,
        nodes (w_fs w) !! filepath_Join (MixinOutputsDir I) (FileInfo_Name f)
          = Some (File contents) ∧
        outs1 !! FileInfo_Name f = Some contents) ∧
     nodes (w_fs (readMixinOutputs I w).2)
       !! filepath_Join (MixinOutputsDir I) (FileInfo_Name f) = None) ∧
  (∀ f, f ∈ post →
     nodes (w_fs (readMixinOutputs I w).2)
       !! filepath_Join (MixinOutputsDir I) (FileInfo_Name f)
     = nodes (w_fs w) !! filepath_Join (MixinOutputsDir I) (FileInfo_Name f)).
Proof.
  intros Hdir Hfile Hpre Hfail.
  assert (Hnd : NoDup (FileInfo_Name <$> (pre ++ fi :: post)%list)).
  { rewrite (fs_ReadDir_inr _ _ _ Hdir). apply NoDup_fs_entries. }
  rewrite fmap_app in Hnd. apply NoDup_app in Hnd as (Hndpre & Hdisj & Hndrest).
  destruct (readMixinOutputs_range_frame _ _ _ _ _ _ Hpre)
    as (_ & _ & _ & _ & Hden & Hmono & _).
  destruct (readMixinOutputs_range_ok _ _ _ _ _ _ Hndpre Hpre) as (Hgone & Hkept & _).
  simpl in *.
  assert (Hfail1 := fails_persist _ _ _ Hden Hmono Hfail).
  assert (Hend : ∃ e w', readMixinOutputs_range I (fi :: post) outs1 w1
                         = ((None, Some e), w') ∧ w_fs w' = w_fs w1).
  { rewrite readMixinOutputs_range_cons, Hfile. cbv zeta.
    destruct (fs_ReadFile _ _) as [e|contents] eqn:Hread; [by eexists _, _|].
    destruct (fs_Remove _ _) as [[e|] fsys] eqn:Hrm.
    - eexists _, _. split; [done|]. simpl. by apply fs_Remove_Some in Hrm.
    - exfalso. destruct Hfail1 as [[e He]|[e He]]; [congruence|].
      by rewrite Hrm in He. }
  destruct Hend as (e & w' & Hend & Hfs).
  assert (Hrun : readMixinOutputs I w = ((None, Some e), w')).
  { by rewrite readMixinOutputs_eq, Hdir; cbv zeta;
      rewrite (readMixinOutputs_range_app _ _ _ _ _ _ Hpre). }
  rewrite Hrun. simpl. rewrite Hfs. split; [by exists e|]. split.
  - intros f Hin Hf. destruct (Hgone f Hin Hf) as (Hnone & c & Hc & Ho).
    split; [by exists c|done].
  - intros f Hin. apply Hkept. intros f' Hin' _ Heq%filepath_Join_inj.
    apply (Hdisj (FileInfo_Name f)).
    + rewrite Heq. apply list_elem_of_fmap. by exists f'.
    + right. apply (list_elem_of_fmap_2 FileInfo_Name). done.
Qed.

End ReadEdges.

(** ** From the mixin's file to the bundle's output *)

Section HandOff.

Variable I : Imports.

Hypothesis range_outputs_perm : ∀ outs, range_outputs I outs ≡ₚ map_to_list outs.

(** X9: a step hands the mixin's output over to the bundle.  When the mixin
    has returned and left the regular file [fi] in its outputs directory,
    the step returns nil, and the manifest the step leaves (keyed by the
    definitions' names) declares an output of the file's name that is in
    scope, then the contents the mixin wrote were passed to
    [ApplyStepOutputs] under that name and are the contents of
    [<output-dir>/<name>] when the step returns. *)
Theorem executeStep_hands_outputs_over step w w1 w' fi def :
  executeStep_invoke I step w = (None, w1) →
  executeStep I (Some step) w = (None, w') →
  fi ∈ channel_files I (w_fs w1) →
  (∀ k d, Outputs (w_rm w') !! k = Some d → Name d = k) →
  Outputs (w_rm w') !! FileInfo_Name fi = Some def →
  in_scope (w_rm w') def →
  ∃ contents outs,
    nodes (w_fs w1) !! filepath_Join (MixinOutputsDir I) (FileInfo_Name fi)
      = Some (File contents) ∧
    outs !! FileInfo_Name fi = Some contents ∧
    EvApplyStepOutputs outs ∈ w_trace w' ∧
    w_rm w' = (ApplyStepOutputs I outs (w_rm w1)).2 ∧
    nodes (w_fs w') !! filepath_Join (BundleOutputsDir I) (FileInfo_Name fi)
      = Some (File contents).
Proof.
  intros Hinv Hrun Hfi Hkeyed Hdef Hscope.
  rewrite executeStep_phases, Hinv in Hrun.
  unfold executeStep_collect, bind in Hrun.
  destruct (readMixinOutputs I w1) as [[outs err] w2] eqn:Hread.
  destruct (readMixinOutputs_frame _ _ _ _ Hread)
    as (Hrm2 & _ & _ & _ & _ & _ & _ & [[outs' [= -> ->]]|[e [= -> ->]]]);
    [|done].
  destruct (readMixinOutputs_ok _ _ _ _ Hread) as (_ & Hall & _).
  destruct (Hall fi Hfi) as (contents & Hnode & Hout & _).
  simpl in Hrun. unfold RuntimeManifest_ApplyStepOutputs in Hrun.
  destruct (ApplyStepOutputs I outs' (w_rm w2)) as [[e|] m] eqn:Happly; [done|].
  unfold applyStepOutputsToBundle, bind in Hrun.
  rewrite createOutputsDir_eq in Hrun. cbv zeta in Hrun.
  destruct (fs_MkdirAll _ _) as [[e|] fsys] eqn:Hmk; [done|].
  destruct (applyStepOutputsToBundle_range_inv _ _ _ _ _ Hrun)
    as (Hrm & _ & _ & evs & Ht & _).
  simpl in Hrm, Ht.
  exists contents, outs'. split; [done|]. split; [done|]. split; [|split].
  - rewrite Ht. apply elem_of_app. right. right. by left.
  - by rewrite Hrm, <- Hrm2, Happly.
  - rewrite Hrm in Hkeyed, Hdef, Hscope.
    eapply (applyStepOutputsToBundle_range_content I); [| |exact Hrun| | |].
    + exact Hkeyed.
    + exact (range_NoDup _ _ (range_outputs_perm outs')).
    + apply (range_elem_of _ _ _ _ (range_outputs_perm outs')). exact Hout.
    + exact Hdef.
    + by apply shouldApplyOutput_true.
Qed.

End HandOff.

(** ** The order of the steps *)

Section Order.

Variable I : Imports.

Lemma resolved_steps_app evs1 evs2 :
  resolved_steps (evs1 ++ evs2) = (resolved_steps evs2 ++ resolved_steps evs1)%list.
Proof. unfold resolved_steps. by rewrite omap_app, rev_app_distr. Qed.

Lemma resolved_steps_cons ev evs :
  resolved_steps (ev :: evs) = (resolved_steps evs ++ resolved_steps [ev])%list.
Proof. apply (resolved_steps_app [ev]). Qed.

Lemma resolved_steps_skip ev evs :
  (∀ step, ev ≠ EvResolveStep step) → resolved_steps (ev :: evs) = resolved_steps evs.
Proof.
  intros Hno. unfold resolved_steps. simpl. destruct ev; try done.
  by destruct (Hno step).
Qed.

Lemma resolved_steps_nil evs :
  (∀ ev, ev ∈ evs → ∀ step, ev ≠ EvResolveStep step) → resolved_steps evs = [].
Proof.
  unfold resolved_steps. induction evs as [|ev evs IH]; intros Hno; [done|].
  simpl. destruct ev; try (apply IH; intros ev' Hin; apply Hno; by right).
  exfalso. by eapply (Hno _ ltac:(by left)).
Qed.

Lemma executeStep_collect_resolved w r w' :
  executeStep_collect I w = (r, w') →
  ∃ evs, w_trace w' = (evs ++ w_trace w)%list ∧ resolved_steps evs = [].
Proof.
  unfold executeStep_collect, bind.
  destruct (readMixinOutputs I w) as [[outs err] w2] eqn:Hread.
  destruct (readMixinOutputs_frame _ _ _ _ Hread)
    as (_ & _ & _ & _ & _ & _ & (evs & Ht & Hev) & _).
  assert (Hnil : resolved_steps evs = []).
  { apply resolved_steps_nil. intros ev Hin step ->. by apply Hev in Hin. }
  destruct err as [e|].
  { intros [= <- <-]. by exists evs. }
  unfold RuntimeManifest_ApplyStepOutputs.
  destruct (ApplyStepOutputs I _ (w_rm w2)) as [[e|] m].
  { intros [= <- <-]. exists (EvApplyStepOutputs (default ∅ outs) :: evs).
    split; [by simpl; rewrite Ht|]. by rewrite resolved_steps_skip. }
  unfold applyStepOutputsToBundle, bind. rewrite createOutputsDir_eq. cbv zeta.
  destruct (fs_MkdirAll _ _) as [[e|] fsys].
  { intros [= <- <-].
    exists (EvMkdirAll (BundleOutputsDir I) :: EvApplyStepOutputs (default ∅ outs) :: evs).
    split; [by simpl; rewrite Ht|]. by rewrite !resolved_steps_skip. }
  intros (_ & _ & _ & evs' & Ht' & Hev' & _)%applyStepOutputsToBundle_range_inv.
  exists (evs' ++ EvMkdirAll (BundleOutputsDir I)
               :: EvApplyStepOutputs (default ∅ outs) :: evs)%list.
  split.
  - rewrite Ht'. simpl. by rewrite Ht, <- app_assoc.
  - rewrite resolved_steps_app, !resolved_steps_skip, Hnil by done. simpl.
    apply resolved_steps_nil. intros ev Hin step ->.
    by destruct (Hev' _ Hin) as (? & ? & ? & _ & _ & _ & ?).
Qed.

Lemma executeStep_resolved step w r w' :
  executeStep I (Some step) w = (r, w') →
  ∃ evs, w_trace w' = (evs ++ w_trace w)%list ∧ resolved_steps evs = [step].
Proof.
  rewrite executeStep_phases.
  destruct (executeStep_invoke I step w) as [[e|] w1] eqn:Hinv.
  - intros [= <- <-]. revert Hinv.
    unfold executeStep_invoke, bind, RuntimeManifest_ResolveStep.
    destruct (ResolveStep I step (w_rm w) (w_fs w)) as [[[e0|] s1] m1].
    { intros [= <- <-]. by exists [EvResolveStep step]. }
    destruct (if Nat.ltb 0 _ then _ else _) as [[] w2] eqn:Hprint.
    assert (Hw2 : w_trace w2 = EvResolveStep step :: w_trace w).
    { destruct (Nat.ltb 0 _); by injection Hprint as <-. }
    unfold get_rm, SetSensitiveValues, PackageManager_Run. simpl.
    destruct (mixins_Run I _ _ _) as [[[[e1|] fsys] out] errs]; intros [= <- <-]; simpl; rewrite Hw2;
      by eexists [_; _; _].
  - intros (evs' & Ht' & Hnil)%executeStep_collect_resolved.
    assert (Hfirst : ∃ evs, w_trace w1 = (evs ++ w_trace w)%list ∧
                            resolved_steps evs = [step]).
    { revert Hinv. unfold executeStep_invoke, bind, RuntimeManifest_ResolveStep.
      destruct (ResolveStep I step (w_rm w) (w_fs w)) as [[[e0|] s1] m1]; [done|].
      destruct (if Nat.ltb 0 _ then _ else _) as [[] w2] eqn:Hprint.
      assert (Hw2 : w_trace w2 = EvResolveStep step :: w_trace w).
      { destruct (Nat.ltb 0 _); by injection Hprint as <-. }
      unfold get_rm, SetSensitiveValues, PackageManager_Run. simpl.
      destruct (mixins_Run I _ _ _) as [[[[e1|] fsys] out] errs]; intros [= <-]; simpl; rewrite Hw2;
        by eexists [_; _; _]. }
    destruct Hfirst as (evs & Ht & Hone).
    exists (evs' ++ evs)%list. split; [by rewrite Ht', Ht, <- app_assoc|].
    by rewrite resolved_steps_app, Hone, Hnil.
Qed.

(** X10: the steps are resolved in the order of the manifest, each once.
    Over any list of steps the loop of [Execute] resolves a prefix of the
    list, in order, without repeating or leaving out a step of the prefix
    (nil entries make no call); when the loop returns nil the prefix is the
    whole list, and when it returns an error the prefix ends with the step
    that returned it. *)
Theorem Execute_range_in_order steps w r w' :
  Execute_range I steps w = (r, w') →
  ∃ evs pre post,
    w_trace w' = (evs ++ w_trace w)%list ∧
    steps = (pre ++ post)%list ∧
    resolved_steps evs = omap id pre ∧
    (r = None → post = []) ∧
    (∀ e, r = Some e → ∃ pre' step wa,
        pre = (pre' ++ [Some step])%list ∧
        Execute_range I pre' w = (None, wa) ∧
        executeStep I (Some step) wa = (Some e, w')).
Proof.
  revert w. induction steps as [|step rest IH]; intros w.
  { intros [= <- <-]. exists [], [], []. by repeat split. }
  rewrite Execute_range_cons.
  destruct (executeStep I step w) as [[e|] w1] eqn:Hstep.
  - intros [= <- <-]. destruct step as [step|]; [|done].
    destruct (executeStep_resolved _ _ _ _ Hstep) as (evs & Ht & Hone).
    exists evs, [Some step], rest. split; [done|]. split; [done|]. split; [done|].
    split; [done|]. intros e0 [= <-]. by exists [], step, w.
  - intros Hrest. destruct (IH _ Hrest) as (evs' & pre & post & Ht' & -> & Hres & Hnone & Herr).
    assert (Hhead : ∃ evs, w_trace w1 = (evs ++ w_trace w)%list ∧
                           resolved_steps evs = omap id [step]).
    { destruct step as [step|].
      - by apply (executeStep_resolved _ _ _ _ Hstep).
      - injection Hstep as <-. by exists []. }
    destruct Hhead as (evs & Ht & Hone).
    exists (evs' ++ evs)%list, (step :: pre), post.
    split; [by rewrite Ht', Ht, <- app_assoc|]. split; [done|].
    split; [by rewrite resolved_steps_app, Hone, Hres, <- omap_app|]. split; [done|].
    intros e Hr. destruct (Herr e Hr) as (pre' & s & wa & -> & Hpre & Hs).
    exists (step :: pre'), s, wa. split; [done|]. split; [|done].
    by rewrite Execute_range_cons, Hstep.
Qed.

End Order.

(** ** The mixin outputs directory over a whole run *)

Section ChannelRun.

Variable I : Imports.

(** The files of plain names in the bundle output directory are not entries
    of the mixin outputs directory; Go's range visits every declared output
    once; the manifest collaborators keep the names of the declared outputs
    plain. *)
Hypothesis apart :
  ∀ name, plain name →
          base_in (MixinOutputsDir I) (filepath_Join (BundleOutputsDir I) name) = None.

Hypothesis range_Outputs_perm :
  ∀ defs, range_Outputs I defs ≡ₚ map_to_list defs.

Hypothesis ResolveStep_plain :
  ∀ step m fsys, plain_outputs m → plain_outputs (ResolveStep I step m fsys).2.

Hypothesis ApplyStepOutputs_plain :
  ∀ outs m, plain_outputs m → plain_outputs (ApplyStepOutputs I outs m).2.

Lemma applyStepOutputsToBundle_channel_plain outs w r w' :
  plain_outputs (w_rm w) →
  channel_files I (w_fs w) = [] →
  applyStepOutputsToBundle I outs w = (r, w') →
  channel_files I (w_fs w') = [] ∧ w_rm w' = w_rm w.
Proof.
  intros Hplain Hclear. unfold applyStepOutputsToBundle, bind.
  rewrite createOutputsDir_eq. cbv zeta.
  destruct (fs_MkdirAll _ _) as [[e|] fsys] eqn:Hmk.
  { intros [= <- <-]. simpl. by rewrite (fs_MkdirAll_Some _ _ _ _ Hmk). }
  intros Hrun.
  destruct (applyStepOutputsToBundle_range_inv _ _ _ _ _ Hrun)
    as (Hrm & _ & _ & evs & _ & Hev & _ & Hfr).
  split; [|done].
  apply channel_files_nil. intros fi (p & n & Hn & Hb & Hd)%elem_of_fs_entries.
  rewrite Hfr in Hn.
  - simpl in Hn. rewrite (fs_MkdirAll_None _ _ _ Hmk) in Hn. simpl in Hn.
    destruct (decide (BundleOutputsDir I = p)) as [<-|Hne].
    + rewrite lookup_insert_eq in Hn. injection Hn as <-. by rewrite Hd.
    + rewrite lookup_insert_ne in Hn by done.
      apply (channel_files_elem I (w_fs w)); [done|].
      apply elem_of_fs_entries. by exists p, n.
  - intros v (k' & v' & d' & _ & Hd' & _ & Heq)%Hev. injection Heq as -> _.
    rewrite apart in Hb; [done|]. by eapply Hplain.
Qed.

Lemma applyUnboundBundleOutputs_channel w r w' :
  plain_outputs (w_rm w) →
  channel_files I (w_fs w) = [] →
  applyUnboundBundleOutputs I w = (r, w') →
  channel_files I (w_fs w') = [].
Proof.
  intros Hplain Hclear. rewrite applyUnboundBundleOutputs_eq. cbv zeta.
  destruct (fs_MkdirAll _ _) as [[e|] fsys] eqn:Hmk.
  { intros [= <- <-]. simpl. by rewrite (fs_MkdirAll_Some _ _ _ _ Hmk). }
  set (w3 := if Nat.ltb 0 _ then _ else _).
  assert (Hfs3 : w_fs w3 = fsys) by (unfold w3; by destruct (Nat.ltb 0 _)).
  destruct (applyUnboundBundleOutputs_range I _ _ _ w3) as [bigErr w4] eqn:Hrun.
  intros [= _ <-].
  destruct (applyUnboundBundleOutputs_range_inv _ _ _ _ _ _ _ Hrun)
    as (_ & _ & _ & evs & _ & Hev & Hfr).
  apply channel_files_nil. intros fi (p & n & Hn & Hb & Hd)%elem_of_fs_entries.
  rewrite Hfr in Hn.
  - rewrite Hfs3, (fs_MkdirAll_None _ _ _ Hmk) in Hn. simpl in Hn.
    destruct (decide (BundleOutputsDir I = p)) as [<-|Hne].
    + rewrite lookup_insert_eq in Hn. injection Hn as <-. by rewrite Hd.
    + rewrite lookup_insert_ne in Hn by done.
      apply (channel_files_elem I (w_fs w)); [done|].
      apply elem_of_fs_entries. by exists p, n.
  - intros src (k & d & Hin & _ & _ & _ & Heq)%Hev. injection Heq as _ ->.
    apply (range_elem_of _ _ _ _ (range_Outputs_perm _)) in Hin.
    rewrite apart in Hb; [done|]. by eapply Hplain.
Qed.

Lemma executeStep_channel step w w' :
  plain_outputs (w_rm w) →
  executeStep I (Some step) w = (None, w') →
  channel_files I (w_fs w') = [] ∧ plain_outputs (w_rm w').
Proof.
  intros Hplain. rewrite executeStep_phases.
  destruct (executeStep_invoke I step w) as [[e|] w1] eqn:Hinv; [done|].
  assert (Hplain1 : plain_outputs (w_rm w1)).
  { rewrite executeStep_invoke_eq in Hinv.
    pose proof (ResolveStep_plain step (w_rm w) (w_fs w) Hplain) as Hm.
    destruct (ResolveStep I step (w_rm w) (w_fs w)) as [[[e0|] s1] m1]; [done|].
    cbv zeta in Hinv.
    destruct (mixins_Run I _ _ _) as [[[[e1|] fsys] out] errs]; [done|].
    injection Hinv as <-. simpl. by destruct (decide (GetDescription s1 = "")). }
  unfold executeStep_collect, bind.
  destruct (readMixinOutputs I w1) as [[outs err] w2] eqn:Hread.
  destruct (readMixinOutputs_frame _ _ _ _ Hread)
    as (Hrm2 & _ & _ & _ & _ & _ & _ & [[outs' [= -> ->]]|[e [= -> ->]]]); [|done].
  destruct (readMixinOutputs_ok _ _ _ _ Hread) as (Hclear & _).
  unfold RuntimeManifest_ApplyStepOutputs. simpl.
  pose proof (ApplyStepOutputs_plain outs' (w_rm w2)) as Hm.
  rewrite Hrm2 in Hm. specialize (Hm Hplain1). rewrite <- Hrm2 in Hm.
  destruct (ApplyStepOutputs I outs' (w_rm w2)) as [[e|] m]; [done|].
  intros Hbind. simpl in Hm.
  destruct (applyStepOutputsToBundle_channel_plain outs'
              (set_rm m (record (EvApplyStepOutputs outs') w2)) None w' Hm Hclear Hbind)
    as [Hend Hrm].
  split; [done|]. by rewrite Hrm.
Qed.

Lemma Execute_range_channel steps w w' :
  plain_outputs (w_rm w) →
  Execute_range I steps w = (None, w') →
  plain_outputs (w_rm w') ∧
  (channel_files I (w_fs w) = [] ∨ (∃ step, Some step ∈ steps) →
   channel_files I (w_fs w') = []).
Proof.
  revert w. induction steps as [|step rest IH]; intros w Hplain.
  { intros [= <-]. split; [done|]. intros [Hclear|[step Hin]]; [done|].
    by apply elem_of_nil in Hin. }
  rewrite Execute_range_cons.
  destruct (executeStep I step w) as [[e|] w1] eqn:Hstep; [done|].
  intros Hrest. destruct step as [step|].
  - destruct (executeStep_channel _ _ _ Hplain Hstep) as [Hclear1 Hplain1].
    destruct (IH _ Hplain1 Hrest) as [Hplain' Hclear'].
    split; [done|]. intros _. apply Hclear'. by left.
  - injection Hstep as <-. destruct (IH _ Hplain Hrest) as [Hplain' Hclear'].
    split; [done|]. intros [Hclear|[step Hin]]; apply Hclear'; [by left|right].
    apply elem_of_cons in Hin as [?|Hin]; [done|]. by exists step.
Qed.

Lemma Execute_range_split pre post w w' :
  Execute_range I (pre ++ post) w = (None, w') →
  ∃ wa, Execute_range I pre w = (None, wa) ∧ Execute_range I post wa = (None, w').
Proof.
  revert w. induction pre as [|step pre IH]; intros w.
  { intros Hrun. by exists w. }
  rewrite <- app_comm_cons, !Execute_range_cons.
  destruct (executeStep I step w) as [[e|] w1]; [done|]. apply IH.
Qed.

(** X11: a run that succeeds leaves no mixin output behind.  When [Execute]
    returns nil and the manifest it runs has a step that is not nil, the
    mixin outputs directory holds no regular file at the end: every step
    cleared it and neither the binder nor the resolver writes into it.  The
    same holds after every prefix of the steps with a step that is not nil,
    so the mixin of a later step never finds the files of the steps before.
    This is for bundles whose declared outputs have plain names, which the
    manifest collaborators keep plain, and for directories such that a file
    of a plain name in the bundle output directory is not an entry of the
    mixin outputs directory. *)
Theorem Execute_leaves_channel_clear rm w w1 w' :
  Execute_setup I rm w = (None, w1) →
  plain_outputs (w_rm w1) →
  Execute I rm w = (None, w') →
  (∃ step, Some step ∈ GetSteps (w_rm w1)) →
  channel_files I (w_fs w') = [] ∧
  ∀ pre post,
    GetSteps (w_rm w1) = (pre ++ post)%list → (∃ step, Some step ∈ pre) →
    ∃ wa, Execute_range I pre w1 = (None, wa) ∧ channel_files I (w_fs wa) = [].
Proof.
  intros Hsetup Hplain Hrun Hstep. rewrite Execute_phases, Hsetup in Hrun.
  destruct (Execute_range I (GetSteps (w_rm w1)) w1) as [r w2] eqn:Hloop.
  rewrite Execute_finish_eq in Hrun. cbv zeta in Hrun.
  injection Hrun as -> Hw'. split.
  - destruct (Execute_range_channel _ _ _ Hplain Hloop) as [Hplain2 Hclear].
    specialize (Hclear (or_intror Hstep)).
    destruct (applyUnboundBundleOutputs I w2) as [r w3] eqn:Hresolve.
    pose proof (applyUnboundBundleOutputs_channel _ _ _ Hplain2 Hclear Hresolve) as Hend.
    subst w'. unfold log_resolver. simpl. by destruct r.
  - intros pre post Hsplit Hpre. rewrite Hsplit in Hloop.
    destruct (Execute_range_split _ _ _ _ Hloop) as (wa & Ha & _).
    exists wa. split; [done|].
    destruct (Execute_range_channel _ _ _ Hplain Ha) as [_ Hclear].
    apply Hclear. by right.
Qed.

End ChannelRun.

(** ** What a run prints *)

Section Streams.

Variable I : Imports.

Lemma Execute_setup_streams rm w r w1 :
  Execute_setup I rm w = (r, w1) →
  w_Out w1 = banner I rm w :: w_Out w ∧ w_Err w1 = w_Err w.
Proof.
  rewrite Execute_setup_eq.
  unfold Execute_prepare, bind, Getenv, get_rm, Fprintln_Out, RuntimeManifest_Validate.
  cbn beta iota. simpl. fold (banner I rm w).
  destruct (Validate I rm) as [e0|].
  { by intros [= <- <-]. }
  unfold RuntimeManifest_Prepare. simpl.
  destruct (Prepare I rm (w_fs w)) as [[[e1|] m1] f1].
  { by intros [= <- <-]. }
  unfold Execute_images, bind.
  match goal with |- context [getImageMappingFiles I ?w0] =>
    destruct (getImageMappingFiles I w0) as [r0 w2] eqn:Hfiles end.
  destruct (getImageMappingFiles_frame _ _ _ _ Hfiles) as (_ & _ & Hout & Herr & _).
  simpl in *.
  destruct r0 as [e2|[rtb reloMap]].
  { by intros [= <- <-]. }
  unfold RuntimeManifest_ResolveImages.
  destruct (ResolveImages I rtb reloMap (w_rm w2)) as [[e3|] m3].
  { by intros [= <- <-]. }
  unfold FileSystem_MkdirAll, on_fs. simpl.
  by destruct (fs_MkdirAll _ _) as [[e4|] f4]; intros [= <- <-].
Qed.

Lemma mixin_Err_quiet step w : quiet_mixins I → mixin_Err I step w = [].
Proof.
  intros Hquiet. unfold mixin_Err.
  destruct (ResolveStep I step (w_rm w) (w_fs w)) as [[[e|] step'] m]; [done|].
  apply Hquiet.
Qed.

(** A step adds to [r.Err] what its mixin printed there, and nothing
    else. *)
Lemma executeStep_streams step w r w' :
  executeStep I (Some step) w = (r, w') →
  (∃ lines, w_Out w' = (lines ++ w_Out w)%list) ∧
  w_Err w' = (mixin_Err I step w ++ w_Err w)%list.
Proof.
  rewrite executeStep_phases.
  assert (Hinvoke : ∀ r1 w1, executeStep_invoke I step w = (r1, w1) →
            (∃ lines, w_Out w1 = (lines ++ w_Out w)%list) ∧
            w_Err w1 = (mixin_Err I step w ++ w_Err w)%list).
  { intros r1 w1. rewrite executeStep_invoke_eq. unfold mixin_Err.
    destruct (ResolveStep I step (w_rm w) (w_fs w)) as [[[e0|] s1] m1].
    { intros [= <- <-]. split; [by exists []|done]. }
    cbv zeta.
    destruct (mixins_Run I (GetMixinName s1) (mixin_command I m1 s1) (w_fs w))
      as [[[r0 fsys] out] errs].
    destruct r0 as [e1|]; intros [= <- <-]; simpl;
      destruct (decide (GetDescription s1 = "")); simpl; (split; [|done]).
    - by exists out.
    - exists (out ++ [GetDescription s1])%list. by rewrite <- app_assoc.
    - by exists out.
    - exists (out ++ [GetDescription s1])%list. by rewrite <- app_assoc. }
  destruct (executeStep_invoke I step w) as [[e|] w1] eqn:Hinv;
    destruct (Hinvoke _ _ eq_refl) as ((lines & Hout) & Herr).
  { intros [= <- <-]. split; [by exists lines|done]. }
  unfold executeStep_collect, bind.
  destruct (readMixinOutputs I w1) as [[outs err] w2] eqn:Hread.
  destruct (readMixinOutputs_frame _ _ _ _ Hread) as (_ & Hout2 & Herr2 & _).
  destruct err as [e|].
  { intros [= <- <-]. rewrite Herr2, Hout2. split; [by exists lines|done]. }
  unfold RuntimeManifest_ApplyStepOutputs.
  destruct (ApplyStepOutputs I _ (w_rm w2)) as [[e|] m].
  { intros [= <- <-]. simpl. rewrite Herr2, Hout2. split; [by exists lines|done]. }
  unfold applyStepOutputsToBundle, bind. rewrite createOutputsDir_eq. cbv zeta.
  destruct (fs_MkdirAll _ _) as [[e|] fsys].
  { intros [= <- <-]. simpl. rewrite Herr2, Hout2. split; [by exists lines|done]. }
  intros (_ & Hout3 & Herr3 & _)%applyStepOutputsToBundle_range_inv.
  simpl in *. rewrite Herr3, Hout3, Herr2, Hout2. split; [by exists lines|done].
Qed.

Lemma Execute_range_streams steps w r w' :
  Execute_range I steps w = (r, w') →
  (∃ lines, w_Out w' = (lines ++ w_Out w)%list) ∧
  (quiet_mixins I → w_Err w' = w_Err w).
Proof.
  revert w. induction steps as [|step rest IH]; intros w.
  { intros [= <- <-]. split; [by exists []|done]. }
  rewrite Execute_range_cons.
  assert (Hstep : ∀ r1 w1, executeStep I step w = (r1, w1) →
            (∃ lines, w_Out w1 = (lines ++ w_Out w)%list) ∧
            (quiet_mixins I → w_Err w1 = w_Err w)).
  { intros r1 w1. destruct step as [step|].
    - intros ((lines & Hout) & Herr)%executeStep_streams. split; [by exists lines|].
      intros Hquiet. by rewrite Herr, (mixin_Err_quiet _ _ Hquiet).
    - intros [= <- <-]. split; [by exists []|done]. }
  destruct (executeStep I step w) as [[e|] w1] eqn:Hrun;
    destruct (Hstep _ _ eq_refl) as ((lines & Hout) & Herr).
  { intros [= <- <-]. split; [by exists lines|done]. }
  intros ((lines' & Hout') & Herr')%IH. split.
  - exists (lines' ++ lines)%list. by rewrite Hout', Hout, <- app_assoc.
  - intros Hquiet. by rewrite (Herr' Hquiet), (Herr Hquiet).
Qed.

(** The resolver and the line that [Execute] logs for it. *)
Lemma log_resolver_streams w :
  (∃ lines, w_Out (log_resolver (applyUnboundBundleOutputs I w))
            = (lines ++ w_Out w)%list) ∧
  (w_Err (log_resolver (applyUnboundBundleOutputs I w)) = w_Err w ∨
   ∃ e, w_Err (log_resolver (applyUnboundBundleOutputs I w))
        = error_Error (errors_Wrap e "unable to ensure CNAB outputs directory exists")
            :: w_Err w).
Proof.
  unfold log_resolver. rewrite applyUnboundBundleOutputs_eq. cbv zeta.
  destruct (fs_MkdirAll _ _) as [[e|] fsys]; simpl.
  { split; [by exists []|]. right. by exists e. }
  set (w3 := if Nat.ltb 0 _ then _ else _).
  assert (Hw3 : w_Err w3 = w_Err w ∧ ∃ l, w_Out w3 = (l ++ w_Out w)%list).
  { unfold w3. destruct (Nat.ltb 0 _); (split; [done|]); [by eexists [_]|by exists []]. }
  destruct Hw3 as (Herr3 & l & Hout3).
  destruct (applyUnboundBundleOutputs_range I _ _ _ w3) as [bigErr w4] eqn:Hrun.
  destruct (applyUnboundBundleOutputs_range_inv _ _ _ _ _ _ _ Hrun)
    as (_ & Hout4 & Herr4 & _).
  pose proof (applyUnboundBundleOutputs_range_bigErr I None
                (GetOutputs (w_rm w)) (range_Outputs I (Outputs (w_rm w))) w3) as HbigErr.
  rewrite Hrun in HbigErr. simpl in HbigErr. subst bigErr. simpl.
  rewrite Hout4, Hout3, Herr4, Herr3. split; [by exists l|by left].
Qed.

(** X12: what [Execute] prints.  The banner is the first line every run
    writes to [r.Out].  When [Execute] returns nil the last line written to
    [r.Out] is the completion message.  A step adds to [r.Err] the lines its
    mixin printed there and nothing else, whatever the step returns.  So
    when the mixins write nothing to [r.Err], [r.Err] receives at most one
    line in a run, the error of the resolver, which can only be that the
    bundle outputs directory could not be made; the error that [Execute]
    returns is not printed. *)
Theorem Execute_prints rm w :
  (∃ lines, w_Out (Execute I rm w).2 = (lines ++ banner I rm w :: w_Out w)%list) ∧
  ((Execute I rm w).1 = None →
     ∃ lines, w_Out (Execute I rm w).2
              = ("execution completed successfully!" :: lines
                   ++ banner I rm w :: w_Out w)%list) ∧
  (∀ step w0,
     w_Err (executeStep I (Some step) w0).2 = (mixin_Err I step w0 ++ w_Err w0)%list) ∧
  (quiet_mixins I →
   w_Err (Execute I rm w).2 = w_Err w ∨
   ∃ e, w_Err (Execute I rm w).2
        = error_Error (errors_Wrap e "unable to ensure CNAB outputs directory exists")
            :: w_Err w).
Proof.
  split; [|split; [|split]].
  3:{ intros step w0. destruct (executeStep I (Some step) w0) as [r w'] eqn:Hstep.
      by apply executeStep_streams in Hstep as [_ Herr]. }
  all: rewrite Execute_phases.
  all: destruct (Execute_setup I rm w) as [[e|] w1] eqn:Hsetup.
  all: destruct (Execute_setup_streams _ _ _ _ Hsetup) as (Hout1 & Herr1).
  1, 3, 5: simpl; first [by exists []|done|by left].
  all: destruct (Execute_range I (GetSteps (w_rm w1)) w1) as [r w2] eqn:Hloop.
  all: destruct (Execute_range_streams _ _ _ _ Hloop) as ((lines & Hout2) & Herr2).
  all: destruct (log_resolver_streams w2) as ((l & Hout3) & Herr3).
  all: rewrite Execute_finish_eq; cbv zeta; simpl.
  - destruct r as [e|]; simpl; rewrite Hout3, Hout2, Hout1.
    + exists (l ++ lines)%list. by rewrite <- app_assoc.
    + exists ("execution completed successfully!" :: l ++ lines)%list. simpl.
      by rewrite <- app_assoc.
  - intros ->. simpl. rewrite Hout3, Hout2, Hout1.
    exists (l ++ lines)%list. by rewrite <- app_assoc.
  - intros Hquiet. rewrite (Herr2 Hquiet), Herr1 in Herr3. by destruct r.
Qed.

End Streams.

(** ** Runs of the concrete bundle, continued *)

Lemma Execute_setup_failure_witness :
  ∃ e,
    Execute Demo.imports Demo.install_db Cases.no_bundle
      = (Some e, (Execute_setup Demo.imports Demo.install_db Cases.no_bundle).2) ∧
    w_trace (Execute_setup Demo.imports Demo.install_db Cases.no_bundle).2
      = [EvReadFile "/cnab/bundle.json"; EvPrepare; EvValidate].
Proof.
  exists (errors_Wrap (errorString "open /cnab/bundle.json: no such file or directory")
                      "couldn't read runtime bundle.json").
  assert (Hsetup : Execute_setup Demo.imports Demo.install_db Cases.no_bundle
                   = (Some (errors_Wrap
                              (errorString
                                 "open /cnab/bundle.json: no such file or directory")
                              "couldn't read runtime bundle.json"),
                      (Execute_setup Demo.imports Demo.install_db Cases.no_bundle).2))
    by (vm_compute; reflexivity).
  split.
  - exact (proj1 (Execute_setup_failure Demo.imports Demo.install_db Cases.no_bundle
                    _ _ Hsetup)).
  - vm_compute. reflexivity.
Defined.

Lemma executeStep_resolution_witness :
  w_trace (executeStep_invoke Cases.noisy Cases.helm_step Cases.before_deploy).2
    = [EvMixinRun "helm" (mkCommandOptions "install" "chart: db" true);
       EvSetSensitiveValues []; EvResolveStep Cases.helm_step] ∧
  w_Out (executeStep_invoke Cases.noisy Cases.helm_step Cases.before_deploy).2
    = ["release deployed"; "Deploy chart"] ∧
  w_Err (executeStep_invoke Cases.noisy Cases.helm_step Cases.before_deploy).2
    = ["warning: chart is deprecated"].
Proof.
  assert (Hres : ResolveStep Cases.noisy Cases.helm_step (w_rm Cases.before_deploy)
                   (w_fs Cases.before_deploy)
                 = (None, Cases.helm_step, Cases.deploy))
    by (vm_compute; reflexivity).
  destruct (executeStep_resolution Cases.noisy Cases.helm_step Cases.before_deploy None
              Cases.helm_step Cases.deploy Hres) as [_ Hok].
  destruct (Hok eq_refl) as (_ & Ht & Hout & Herr).
  split; [|split].
  - etransitivity; [exact Ht|]. vm_compute. reflexivity.
  - etransitivity; [exact Hout|]. vm_compute. reflexivity.
  - etransitivity; [exact Herr|]. vm_compute. reflexivity.
Defined.

Lemma plain_outputs_of (m : RuntimeManifest) (defs : list OutputDefinition) :
  Outputs m = list_to_map (map (λ d, (Name d, d)) defs) →
  Forall (λ d, plain (Name d)) defs →
  plain_outputs m.
Proof.
  intros Hm Hall k d Hd. rewrite Hm in Hd.
  apply elem_of_list_to_map_2, list_elem_of_fmap in Hd as (d' & [= -> ->] & Hin).
  by eapply Forall_forall in Hall.
Qed.

Lemma Execute_failed_mixin_witness :
  (Execute Demo.imports Demo.second_fails Demo.start).1 = Some Demo.failure ∧
  nodes (w_fs (Execute Demo.imports Demo.second_fails Demo.start).2)
    !! filepath_Join Demo.channel "dbHost" = None.
Proof.
  assert (Hplain : plain_outputs (w_rm Demo.before_failure)).
  { apply (plain_outputs_of _ [Demo.dbHost]); [vm_compute; reflexivity|].
    repeat (constructor; [reflexivity|]). constructor. }
  destruct (Execute_failed_mixin Demo.imports (λ defs, reflexivity _)
              Demo.second_fails Demo.start Demo.ready
              [Some Demo.install_step] Demo.broken_step [Some Demo.install_step]
              Demo.before_failure Demo.broken_step (w_rm Demo.before_failure)
              (errorString "exit status 1") (w_fs Demo.before_failure) [] [])
    as [Hret Hframe].
  - vm_compute. reflexivity.
  - vm_compute. reflexivity.
  - vm_compute. reflexivity.
  - vm_compute. reflexivity.
  - exact Hplain.
  - vm_compute. reflexivity.
  - split; [exact Hret|]. rewrite Hframe.
    + vm_compute. reflexivity.
    + intros Heq. vm_compute in Heq. discriminate Heq.
    + intros name _ Heq. vm_compute in Heq. discriminate Heq.
Defined.

Lemma getImageMappingFiles_reads_only_witness :
  w_fs (getImageMappingFiles Demo.imports Demo.start).2 = w_fs Demo.start ∧
  (getImageMappingFiles Demo.imports
     (getImageMappingFiles Demo.imports Demo.start).2).1
  = (getImageMappingFiles Demo.imports Demo.start).1.
Proof.
  assert (Hrun : getImageMappingFiles Demo.imports Demo.start
                 = ((getImageMappingFiles Demo.imports Demo.start).1,
                    (getImageMappingFiles Demo.imports Demo.start).2))
    by (vm_compute; reflexivity).
  destruct (getImageMappingFiles_reads_only Demo.imports Demo.start _ _ Hrun)
    as (Hfs & _ & _ & Hagain).
  split; [exact Hfs|exact Hagain].
Defined.

Lemma readMixinOutputs_failure_loses_read_outputs_witness :
  nodes (w_fs (readMixinOutputs Demo.imports Cases.half_read).2)
    !! filepath_Join Demo.channel "apiKey" = None ∧
  nodes (w_fs (readMixinOutputs Demo.imports Cases.half_read).2)
    !! filepath_Join Demo.channel "port" = Some (File "5432").
Proof.
  assert (Hdir : fs_ReadDir (MixinOutputsDir Demo.imports) (w_fs Cases.half_read)
                 = inr ([Cases.apiKey] ++ Cases.dbHost :: [Cases.port])%list)
    by (vm_compute; reflexivity).
  assert (Hpre : readMixinOutputs_range Demo.imports [Cases.apiKey] ∅
                   (record (EvReadDir (MixinOutputsDir Demo.imports)) Cases.half_read)
                 = ((Some {[ "apiKey" := "k-123" ]}, None),
                    (readMixinOutputs_range Demo.imports [Cases.apiKey] ∅
                       (record (EvReadDir (MixinOutputsDir Demo.imports))
                               Cases.half_read)).2))
    by (vm_compute; reflexivity).
  assert (Hfail : read_fails (filepath_Join (MixinOutputsDir Demo.imports)
                                (FileInfo_Name Cases.dbHost)) (w_fs Cases.half_read) ∨
                  remove_fails (filepath_Join (MixinOutputsDir Demo.imports)
                                  (FileInfo_Name Cases.dbHost)) (w_fs Cases.half_read)).
  { left. exists (errorString "open /cnab/app/porter/outputs/dbHost: permission denied").
    vm_compute. reflexivity. }
  destruct (readMixinOutputs_failure_loses_read_outputs Demo.imports Cases.half_read
              [Cases.apiKey] Cases.dbHost [Cases.port] _ _ Hdir eq_refl Hpre Hfail)
    as (_ & Hlost & Hkept).
  split.
  - apply (Hlost Cases.apiKey); [left|reflexivity].
  - etransitivity; [apply (Hkept Cases.port); left|]. vm_compute. reflexivity.
Defined.

Lemma executeStep_hands_outputs_over_witness :
  ∃ contents,
    nodes (w_fs Cases.mixin_done) !! filepath_Join Demo.channel "dbHost"
      = Some (File contents) ∧
    nodes (w_fs (executeStep Demo.imports (Some Demo.install_step) Cases.fresh).2)
      !! filepath_Join Demo.store "dbHost" = Some (File contents).
Proof.
  assert (Hinvoke : executeStep_invoke Demo.imports Demo.install_step Cases.fresh
                    = (None, Cases.mixin_done)) by (vm_compute; reflexivity).
  assert (Hstep : executeStep Demo.imports (Some Demo.install_step) Cases.fresh
                  = (None, (executeStep Demo.imports (Some Demo.install_step)
                              Cases.fresh).2)) by (vm_compute; reflexivity).
  assert (Hfile : Cases.dbHost ∈ channel_files Demo.imports (w_fs Cases.mixin_done)).
  { vm_compute. left. }
  assert (Hrm : Outputs (w_rm (executeStep Demo.imports (Some Demo.install_step)
                                 Cases.fresh).2)
                = list_to_map (map (λ d, (Name d, d)) [Demo.dbHost; Demo.dbPassword]))
    by (vm_compute; reflexivity).
  destruct (executeStep_hands_outputs_over Demo.imports (λ outs, reflexivity _)
              Demo.install_step Cases.fresh Cases.mixin_done _ Cases.dbHost Demo.dbHost
              Hinvoke Hstep Hfile)
    as (contents & outs & Hnode & _ & _ & _ & Hstore).
  - rewrite Hrm. apply keyed_by_name.
  - vm_compute. reflexivity.
  - left. reflexivity.
  - exists contents. split; [exact Hnode|exact Hstore].
Defined.

Lemma Execute_range_in_order_witness :
  ∃ evs pre post,
    w_trace Demo.at_failure = (evs ++ w_trace Demo.ready)%list ∧
    GetSteps Demo.second_fails = (pre ++ post)%list ∧
    resolved_steps evs = omap id pre.
Proof.
  assert (Hrun : Execute_range Demo.imports (GetSteps Demo.second_fails) Demo.ready
                 = (Some Demo.failure, Demo.at_failure)) by (vm_compute; reflexivity).
  destruct (Execute_range_in_order Demo.imports _ _ _ _ Hrun)
    as (evs & pre & post & Ht & Hsplit & Hres & _).
  exists evs, pre, post. split; [exact Ht|]. split; [exact Hsplit|exact Hres].
Defined.

Lemma Execute_leaves_channel_clear_witness :
  channel_files Demo.imports
    (w_fs (Execute Demo.imports Demo.install_db Demo.start).2) = [].
Proof.
  refine (proj1 (Execute_leaves_channel_clear Demo.imports _ (λ defs, reflexivity _)
                   (λ step m fsys H, H) (λ outs m H, H)
                   Demo.install_db Demo.start
                   (Execute_setup Demo.imports Demo.install_db Demo.start).2
                   (Execute Demo.imports Demo.install_db Demo.start).2 _ _ _ _)).
  - intros name _. reflexivity.
  - vm_compute. reflexivity.
  - apply (plain_outputs_of _ [Demo.dbHost; Demo.dbPassword]); [vm_compute; reflexivity|].
    repeat (constructor; [reflexivity|]). constructor.
  - vm_compute. reflexivity.
  - exists Demo.install_step. vm_compute. left.
Defined.

Lemma Execute_prints_witness :
  w_Err (Execute Demo.imports Demo.install_db Demo.start).2 = [] ∨
  ∃ e, w_Err (Execute Demo.imports Demo.install_db Demo.start).2
       = [error_Error (errors_Wrap e "unable to ensure CNAB outputs directory exists")].
Proof.
  assert (Hquiet : quiet_mixins Demo.imports).
  { intros mixin cmd fsys. unfold Demo.imports, mixins_Run, Demo.run.
    repeat case_match; reflexivity. }
  exact (proj2 (proj2 (proj2 (Execute_prints Demo.imports Demo.install_db Demo.start)))
               Hquiet).
Defined.

Lemma applyUnboundBundleOutputs_copies_witness :
  ∃ evs,
    w_trace (applyUnboundBundleOutputs Demo.imports Cases.bound_kubeconfig).2
      = (evs ++ w_trace Cases.bound_kubeconfig)%list ∧
    EvCopyFile "/root/cert.pem" "/cnab/app/outputs/cert" ∈ evs ∧
    nodes (w_fs (applyUnboundBundleOutputs Demo.imports Cases.bound_kubeconfig).2)
      !! "/cnab/app/outputs/cert" = Some (File "-----BEGIN CERTIFICATE-----") ∧
    (∀ src, EvCopyFile src "/cnab/app/outputs/kubeconfig" ∉ evs) ∧
    nodes (w_fs (applyUnboundBundleOutputs Demo.imports Cases.bound_kubeconfig).2)
      !! "/cnab/app/outputs/kubeconfig" = Some (File "from the step").
Proof.
  destruct (applyUnboundBundleOutputs_copies Demo.imports Cases.bound_kubeconfig
              (applyUnboundBundleOutputs Demo.imports Cases.bound_kubeconfig).2)
    as (evs & Ht & H).
  - reflexivity.
  - apply (keyed_by_name [Cases.cert; Demo.kubeconfig]).
  - apply (plain_outputs_of _ [Cases.cert; Demo.kubeconfig]); [reflexivity|].
    repeat (constructor; [reflexivity|]). constructor.
  - split; [vm_compute; reflexivity|]. split; intros Heq; vm_compute in Heq;
      discriminate Heq.
  - vm_compute. reflexivity.
  - exists evs. split; [exact Ht|].
    destruct (H "cert" Cases.cert) as (_ & Hcopy & _); [vm_compute; reflexivity|].
    destruct (H "kubeconfig" Demo.kubeconfig) as (_ & _ & Hskip);
      [vm_compute; reflexivity|].
    destruct Hcopy as [Hcall Hbytes].
    { split; [vm_compute; reflexivity|]. split; [discriminate|]. left. reflexivity. }
    destruct Hskip as [Hnone Hkept].
    { intros [Hu _]. vm_compute in Hu. discriminate Hu. }
    split; [exact Hcall|]. split; [|split; [exact Hnone|]].
    + apply Hbytes.
      * reflexivity.
      * vm_compute. reflexivity.
      * intros name Heq. vm_compute in Heq. discriminate Heq.
      * reflexivity.
      * vm_compute. discriminate.
    + etransitivity; [exact Hkept|]. vm_compute. reflexivity.
Defined.
